(** * robothub_depthai.manager: the DeviceManager of robothub-oak

    A shallow embedding of [src/robothub_depthai/manager.py].  The manager
    keeps a registry of devices ([_devices]) and a pool of live cameras
    ([_hub_cameras]); three loops (connection, reporting, polling) work on the
    pool, [start] launches them and [stop] signals them, joins them and tears
    the cameras down.

    Python objects are records carrying their identity, lists are [list],
    the manager's attributes are the fields of [DeviceManager].  A method is
    a function from the manager's state to a [Run]: how it ended ([Ok],
    [Raise] or [Hang]), the state it left, and the calls it made, in order.
    Everything the manager calls but does not define (the device's
    routines, the camera, the agent, the stream registry) is a field of
    [World]. *)

From Stdlib Require Import List String Bool Arith ZArith Lia.
Import ListNotations.
Local Open Scope string_scope.

(** ** Python values *)

(** The exception classes the manager tells apart: [except Exception] does
    not catch the classes that derive from [BaseException] only. *)
Inductive ExnClass :=
| BaseException | Exception | ValueError | RuntimeError
| KeyboardInterrupt | SystemExit.

Definition issubclass_Exception (c : ExnClass) : bool :=
  match c with
  | Exception | ValueError | RuntimeError => true
  | BaseException | KeyboardInterrupt | SystemExit => false
  end.

(** An exception: its class, [str(e)], and the chain of exceptions that
    were being handled when it was raised ([__context__], innermost first),
    each with its class and text. *)
Record PyExn := mkExn {
  exn_class : ExnClass;
  str : string;
  exn_context : list (ExnClass * string)
}.

(** [raise cls(text)] inside [except ... as e]. *)
Definition raised_from (c : ExnClass) (text : string) (e : PyExn) : PyExn :=
  mkExn c text ((exn_class e, str e) :: exn_context e).

Definition isinstance_Exception (e : PyExn) : bool :=
  issubclass_Exception (exn_class e).

(** Modelled from the spec: the class [Device] is not among the sources.  A
    device is an object of the caller with an [mxid]; its start routine and
    its callbacks are fields of [World]. *)
Record Device := { device_obj : nat; mxid : string }.

(** Modelled from the spec: the class [HubCamera] is not among the sources.
    A camera is an object with the [device_mxid] it was constructed with;
    its methods and its [state] are fields of [World]. *)
Record HubCamera := { camera_obj : nat; device_mxid : string }.

Definition Device_eq_dec (a b : Device) : {a = b} + {a <> b}.
Proof. decide equality; [apply string_dec | apply Nat.eq_dec]. Defined.

Definition HubCamera_eq_dec (a b : HubCamera) : {a = b} + {a <> b}.
Proof. decide equality; [apply string_dec | apply Nat.eq_dec]. Defined.

(** Modelled from the spec: [robothub.DeviceState] is not among the sources;
    the spec names [CONNECTED] and [DISCONNECTED] and leaves the other
    states opaque. *)
Inductive DeviceState := CONNECTED | DISCONNECTED | OtherState (n : nat).

Definition DeviceState_eqb (a b : DeviceState) : bool :=
  match a, b with
  | CONNECTED, CONNECTED | DISCONNECTED, DISCONNECTED => true
  | OtherState n, OtherState m => Nat.eqb n m
  | _, _ => false
  end.

(** Modelled from the spec: what [info_report] and [stats_report] return
    (the spec's InfoRecord and StatsRecord) is opaque to the manager. *)
Definition Report := string.

Inductive ThreadName := ConnectionThread | ReportingThread | PollingThread.

(** Modelled from the spec: [robothub.threading] is not among the sources;
    its [Thread] and [Event] are taken to be those of Python's [threading].
    A thread was created by [__init__], is running its target, or has left
    it (by returning or by an exception). *)
Inductive ThreadStatus := Created | Alive | Finished.

Inductive LogLevel := DEBUG | INFO | ERROR.

(** Durations are in microseconds. *)
Definition seconds (n : Z) : Z := (n * 1000000)%Z.
Definition REPORT_FREQUENCY : Z := seconds 10.
Definition POLL_FREQUENCY : Z := 500%Z.   (* 0.0005 s *)

(** ** Outcomes, calls and runs *)

(** How a call ends: it returns, it raises, or it never comes back. *)
Inductive res (A : Type) :=
| Ok (a : A)
| Raise (e : PyExn)
| Hang.
Arguments Ok {A} a.
Arguments Raise {A} e.
Arguments Hang {A}.

(** What a run of the manager does, in order. *)
Inductive Event :=
| NewHubCamera (h : HubCamera)                      (* HubCamera(device_mxid=...) *)
| CallDeviceStart (d : Device) (h : HubCamera)      (* device._start(hub_camera) *)
| CallConnectCallback (d : Device) (h : HubCamera)  (* device.connect_callback(hub_camera) *)
| CallDisconnectCallback (d : Device)               (* device.disconnect_callback(device) *)
| CallCameraStart (h : HubCamera)                   (* hub_camera.start() *)
| CallCameraStop (h : HubCamera)                    (* camera.stop() *)
| CallPoll (h : HubCamera)                          (* camera.poll() *)
| CallExit (h : HubCamera)                          (* camera.oak_camera.__exit__(...) *)
| CallInfoReport (h : HubCamera)                    (* camera.info_report() *)
| CallStatsReport (h : HubCamera)                   (* camera.stats_report() *)
| CallPublishDeviceInfo (r : Report)                (* robothub.AGENT.publish_device_info *)
| CallPublishDeviceStats (r : Report)               (* robothub.AGENT.publish_device_stats *)
| CallDestroyAllStreams                             (* robothub.STREAMS.destroy_all_streams() *)
| Wait (t : Z)                                      (* self.stop_event.wait(t) *)
| SetStopEvent                                      (* self.stop_event.set() *)
| ThreadStart (t : ThreadName)                      (* thread.start() *)
| ThreadJoin (t : ThreadName)                       (* thread.join() *)
| Log (lvl : LogLevel) (text : string)              (* log.debug / log.info / log.error *)
| PoolAppend (h : HubCamera)                        (* self._hub_cameras.append *)
| PoolRemove (h : HubCamera).                       (* self._hub_cameras.remove *)

(** The collaborators: what each of their routines does when called. *)
Record World := {
  dev_start : Device -> HubCamera -> res bool;
  dev_connect_callback : Device -> HubCamera -> res unit;
  dev_disconnect_callback : Device -> res unit;
  cam_start : HubCamera -> res unit;
  cam_stop : HubCamera -> res unit;
  cam_poll : HubCamera -> res bool;
  cam_state : HubCamera -> DeviceState;
  cam_exit : HubCamera -> res unit;
  cam_info_report : HubCamera -> res Report;
  cam_stats_report : HubCamera -> res Report;
  agent_publish_device_info : Report -> res unit;
  agent_publish_device_stats : Report -> res unit;
  streams_destroy_all_streams : res unit;
  (** What interrupts the caller of [thread.join()] while it waits for the
      thread, if anything does: the exception [join] then raises. *)
  thread_join_raises : ThreadName -> option PyExn;
  (** [add_device] calls other threads make while this one sleeps, each
      with the time it is made at. *)
  concurrent_adds : list (Z * Device)
}.

(** The attributes [__init__] gives the manager, the next free object
    identity, and the time. *)
Record DeviceManager := mkManager {
  _devices : list Device;
  _hub_cameras : list HubCamera;
  running : bool;
  connecting_to_device : bool;
  stop_event : bool;
  reporting_thread : ThreadStatus;
  polling_thread : ThreadStatus;
  connection_thread : ThreadStatus;
  next_obj : nat;
  clock : Z
}.

Definition set_devices (l : list Device) (s : DeviceManager) :=
  mkManager l (_hub_cameras s) (running s) (connecting_to_device s) (stop_event s)
    (reporting_thread s) (polling_thread s) (connection_thread s) (next_obj s) (clock s).

Definition set_hub_cameras (l : list HubCamera) (s : DeviceManager) :=
  mkManager (_devices s) l (running s) (connecting_to_device s) (stop_event s)
    (reporting_thread s) (polling_thread s) (connection_thread s) (next_obj s) (clock s).

Definition set_running (b : bool) (s : DeviceManager) :=
  mkManager (_devices s) (_hub_cameras s) b (connecting_to_device s) (stop_event s)
    (reporting_thread s) (polling_thread s) (connection_thread s) (next_obj s) (clock s).

Definition set_connecting_to_device (b : bool) (s : DeviceManager) :=
  mkManager (_devices s) (_hub_cameras s) (running s) b (stop_event s)
    (reporting_thread s) (polling_thread s) (connection_thread s) (next_obj s) (clock s).

Definition set_stop_event (b : bool) (s : DeviceManager) :=
  mkManager (_devices s) (_hub_cameras s) (running s) (connecting_to_device s) b
    (reporting_thread s) (polling_thread s) (connection_thread s) (next_obj s) (clock s).

Definition thread_status (t : ThreadName) (s : DeviceManager) : ThreadStatus :=
  match t with
  | ConnectionThread => connection_thread s
  | ReportingThread => reporting_thread s
  | PollingThread => polling_thread s
  end.

Definition set_thread (t : ThreadName) (v : ThreadStatus) (s : DeviceManager) :=
  mkManager (_devices s) (_hub_cameras s) (running s) (connecting_to_device s) (stop_event s)
    (match t with ReportingThread => v | _ => reporting_thread s end)
    (match t with PollingThread => v | _ => polling_thread s end)
    (match t with ConnectionThread => v | _ => connection_thread s end)
    (next_obj s) (clock s).

Definition set_next_obj (n : nat) (s : DeviceManager) :=
  mkManager (_devices s) (_hub_cameras s) (running s) (connecting_to_device s) (stop_event s)
    (reporting_thread s) (polling_thread s) (connection_thread s) n (clock s).

Definition set_clock (c : Z) (s : DeviceManager) :=
  mkManager (_devices s) (_hub_cameras s) (running s) (connecting_to_device s) (stop_event s)
    (reporting_thread s) (polling_thread s) (connection_thread s) (next_obj s) c.

(** A run: the outcome, the state left behind (also when the run raised),
    and the trace. *)
Record Run (A : Type) := mkRun {
  out : res A;
  st : DeviceManager;
  evs : list Event
}.
Arguments mkRun {A} out st evs.
Arguments out {A} r.
Arguments st {A} r.
Arguments evs {A} r.

Definition M (A : Type) : Type := DeviceManager -> Run A.

Definition ret {A} (a : A) : M A := fun s => mkRun (Ok a) s [].
Definition raise {A} (e : PyExn) : M A := fun s => mkRun (Raise e) s [].
Definition hang {A} : M A := fun s => mkRun Hang s [].

Definition bind {A B} (m : M A) (f : A -> M B) : M B := fun s =>
  let r := m s in
  match out r with
  | Ok a => let r' := f a (st r) in mkRun (out r') (st r') (evs r ++ evs r')
  | Raise e => mkRun (Raise e) (st r) (evs r)
  | Hang => mkRun Hang (st r) (evs r)
  end.

Declare Scope py_scope.
Delimit Scope py_scope with py.
Notation "x <- m ;; k" := (bind m (fun x => k))
  (at level 61, m at next level, right associativity) : py_scope.
Notation "m ;; k" := (bind m (fun _ => k))
  (at level 61, right associativity) : py_scope.
Local Open Scope py_scope.

Definition gets {A} (f : DeviceManager -> A) : M A := fun s => mkRun (Ok (f s)) s [].
Definition modify (f : DeviceManager -> DeviceManager) : M unit :=
  fun s => mkRun (Ok tt) (f s) [].
Definition emit (e : Event) : M unit := fun s => mkRun (Ok tt) s [e].

(** A call into a collaborator: it is recorded, then ends as the world says. *)
Definition call {A} (e : Event) (r : res A) : M A := fun s => mkRun r s [e].

(** [try: body  except <classes>: handler].  An exception the clause does
    not name goes on. *)
Definition try_except {A} (body : M A) (catches : PyExn -> bool)
    (handler : PyExn -> M A) : M A := fun s =>
  let r := body s in
  match out r with
  | Raise e =>
      if catches e
      then let r' := handler e (st r) in mkRun (out r') (st r') (evs r ++ evs r')
      else r
  | _ => r
  end.

Definition except_Exception : PyExn -> bool := isinstance_Exception.
Definition except_BaseException : PyExn -> bool := fun _ => true.

(** [for x in lst: body], where [lst] is an attribute of the manager: the
    list iterator keeps an index into the list as it is now, so what [body]
    removes or appends shows.  One step of the iterator, then the loop. *)
Definition for_step {A} (lst : DeviceManager -> list A) (body : A -> M unit)
    (i : nat) : M (option nat) := fun s =>
  match nth_error (lst s) i with
  | None => ret None s
  | Some x => (body x ;; ret (Some (S i))) s
  end.

Fixpoint for_from {A} (fuel : nat) (lst : DeviceManager -> list A)
    (body : A -> M unit) (i : nat) : M unit :=
  match fuel with
  | O => hang
  | S fuel' =>
      next <- for_step lst body i ;;
      match next with
      | None => ret tt
      | Some j => for_from fuel' lst body j
      end
  end.

(** The loop over a list that its body never makes longer takes at most one
    step per element and one to see the end. *)
Definition for_in {A} (lst : DeviceManager -> list A) (body : A -> M unit) : M unit :=
  fun s => for_from (S (List.length (lst s))) lst body 0 s.

(** The same loop over a list nobody changes meanwhile. *)
Fixpoint foreach {A} (body : A -> M unit) (l : list A) : M unit :=
  match l with
  | [] => ret tt
  | x :: l' => body x ;; foreach body l'
  end.

(** [lst.remove(x)]: the first element equal to [x] goes; [None] when there
    is none (Python raises ValueError). *)
Fixpoint list_remove {A} (eq_dec : forall a b : A, {a = b} + {a <> b})
    (x : A) (l : list A) : option (list A) :=
  match l with
  | [] => None
  | y :: l' =>
      if eq_dec x y then Some l'
      else option_map (cons y) (list_remove eq_dec x l')
  end.

Definition ValueError_not_in_list : PyExn :=
  mkExn ValueError "list.remove(x): x not in list" [].

Definition RuntimeError_started_twice : PyExn :=
  mkExn RuntimeError "threads can only be started once" [].

Definition thread_getName (t : ThreadName) : string :=
  match t with
  | ConnectionThread => "ConnectionThread"
  | ReportingThread => "ReportingThread"
  | PollingThread => "PollingThread"
  end.

(** ** The manager *)

(** [DeviceManager.__init__], and the module's [DEVICE_MANAGER]. *)
Definition __init__ : DeviceManager :=
  mkManager [] [] false false false Created Created Created 0 0%Z.

Definition DEVICE_MANAGER : DeviceManager := __init__.

Section Manager.

Variable w : World.

(** The devices other threads add after time [a] and no later than [b]. *)
Definition arrivals (a b : Z) : list Device :=
  map snd (filter (fun td => (a <? fst td)%Z && (fst td <=? b)%Z) (concurrent_adds w)).

(** [self.stop_event.wait(t)], as [threading.Event.wait]: at once when the
    event is set; otherwise the thread sleeps for [t], and finds the
    registry as the other threads left it.  A run of one thread sees of the
    other threads only what they add to the registry while it sleeps; what
    they do while it does not sleep is for the steps of the threads,
    further down, which interleave them. *)
Definition stop_event_wait (t : Z) : M bool :=
  emit (Wait t) ;;
  is_set <- gets stop_event ;;
  if is_set then ret true
  else
    now <- gets clock ;;
    modify (set_clock (now + t)%Z) ;;
    modify (fun s => set_devices (_devices s ++ arrivals now (now + t)%Z) s) ;;
    ret false.

Definition add_device (device : Device) : M unit :=
  modify (fun s => set_devices (_devices s ++ [device]) s).

Definition remove_device (device : Device) : M unit :=
  devices <- gets _devices ;;
  match list_remove Device_eq_dec device devices with
  | Some devices' => modify (set_devices devices')
  | None => raise ValueError_not_in_list
  end.

Definition pool_append (camera : HubCamera) : M unit :=
  emit (PoolAppend camera) ;;
  modify (fun s => set_hub_cameras (_hub_cameras s ++ [camera]) s).

Definition pool_remove (camera : HubCamera) : M unit :=
  cameras <- gets _hub_cameras ;;
  match list_remove HubCamera_eq_dec camera cameras with
  | Some cameras' => emit (PoolRemove camera) ;; modify (set_hub_cameras cameras')
  | None => raise ValueError_not_in_list
  end.

(** [HubCamera(device_mxid=...)]: a new object. *)
Definition new_HubCamera (id : string) : M HubCamera :=
  n <- gets next_obj ;;
  modify (set_next_obj (S n)) ;;
  let hub_camera := {| camera_obj := n; device_mxid := id |} in
  emit (NewHubCamera hub_camera) ;;
  ret hub_camera.

Definition _get_device_by_mxid (id : string) : M (option Device) :=
  devices <- gets _devices ;;
  ret (find (fun device => String.eqb (mxid device) id) devices).

Definition disconnected_text (camera : HubCamera) : string :=
  "Device " ++ device_mxid camera ++ ": disconnected.".

Definition _disconnect_camera (camera : HubCamera) : M unit :=
  emit (Log INFO (disconnected_text camera)) ;;
  call (CallCameraStop camera) (cam_stop w camera) ;;
  pool_remove camera ;;
  device <- _get_device_by_mxid (device_mxid camera) ;;
  match device with
  | Some device =>
      call (CallDisconnectCallback device) (dev_disconnect_callback w device)
  | None => ret tt
  end.

Definition _connect_device (device : Device) : M unit :=
  hub_camera <- new_HubCamera (mxid device) ;;
  started <- call (CallDeviceStart device hub_camera) (dev_start w device hub_camera) ;;
  if negb started then
    call (CallCameraStop hub_camera) (cam_stop w hub_camera)
  else
    call (CallCameraStart hub_camera) (cam_start w hub_camera) ;;
    call (CallConnectCallback device hub_camera)
         (dev_connect_callback w device hub_camera) ;;
    pool_append hub_camera.

(** [while self.running: body]. *)
Fixpoint while_running (fuel : nat) (body : M unit) : M unit :=
  match fuel with
  | O => hang
  | S fuel' =>
      go <- gets running ;;
      if go then body ;; while_running fuel' body else ret tt
  end.

(** One pass of the loop of [_report], without the wait: the [try] block,
    then the whole statement. *)
Definition report_body (camera : HubCamera) : M unit :=
  device_info <- call (CallInfoReport camera) (cam_info_report w camera) ;;
  device_stats <- call (CallStatsReport camera) (cam_stats_report w camera) ;;
  call (CallPublishDeviceInfo device_info) (agent_publish_device_info w device_info) ;;
  call (CallPublishDeviceStats device_stats) (agent_publish_device_stats w device_stats).

Definition report_failure_text (camera : HubCamera) (e : PyExn) : string :=
  "Device " ++ device_mxid camera
  ++ ": could not report info/stats with error: " ++ str e ++ ".".

Definition report_camera (camera : HubCamera) : M unit :=
  try_except (report_body camera) except_Exception
    (fun e => emit (Log DEBUG (report_failure_text camera e))).

Definition report_cycle : M unit := for_in _hub_cameras report_camera.

Definition _report (fuel : nat) : M unit :=
  while_running fuel
    (report_cycle ;;
     stop_event_wait REPORT_FREQUENCY ;; ret tt).

(** One pass of the loop of [_poll], without the wait. *)
Definition poll_camera (camera : HubCamera) : M unit :=
  alive <- call (CallPoll camera) (cam_poll w camera) ;;
  if negb alive then _disconnect_camera camera else ret tt.

Definition poll_cycle : M unit := for_in _hub_cameras poll_camera.

Definition _poll (fuel : nat) : M unit :=
  while_running fuel
    (poll_cycle ;;
     stop_event_wait POLL_FREQUENCY ;; ret tt).

(** The body of the scan of [_connect] for one device; [mxids] was computed
    before the scan. *)
Definition connect_if_missing (mxids : list string) (device : Device) : M unit :=
  if negb (existsb (String.eqb (mxid device)) mxids) then
    modify (set_connecting_to_device true) ;;
    _connect_device device ;;
    modify (set_connecting_to_device false)
  else ret tt.

(** One pass of the loop of [_connect]. *)
Definition connect_cycle : M unit :=
  cameras <- gets _hub_cameras ;;
  devices <- gets _devices ;;
  busy <- gets connecting_to_device ;;
  if Nat.eqb (List.length cameras) (List.length devices) || busy then
    stop_event_wait (seconds 5) ;; ret tt
  else
    let mxids := map device_mxid cameras in
    for_in _devices (connect_if_missing mxids).

Definition _connect (fuel : nat) : M unit := while_running fuel connect_cycle.

(** [start]: the wait for a first device, then the three threads. *)
Fixpoint start_gate (fuel : nat) : M unit :=
  match fuel with
  | O => hang
  | S fuel' =>
      go <- gets running ;;
      if go then
        devices <- gets _devices ;;
        match devices with
        | _ :: _ => ret tt
        | [] => stop_event_wait (seconds 5) ;; start_gate fuel'
        end
      else ret tt
  end.

(** [thread.start()], as [threading.Thread.start]: RuntimeError on a thread
    that was started before. *)
Definition thread_start (t : ThreadName) : M unit :=
  status <- gets (thread_status t) ;;
  match status with
  | Created => emit (ThreadStart t) ;; modify (set_thread t Alive)
  | _ => raise RuntimeError_started_twice
  end.

Definition start (fuel : nat) : M unit :=
  modify (set_running true) ;;
  start_gate fuel ;;
  thread_start ConnectionThread ;;
  emit (Log INFO "Device connection thread: started successfully.") ;;
  thread_start ReportingThread ;;
  emit (Log INFO "Reporting thread: started successfully.") ;;
  thread_start PollingThread ;;
  emit (Log INFO "Polling thread: started successfully.").

Definition thread_target (t : ThreadName) (fuel : nat) : M unit :=
  match t with
  | ConnectionThread => _connect fuel
  | ReportingThread => _report fuel
  | PollingThread => _poll fuel
  end.

(** [thread.join()], as [threading.Thread.join]: the caller waits until the
    thread has left its target; an exception that ended the thread stays in
    the thread.  The thread's run from the join on is the run of its
    target.  When the caller is interrupted while it waits, [join] raises
    in the caller and the thread goes on beside it: what the thread does
    from then on is no part of the caller's run. *)
Definition thread_join (t : ThreadName) (fuel : nat) : M unit := fun s =>
  match thread_join_raises w t with
  | Some e => mkRun (Raise e) s [ThreadJoin t]
  | None =>
      let r := thread_target t fuel s in
      match out r with
      | Hang => mkRun Hang (st r) (ThreadJoin t :: evs r)
      | _ => mkRun (Ok tt) (set_thread t Finished (st r)) (ThreadJoin t :: evs r)
      end
  end.

Definition __graceful_thread_join (t : ThreadName) (fuel : nat) : M unit :=
  try_except
    (status <- gets (thread_status t) ;;
     match status with
     | Alive => thread_join t fuel
     | _ => ret tt
     end)
    except_BaseException
    (fun e => emit (Log ERROR (thread_getName t ++ ": join excepted with: " ++ str e ++ "."))).

(** The exceptions [stop] raises in the place of the ones it catches. *)
Definition exit_failure (camera : HubCamera) (e : PyExn) : PyExn :=
  raised_from Exception
    ("Device " ++ device_mxid camera ++ ": could not exit with exception: " ++ str e ++ ".") e.

Definition destroy_failure (e : PyExn) : PyExn :=
  raised_from Exception ("Destroy all streams excepted with: " ++ str e ++ ".") e.

(** The body of the loop over the cameras.  The exit is called with stdout
    redirected to [os.devnull], which has no part in how the call ends. *)
Definition exit_camera (camera : HubCamera) : M unit :=
  try_except
    (if negb (DeviceState_eqb (cam_state w camera) DISCONNECTED)
     then call (CallExit camera) (cam_exit w camera)
     else ret tt)
    except_BaseException
    (fun e => raise (exit_failure camera e)).

(** The part of [stop] after the joins: the streams, then the cameras. *)
Definition teardown : M unit :=
  try_except
    (call CallDestroyAllStreams (streams_destroy_all_streams w))
    except_BaseException
    (fun e => raise (destroy_failure e)) ;;
  for_in _hub_cameras exit_camera ;;
  emit (Log INFO "App: stopped successfully.").

Definition stop (fuel : nat) : M unit :=
  emit (Log DEBUG "Threads: gracefully stopping...") ;;
  emit SetStopEvent ;;
  modify (set_stop_event true) ;;
  __graceful_thread_join ConnectionThread fuel ;;
  __graceful_thread_join ReportingThread fuel ;;
  __graceful_thread_join PollingThread fuel ;;
  teardown.

End Manager.

(** ** Notions the statements use *)

(** An outcome [except Exception] recovers from: a return, or an exception
    that is an instance of [Exception]. *)
Definition catchable {A} (r : res A) : Prop :=
  match r with
  | Ok _ => True
  | Raise e => isinstance_Exception e = true
  | Hang => False
  end.

(** A method keeps an attribute when it leaves it as it found it, however
    the method ends. *)
Definition keeps {A B} (f : DeviceManager -> B) (m : M A) : Prop :=
  forall s, f (st (m s)) = f s.

(** A method returns when it never raises and never hangs. *)
Definition returns {A} (m : M A) : Prop :=
  forall s, exists a, out (m s) = Ok a.

(** *** One pass of the polling loop, camera by camera

    [camera.poll()] returned [False]. *)
Definition poll_fails (w : World) (c : HubCamera) : bool :=
  match cam_poll w c with
  | Ok false => true
  | _ => false
  end.

(** The cameras a pass over the pool [l] polls: when a camera is evicted
    the list closes up under the iterator, whose next index is then one
    past the camera that followed. *)
Fixpoint visited (w : World) (l : list HubCamera) : list HubCamera :=
  match l with
  | [] => []
  | c :: l' =>
      c :: (if poll_fails w c
            then match l' with
                 | [] => []
                 | _ :: l'' => visited w l''
                 end
            else visited w l')
  end.

(** The pool the pass leaves. *)
Fixpoint survivors (w : World) (l : list HubCamera) : list HubCamera :=
  match l with
  | [] => []
  | c :: l' =>
      if poll_fails w c
      then match l' with
           | [] => []
           | c' :: l'' => c' :: survivors w l''
           end
      else c :: survivors w l'
  end.

(** What the pass does for one camera it polls. *)
Definition poll_trace (w : World) (devices : list Device) (c : HubCamera) : list Event :=
  CallPoll c ::
  (if poll_fails w c
   then [Log INFO (disconnected_text c); CallCameraStop c; PoolRemove c]
        ++ match find (fun device => String.eqb (mxid device) (device_mxid c)) devices with
           | Some d => [CallDisconnectCallback d]
           | None => []
           end
   else [])%list.

Definition count_events (p : Event -> bool) (l : list Event) : nat :=
  List.length (filter p l).

Definition is_poll (h : HubCamera) (ev : Event) : bool :=
  match ev with
  | CallPoll h' => if HubCamera_eq_dec h h' then true else false
  | _ => false
  end.

Definition is_camera_stop (h : HubCamera) (ev : Event) : bool :=
  match ev with
  | CallCameraStop h' => if HubCamera_eq_dec h h' then true else false
  | _ => false
  end.

Definition is_pool_remove (h : HubCamera) (ev : Event) : bool :=
  match ev with
  | PoolRemove h' => if HubCamera_eq_dec h h' then true else false
  | _ => false
  end.

Definition is_disconnect_callback (d : Device) (ev : Event) : bool :=
  match ev with
  | CallDisconnectCallback d' => if Device_eq_dec d d' then true else false
  | _ => false
  end.

(** A start routine that raises ends the run with that exception and
    with [connecting_to_device] still set. *)
Definition start_raise_is_fatal (w : World) {A} (r : Run A) : Prop :=
  forall d h e,
    In (CallDeviceStart d h) (evs r) -> dev_start w d h = Raise e ->
    out r = Raise e /\ connecting_to_device (st r) = true.

(** The state a wait that was not cut short leaves. *)
Definition after_wait (w : World) (t : Z) (s : DeviceManager) : DeviceManager :=
  set_devices (_devices s ++ arrivals w (clock s) (clock s + t)%Z)
    (set_clock (clock s + t)%Z s).

(** The state [start] leaves when its wait ended in state [s]. *)
Definition launched (s : DeviceManager) : DeviceManager :=
  set_thread PollingThread Alive
    (set_thread ReportingThread Alive (set_thread ConnectionThread Alive s)).

(** What [start] does once it is through its wait. *)
Definition launch_events : list Event :=
  [ThreadStart ConnectionThread;
   Log INFO "Device connection thread: started successfully.";
   ThreadStart ReportingThread;
   Log INFO "Reporting thread: started successfully.";
   ThreadStart PollingThread;
   Log INFO "Polling thread: started successfully."].

Definition no_thread_alive (s : DeviceManager) : Prop :=
  connection_thread s <> Alive /\ reporting_thread s <> Alive
  /\ polling_thread s <> Alive.

(** ** Worlds and states the statements are tried on *)

(** A world in which every collaborator does its work and nobody else
    touches the registry. *)
Definition calm_world : World := {|
  dev_start := fun _ _ => Ok true;
  dev_connect_callback := fun _ _ => Ok tt;
  dev_disconnect_callback := fun _ => Ok tt;
  cam_start := fun _ => Ok tt;
  cam_stop := fun _ => Ok tt;
  cam_poll := fun _ => Ok true;
  cam_state := fun _ => CONNECTED;
  cam_exit := fun _ => Ok tt;
  cam_info_report := fun h => Ok ("info " ++ device_mxid h);
  cam_stats_report := fun h => Ok ("stats " ++ device_mxid h);
  agent_publish_device_info := fun _ => Ok tt;
  agent_publish_device_stats := fun _ => Ok tt;
  streams_destroy_all_streams := Ok tt;
  thread_join_raises := fun _ => None;
  concurrent_adds := []
|}.

Definition with_dev_start (f : Device -> HubCamera -> res bool) (w : World) : World :=
  {| dev_start := f;
     dev_connect_callback := dev_connect_callback w;
     dev_disconnect_callback := dev_disconnect_callback w;
     cam_start := cam_start w; cam_stop := cam_stop w; cam_poll := cam_poll w;
     cam_state := cam_state w; cam_exit := cam_exit w;
     cam_info_report := cam_info_report w; cam_stats_report := cam_stats_report w;
     agent_publish_device_info := agent_publish_device_info w;
     agent_publish_device_stats := agent_publish_device_stats w;
     streams_destroy_all_streams := streams_destroy_all_streams w;
     thread_join_raises := thread_join_raises w;
     concurrent_adds := concurrent_adds w |}.

Definition with_cam_poll (f : HubCamera -> res bool) (w : World) : World :=
  {| dev_start := dev_start w;
     dev_connect_callback := dev_connect_callback w;
     dev_disconnect_callback := dev_disconnect_callback w;
     cam_start := cam_start w; cam_stop := cam_stop w; cam_poll := f;
     cam_state := cam_state w; cam_exit := cam_exit w;
     cam_info_report := cam_info_report w; cam_stats_report := cam_stats_report w;
     agent_publish_device_info := agent_publish_device_info w;
     agent_publish_device_stats := agent_publish_device_stats w;
     streams_destroy_all_streams := streams_destroy_all_streams w;
     thread_join_raises := thread_join_raises w;
     concurrent_adds := concurrent_adds w |}.

Definition with_cam_info_report (f : HubCamera -> res Report) (w : World) : World :=
  {| dev_start := dev_start w;
     dev_connect_callback := dev_connect_callback w;
     dev_disconnect_callback := dev_disconnect_callback w;
     cam_start := cam_start w; cam_stop := cam_stop w; cam_poll := cam_poll w;
     cam_state := cam_state w; cam_exit := cam_exit w;
     cam_info_report := f; cam_stats_report := cam_stats_report w;
     agent_publish_device_info := agent_publish_device_info w;
     agent_publish_device_stats := agent_publish_device_stats w;
     streams_destroy_all_streams := streams_destroy_all_streams w;
     thread_join_raises := thread_join_raises w;
     concurrent_adds := concurrent_adds w |}.

Definition with_cam_exit (f : HubCamera -> res unit) (w : World) : World :=
  {| dev_start := dev_start w;
     dev_connect_callback := dev_connect_callback w;
     dev_disconnect_callback := dev_disconnect_callback w;
     cam_start := cam_start w; cam_stop := cam_stop w; cam_poll := cam_poll w;
     cam_state := cam_state w; cam_exit := f;
     cam_info_report := cam_info_report w; cam_stats_report := cam_stats_report w;
     agent_publish_device_info := agent_publish_device_info w;
     agent_publish_device_stats := agent_publish_device_stats w;
     streams_destroy_all_streams := streams_destroy_all_streams w;
     thread_join_raises := thread_join_raises w;
     concurrent_adds := concurrent_adds w |}.

Definition with_concurrent_adds (l : list (Z * Device)) (w : World) : World :=
  {| dev_start := dev_start w;
     dev_connect_callback := dev_connect_callback w;
     dev_disconnect_callback := dev_disconnect_callback w;
     cam_start := cam_start w; cam_stop := cam_stop w; cam_poll := cam_poll w;
     cam_state := cam_state w; cam_exit := cam_exit w;
     cam_info_report := cam_info_report w; cam_stats_report := cam_stats_report w;
     agent_publish_device_info := agent_publish_device_info w;
     agent_publish_device_stats := agent_publish_device_stats w;
     streams_destroy_all_streams := streams_destroy_all_streams w;
     thread_join_raises := thread_join_raises w;
     concurrent_adds := l |}.

Definition device_A : Device := {| device_obj := 0; mxid := "A" |}.
Definition device_B : Device := {| device_obj := 1; mxid := "B" |}.
Definition camera_A : HubCamera := {| camera_obj := 0; device_mxid := "A" |}.
Definition camera_B : HubCamera := {| camera_obj := 1; device_mxid := "B" |}.

(** The manager after [add_device(A)], [add_device(B)], [start()] and the
    first scan of the connection thread, in the calm world. *)
Definition two_cameras_running : DeviceManager :=
  mkManager [device_A; device_B] [camera_A; camera_B]
    true false false Alive Alive Alive 2 0%Z.

(** The same pool with the three threads gone (each ended by an exception
    of a collaborator). *)
Definition two_cameras_threads_ended : DeviceManager :=
  set_thread ConnectionThread Finished
    (set_thread ReportingThread Finished
       (set_thread PollingThread Finished two_cameras_running)).

(** The exit of camera B raises. *)
Definition exit_of_B_fails : World :=
  with_cam_exit
    (fun h => if String.eqb (device_mxid h) "B"
              then Raise (mkExn RuntimeError "X_LINK_DEVICE_NOT_FOUND" [])
              else Ok tt)
    calm_world.

(** The info report of camera A raises; camera B is reported all the same. *)
Definition info_of_A_fails : World :=
  with_cam_info_report
    (fun h => if String.eqb (device_mxid h) "A"
              then Raise (mkExn RuntimeError "X_LINK_ERROR" [])
              else Ok ("info " ++ device_mxid h))
    calm_world.

(** The start routine of device A raises. *)
Definition start_of_A_raises : World :=
  with_dev_start
    (fun d _ => if String.eqb (mxid d) "A"
                then Raise (mkExn RuntimeError "Failed to find device" [])
                else Ok true)
    calm_world.

(** The manager after [add_device(A)] and [start()]. *)
Definition one_device_started : DeviceManager :=
  mkManager [device_A] [] true false false Alive Alive Alive 0 0%Z.

(** Another thread calls [add_device(A)] 12 s after the manager was made. *)
Definition A_added_after_12s : World :=
  with_concurrent_adds [(seconds 12, device_A)] calm_world.

(** The poll of camera A reports failure. *)
Definition poll_of_A_fails : World :=
  with_cam_poll (fun h => Ok (negb (String.eqb (device_mxid h) "A"))) calm_world.

(** ** The threads, one step at a time

    The callers of [add_device] and [remove_device], the connection thread
    and the polling thread run side by side, and no lock guards the two
    lists.  A step holds at most one access to the registry or the pool
    that another thread's step could get in the way of: a call of
    [add_device], [remove_device] or [start]; in [_connect] the reading of
    [len(self._hub_cameras)], the comparison with [len(self._devices)] and
    the wait, the reading of one camera by the comprehension that takes the
    [mxids], and one turn of the [for] loop over the registry; in [_poll]
    one turn of the [for] loop over the pool, and the wait.  In a turn of
    a [for] loop the iterator reads one element, the collaborators are
    called, and the list is changed by at most one [append] or [remove];
    the turn is taken as one step, at the time of that list operation (what
    the other threads append meanwhile leaves the element read in its
    place, and the pool loses cameras by the polling thread only).  Each
    thread keeps where it is: [scan] is the place of the connection thread
    in a pass of its loop, [sweep] the index of the polling thread's
    iterator.  The [add_device] calls of other threads are steps of their
    own here, so the worlds of the steps schedule none. *)

Definition quiet (w : World) : World := with_concurrent_adds [] w.

(** Where the connection thread is in a pass of its loop. *)
Inductive ConnectionPhase :=
| AtLoopHead                                    (* at [while self.running] *)
| PoolCounted (n : nat)                         (* [len(self._hub_cameras)] is [n] *)
| TakingMxids (mxids : list string) (j : nat)   (* in the comprehension, at index [j] *)
| InScan (mxids : list string) (i : nat).       (* in the [for] loop, at index [i] *)

Record System := mkSystem {
  manager : DeviceManager;
  scan : ConnectionPhase;
  sweep : option nat
}.

Definition initial_system : System := mkSystem DEVICE_MANAGER AtLoopHead None.

Inductive Action :=
| AddDevice (d : Device)
| RemoveDevice (d : Device)
| Start (w : World)
| ConnectStep (w : World)
| PollStep (w : World).

(** [start] set [running] and either found the registry empty, and keeps
    waiting, or went on to start the threads. *)
Definition start_step (w : World) (sys : System) : System :=
  let m := manager sys in
  match _devices m with
  | [] => mkSystem (set_running true m) (scan sys) (sweep sys)
  | _ :: _ => mkSystem (st (start (quiet w) 1 m)) (scan sys) (sweep sys)
  end.

(** The connection thread.  At the head of its [while] loop it takes the
    length of the pool; then it compares it with the length of the registry
    and waits, or enters the comprehension; in the comprehension it reads
    the camera at the index of the list iterator, in the pool as it is now,
    or finds the end and enters the [for] loop; in the [for] loop it takes
    one turn.  An exception (or a call that never returns) ends the
    thread's steps. *)
Definition connect_step (w : World) (sys : System) : System :=
  let m := manager sys in
  match connection_thread m, running m with
  | Alive, true =>
      match scan sys with
      | AtLoopHead =>
          mkSystem m (PoolCounted (List.length (_hub_cameras m))) (sweep sys)
      | PoolCounted n =>
          if Nat.eqb n (List.length (_devices m)) || connecting_to_device m
          then mkSystem (st (stop_event_wait (quiet w) (seconds 5) m)) AtLoopHead
                 (sweep sys)
          else mkSystem m (TakingMxids [] 0) (sweep sys)
      | TakingMxids mxids j =>
          match nth_error (_hub_cameras m) j with
          | Some camera =>
              mkSystem m (TakingMxids (mxids ++ [device_mxid camera])%list (S j))
                (sweep sys)
          | None => mkSystem m (InScan mxids 0) (sweep sys)
          end
      | InScan mxids i =>
          let r := for_step _devices (connect_if_missing (quiet w) mxids) i m in
          match out r with
          | Ok (Some j) => mkSystem (st r) (InScan mxids j) (sweep sys)
          | Ok None => mkSystem (st r) AtLoopHead (sweep sys)
          | _ => mkSystem (set_thread ConnectionThread Finished (st r)) AtLoopHead
                   (sweep sys)
          end
      end
  | _, _ => sys
  end.

(** The polling thread: it enters its [for] loop, takes one turn of it, or
    leaves it and waits. *)
Definition poll_step (w : World) (sys : System) : System :=
  let m := manager sys in
  match polling_thread m, running m with
  | Alive, true =>
      match sweep sys with
      | None => mkSystem m (scan sys) (Some 0)
      | Some i =>
          let r := for_step _hub_cameras (poll_camera (quiet w)) i m in
          match out r with
          | Ok (Some j) => mkSystem (st r) (scan sys) (Some j)
          | Ok None =>
              mkSystem (st (stop_event_wait (quiet w) POLL_FREQUENCY (st r))) (scan sys) None
          | _ => mkSystem (set_thread PollingThread Finished (st r)) (scan sys) None
          end
      end
  | _, _ => sys
  end.

Definition exec (a : Action) (sys : System) : System :=
  match a with
  | AddDevice d => mkSystem (st (add_device d (manager sys))) (scan sys) (sweep sys)
  | RemoveDevice d => mkSystem (st (remove_device d (manager sys))) (scan sys) (sweep sys)
  | Start w => start_step w sys
  | ConnectStep w => connect_step w sys
  | PollStep w => poll_step w sys
  end.

Definition run (actions : list Action) (sys : System) : System :=
  fold_left (fun sys a => exec a sys) actions sys.

(** The states the system gets to by steps that [allowed] lets through. *)
Inductive reachable (allowed : System -> Action -> Prop) : System -> Prop :=
| reachable_initial : reachable allowed initial_system
| reachable_step sys a :
    reachable allowed sys -> allowed sys a -> reachable allowed (exec a sys).

Definition any_step : System -> Action -> Prop := fun _ _ => True.


(** While the connection thread is inside the comprehension that takes the
    [mxids] of the pool, the step takes no camera out of the pool. *)
Definition no_eviction_while_reading (sys : System) (a : Action) : Prop :=
  match scan sys with
  | TakingMxids _ _ => _hub_cameras (manager (exec a sys)) = _hub_cameras (manager sys)
  | _ => True
  end.




(** *** What every step keeps

    The mxids of the registry are distinct, those of the pool are distinct
    and among the registry's, and while a scan is under way every camera in
    the pool was there when [mxids] was computed or belongs to a device the
    scan has passed. *)
Definition lists_invariant (devices : list Device) (pool : list HubCamera)
    (sc : option (list string * nat)) : Prop :=
  NoDup (map mxid devices)
  /\ NoDup (map device_mxid pool)
  /\ incl (map device_mxid pool) (map mxid devices)
  /\ match sc with
     | None => True
     | Some (mxids, i) =>
         forall x, In x (map device_mxid pool) ->
                   In x mxids \/ In x (map mxid (firstn i devices))
     end.





(** A device is added twice and then connected. *)
Definition add_twice : list Action :=
  ([AddDevice device_A; AddDevice device_A; Start calm_world]
   ++ repeat (ConnectStep calm_world) 6)%list.



(** Every camera in the pool was made by [HubCamera(...)], which gives each
    object an identity of its own: the identities in the pool are distinct
    and below the next free one. *)
Definition objects_invariant (m : DeviceManager) : Prop :=
  NoDup (map camera_obj (_hub_cameras m))
  /\ forall c, In c (_hub_cameras m) -> camera_obj c < next_obj m.

(** ** Further notions *)

(** Every event of a method satisfies [P], however the method ends. *)
Definition emits (P : Event -> Prop) {A} (m : M A) : Prop :=
  forall s, Forall P (evs (m s)).

(** A method takes the manager from a state to a state that [R] relates to
    it, however the method ends. *)
Definition moves (R : DeviceManager -> DeviceManager -> Prop) {A} (m : M A) : Prop :=
  forall s, R s (st (m s)).



(** The registry lost no device, and got at its end only devices that other
    threads added. *)
Definition registry_grows (w : World) (s s' : DeviceManager) : Prop :=
  exists l, _devices s' = (_devices s ++ l)%list
            /\ incl l (map snd (concurrent_adds w)).

(** The calls of the reporting loop. *)
Definition report_event (ev : Event) : Prop :=
  match ev with
  | CallInfoReport _ | CallStatsReport _
  | CallPublishDeviceInfo _ | CallPublishDeviceStats _
  | Log DEBUG _ | Wait _ => True
  | _ => False
  end.

(** The calls of the polling loop. *)
Definition poll_event (ev : Event) : Prop :=
  match ev with
  | CallPoll _ | CallCameraStop _ | PoolRemove _
  | CallDisconnectCallback _ | Log INFO _ | Wait _ => True
  | _ => False
  end.

(** The calls of the connection loop. *)
Definition connect_event (ev : Event) : Prop :=
  match ev with
  | NewHubCamera _ | CallDeviceStart _ _ | CallCameraStop _ | CallCameraStart _
  | CallConnectCallback _ _ | PoolAppend _ | Wait _ => True
  | _ => False
  end.

(** *** One scan of the connection loop, device by device

    The device has no camera among [mxids]. *)
Definition missing (mxids : list string) (d : Device) : bool :=
  negb (existsb (String.eqb (mxid d)) mxids).

(** [device._start(hub_camera)] returned [True]. *)
Definition start_succeeds (w : World) (d : Device) (h : HubCamera) : bool :=
  match dev_start w d h with
  | Ok true => true
  | _ => false
  end.

(** What a connection attempt does when every call of it returns. *)
Definition attempt_trace (w : World) (d : Device) (h : HubCamera) : list Event :=
  ([NewHubCamera h; CallDeviceStart d h]
   ++ if start_succeeds w d h
      then [CallCameraStart h; CallConnectCallback d h; PoolAppend h]
      else [CallCameraStop h])%list.

(** The cameras a scan over the devices [ds] appends to the pool, the
    first camera it makes having identity [n]; the trace of the scan; and
    the number of cameras it makes. *)
Fixpoint scan_cameras (w : World) (mxids : list string) (n : nat) (ds : list Device)
    : list HubCamera :=
  match ds with
  | [] => []
  | d :: ds' =>
      if missing mxids d
      then let h := {| camera_obj := n; device_mxid := mxid d |} in
           ((if start_succeeds w d h then [h] else [])
            ++ scan_cameras w mxids (S n) ds')%list
      else scan_cameras w mxids n ds'
  end.

Fixpoint scan_trace (w : World) (mxids : list string) (n : nat) (ds : list Device)
    : list Event :=
  match ds with
  | [] => []
  | d :: ds' =>
      if missing mxids d
      then (attempt_trace w d {| camera_obj := n; device_mxid := mxid d |}
            ++ scan_trace w mxids (S n) ds')%list
      else scan_trace w mxids n ds'
  end.

Definition attempts (mxids : list string) (ds : list Device) : nat :=
  List.length (filter (missing mxids) ds).

Definition is_wait (ev : Event) : bool :=
  match ev with
  | Wait _ => true
  | _ => false
  end.

Definition is_new_camera (ev : Event) : bool :=
  match ev with
  | NewHubCamera _ => true
  | _ => false
  end.

(** *** More worlds and states *)

Definition with_cam_stop (f : HubCamera -> res unit) (w : World) : World :=
  {| dev_start := dev_start w;
     dev_connect_callback := dev_connect_callback w;
     dev_disconnect_callback := dev_disconnect_callback w;
     cam_start := cam_start w; cam_stop := f; cam_poll := cam_poll w;
     cam_state := cam_state w; cam_exit := cam_exit w;
     cam_info_report := cam_info_report w; cam_stats_report := cam_stats_report w;
     agent_publish_device_info := agent_publish_device_info w;
     agent_publish_device_stats := agent_publish_device_stats w;
     streams_destroy_all_streams := streams_destroy_all_streams w;
     thread_join_raises := thread_join_raises w;
     concurrent_adds := concurrent_adds w |}.

Definition with_dev_connect_callback (f : Device -> HubCamera -> res unit) (w : World)
    : World :=
  {| dev_start := dev_start w;
     dev_connect_callback := f;
     dev_disconnect_callback := dev_disconnect_callback w;
     cam_start := cam_start w; cam_stop := cam_stop w; cam_poll := cam_poll w;
     cam_state := cam_state w; cam_exit := cam_exit w;
     cam_info_report := cam_info_report w; cam_stats_report := cam_stats_report w;
     agent_publish_device_info := agent_publish_device_info w;
     agent_publish_device_stats := agent_publish_device_stats w;
     streams_destroy_all_streams := streams_destroy_all_streams w;
     thread_join_raises := thread_join_raises w;
     concurrent_adds := concurrent_adds w |}.

(** The poll of camera A reports failure and its stop raises. *)
Definition stop_of_A_raises : World :=
  with_cam_stop
    (fun h => if String.eqb (device_mxid h) "A"
              then Raise (mkExn RuntimeError "X_LINK_ERROR" [])
              else Ok tt)
    poll_of_A_fails.

(** The info report of camera A is interrupted. *)
Definition info_of_A_interrupted : World :=
  with_cam_info_report
    (fun h => if String.eqb (device_mxid h) "A"
              then Raise (mkExn KeyboardInterrupt EmptyString [])
              else Ok ("info " ++ device_mxid h))
    calm_world.

(** The connect callback of device A raises. *)
Definition connect_callback_of_A_raises : World :=
  with_dev_connect_callback
    (fun d _ => if String.eqb (mxid d) "A"
                then Raise (mkExn ValueError "no such stream" [])
                else Ok tt)
    calm_world.

(** The start routine of every device returns failure. *)
Definition every_start_fails : World :=
  with_dev_start (fun _ _ => Ok false) calm_world.

(** The manager after A was connected and removed and B was added: one
    device, one camera, of different mxids. *)
Definition B_registered_A_connected : DeviceManager :=
  mkManager [device_B] [camera_A] true false false Alive Alive Alive 1 0%Z.

(** The manager after the camera of A was evicted. *)
Definition A_evicted : DeviceManager :=
  mkManager [device_A; device_B] [camera_B] true false false Alive Alive Alive 2 0%Z.

(** The stop event was set: it stays set and the thread has not slept. *)
Definition no_sleep (s s' : DeviceManager) : Prop :=
  stop_event s = true -> stop_event s' = true /\ clock s' = clock s.

(** The cameras [stop] exits: those whose state is not DISCONNECTED. *)
Definition open_cameras (w : World) (l : list HubCamera) : list HubCamera :=
  filter (fun camera => negb (DeviceState_eqb (cam_state w camera) DISCONNECTED)) l.

Definition with_thread_join_raises (f : ThreadName -> option PyExn) (w : World)
    : World :=
  {| dev_start := dev_start w;
     dev_connect_callback := dev_connect_callback w;
     dev_disconnect_callback := dev_disconnect_callback w;
     cam_start := cam_start w; cam_stop := cam_stop w; cam_poll := cam_poll w;
     cam_state := cam_state w; cam_exit := cam_exit w;
     cam_info_report := cam_info_report w; cam_stats_report := cam_stats_report w;
     agent_publish_device_info := agent_publish_device_info w;
     agent_publish_device_stats := agent_publish_device_stats w;
     streams_destroy_all_streams := streams_destroy_all_streams w;
     thread_join_raises := f;
     concurrent_adds := concurrent_adds w |}.

Definition with_streams_destroy_all_streams (r : res unit) (w : World) : World :=
  {| dev_start := dev_start w;
     dev_connect_callback := dev_connect_callback w;
     dev_disconnect_callback := dev_disconnect_callback w;
     cam_start := cam_start w; cam_stop := cam_stop w; cam_poll := cam_poll w;
     cam_state := cam_state w; cam_exit := cam_exit w;
     cam_info_report := cam_info_report w; cam_stats_report := cam_stats_report w;
     agent_publish_device_info := agent_publish_device_info w;
     agent_publish_device_stats := agent_publish_device_stats w;
     streams_destroy_all_streams := r;
     thread_join_raises := thread_join_raises w;
     concurrent_adds := concurrent_adds w |}.

(** The caller of [stop] is interrupted while it waits for the connection
    thread. *)
Definition join_of_connection_interrupted : World :=
  with_thread_join_raises
    (fun t => match t with
              | ConnectionThread => Some (mkExn KeyboardInterrupt "interrupted" [])
              | _ => None
              end)
    calm_world.

(** The poll of camera B raises. *)
Definition poll_of_B_raises : World :=
  with_cam_poll
    (fun h => if String.eqb (device_mxid h) "B"
              then Raise (mkExn RuntimeError "X_LINK_ERROR" [])
              else Ok true)
    calm_world.

(** The exit of camera A raises. *)
Definition exit_of_A_fails : World :=
  with_cam_exit
    (fun h => if String.eqb (device_mxid h) "A"
              then Raise (mkExn RuntimeError "X_LINK_DEVICE_NOT_FOUND" [])
              else Ok tt)
    calm_world.

(** Every call of a connection attempt for the device [d] with the new
    camera [h] returns. *)
Definition attempt_returns (w : World) (d : Device) (h : HubCamera) : Prop :=
  match dev_start w d h with
  | Ok true => cam_start w h = Ok tt /\ dev_connect_callback w d h = Ok tt
  | Ok false => cam_stop w h = Ok tt
  | _ => False
  end.

(** [stop] up to its teardown: the signal and the three joins. *)
Definition stop_joins (w : World) (fuel : nat) : M unit :=
  emit (Log DEBUG "Threads: gracefully stopping...") ;;
  emit SetStopEvent ;;
  modify (set_stop_event true) ;;
  __graceful_thread_join w ConnectionThread fuel ;;
  __graceful_thread_join w ReportingThread fuel ;;
  __graceful_thread_join w PollingThread fuel.

(** What [stop] does before its teardown: anything but the calls of the
    teardown. *)
Definition before_teardown (ev : Event) : Prop :=
  match ev with
  | CallDestroyAllStreams | CallExit _ => False
  | _ => True
  end.

(** [e'] is a new [Exception] with the text [text], raised while [e] was
    being handled: [e] is the head of its context. *)
Definition wraps (e' : PyExn) (text : string) (e : PyExn) : Prop :=
  exn_class e' = Exception /\ str e' = text
  /\ exn_context e' = ((exn_class e, str e) :: exn_context e)%list.

(** The two cameras with the polling thread still alive, the other two
    threads gone. *)
Definition only_polling_alive : DeviceManager :=
  mkManager [device_A; device_B] [camera_A; camera_B]
    true false false Finished Alive Finished 2 0%Z.

(** The poll of camera B raises, and so does its exit. *)
Definition poll_and_exit_of_B_raise : World :=
  with_cam_exit
    (fun h => if String.eqb (device_mxid h) "B"
              then Raise (mkExn RuntimeError "X_LINK_DEVICE_NOT_FOUND" [])
              else Ok tt)
    poll_of_B_raises.

(** The poll of camera B raises, and so does the teardown of the streams. *)
Definition poll_of_B_and_destroy_raise : World :=
  with_streams_destroy_all_streams
    (Raise (mkExn RuntimeError "stream in use" []))
    poll_of_B_raises.

Local Close Scope string_scope.
Local Open Scope list_scope.

Example two_cameras_running_reached :
  st (connect_cycle calm_world
        (st (start calm_world 1
               (st (add_device device_B (st (add_device device_A DEVICE_MANAGER)))))))
  = two_cameras_running.
Proof. vm_compute. reflexivity. Qed.

Example one_device_started_reached :
  st (start calm_world 1 (st (add_device device_A DEVICE_MANAGER))) = one_device_started.
Proof. vm_compute. reflexivity. Qed.

(** ** [remove_device] and [list.remove] *)

Lemma list_remove_None {A} (eq_dec : forall a b : A, {a = b} + {a <> b}) x l :
  list_remove eq_dec x l = None <-> ~ In x l.
Proof.
  induction l as [|y l IH]; simpl.
  - tauto.
  - destruct (eq_dec x y) as [->|Hne].
    + split; [discriminate | intros H; exfalso; apply H; now left].
    + destruct (list_remove eq_dec x l) eqn:E; simpl.
      * split; [discriminate|]. intros H. exfalso.
        assert (Hin : ~ In x l) by (intros Hin; apply H; now right).
        apply IH in Hin. discriminate.
      * split; [|reflexivity]. intros _ [->|Hin]; [now apply Hne|].
        now apply (proj1 IH).
Qed.

Lemma list_remove_Some {A} (eq_dec : forall a b : A, {a = b} + {a <> b}) x l l' :
  list_remove eq_dec x l = Some l' ->
  exists l1 l2, l = l1 ++ x :: l2 /\ ~ In x l1 /\ l' = l1 ++ l2.
Proof.
  revert l'. induction l as [|y l IH]; simpl; intros l' H; [discriminate|].
  destruct (eq_dec x y) as [->|Hne].
  - inversion H; subst. exists [], l'. simpl. tauto.
  - destruct (list_remove eq_dec x l) as [l0|] eqn:E; simpl in H; [|discriminate].
    inversion H; subst. destruct (IH l0 eq_refl) as (l1 & l2 & -> & Hn & ->).
    exists (y :: l1), l2. simpl. repeat split; auto.
    intros [->|Hin]; [now apply Hne | now apply Hn].
Qed.

Lemma list_remove_In {A} (eq_dec : forall a b : A, {a = b} + {a <> b}) x l :
  In x l -> exists l', list_remove eq_dec x l = Some l'.
Proof.
  intros Hin. destruct (list_remove eq_dec x l) as [l'|] eqn:E; [eauto|].
  apply list_remove_None in E. contradiction.
Qed.

(** C10.  [remove_device] of a device that is not in the registry raises
    ValueError and leaves the manager (registry and pool) as it was; of a
    device that is in it, removes exactly its first occurrence and leaves
    the pool alone. *)
Theorem remove_device_spec (device : Device) (s : DeviceManager) :
  (~ In device (_devices s) ->
     out (remove_device device s) = Raise ValueError_not_in_list
     /\ exn_class ValueError_not_in_list = ValueError
     /\ st (remove_device device s) = s)
  /\ (In device (_devices s) ->
     exists l1 l2,
       _devices s = l1 ++ device :: l2 /\ ~ In device l1
       /\ out (remove_device device s) = Ok tt
       /\ _devices (st (remove_device device s)) = l1 ++ l2
       /\ Datatypes.length (_devices (st (remove_device device s)))
          = pred (Datatypes.length (_devices s))
       /\ _hub_cameras (st (remove_device device s)) = _hub_cameras s).
Proof.
  split; intros H.
  - apply (list_remove_None Device_eq_dec) in H.
    unfold remove_device, bind, gets; simpl. rewrite H. simpl. auto.
  - destruct (list_remove_In Device_eq_dec _ _ H) as [l' E].
    destruct (list_remove_Some _ _ _ _ E) as (l1 & l2 & Hl & Hn & ->).
    exists l1, l2. unfold remove_device, bind, gets; simpl. rewrite E. simpl.
    repeat split; auto. rewrite Hl, !length_app. simpl. lia.
Qed.

Lemma remove_device_spec_witness :
  (out (remove_device device_B (st (add_device device_A DEVICE_MANAGER)))
     = Raise ValueError_not_in_list)
  /\ _devices (st (remove_device device_A two_cameras_running)) = [device_B]
  /\ _hub_cameras (st (remove_device device_A two_cameras_running))
     = [camera_A; camera_B].
Proof.
  split.
  - apply (proj1 (remove_device_spec device_B (st (add_device device_A DEVICE_MANAGER)))).
    simpl. intros [H|[]]. discriminate H.
  - destruct (proj2 (remove_device_spec device_A two_cameras_running))
      as (l1 & l2 & _ & _ & _ & _ & _ & Hp).
    + simpl. now left.
    + split; [reflexivity | exact Hp].
Defined.

(** ** Loops *)

Lemma run_eq {A} (r : Run A) o s e :
  out r = o -> st r = s -> evs r = e -> r = mkRun o s e.
Proof. destruct r; simpl; intros; subst; reflexivity. Qed.

(** A [for] loop whose body leaves the list it iterates alone visits the
    elements from the iterator's index on, one after the other. *)
Lemma for_from_foreach {A} (lst : DeviceManager -> list A) (body : A -> M unit) :
  (forall x s, lst (st (body x s)) = lst s) ->
  forall fuel i s,
    Datatypes.length (lst s) - i < fuel ->
    for_from fuel lst body i s = foreach body (skipn i (lst s)) s.
Proof.
  intros Hframe fuel. induction fuel as [|fuel IH]; intros i s Hfuel; [lia|].
  simpl. unfold bind at 1. unfold for_step.
  destruct (nth_error (lst s) i) as [x|] eqn:Hnth.
  - assert (Hlt : i < Datatypes.length (lst s)) by (apply nth_error_Some; congruence).
    assert (Hskip : skipn i (lst s) = x :: skipn (S i) (lst s)).
    { clear -Hnth. revert i Hnth. induction (lst s) as [|y l IHl]; intros [|i] H;
        simpl in *; try discriminate; [congruence | now apply IHl]. }
    rewrite Hskip. simpl. unfold bind, ret. simpl.
    specialize (Hframe x s).
    destruct (body x s) as [o s1 e1] eqn:Hb. simpl in *.
    destruct o as [[]|e|]; simpl; try now rewrite ?app_nil_r.
    rewrite IH by (rewrite Hframe; lia). rewrite Hframe, app_nil_r. reflexivity.
  - apply nth_error_None in Hnth. rewrite skipn_all2 by exact Hnth. reflexivity.
Qed.

Lemma for_in_foreach {A} (lst : DeviceManager -> list A) (body : A -> M unit) :
  (forall x s, lst (st (body x s)) = lst s) ->
  forall s, for_in lst body s = foreach body (lst s) s.
Proof.
  intros Hframe s. unfold for_in.
  rewrite for_from_foreach by (auto; lia). reflexivity.
Qed.

(** ** [_connect_device] *)

(** C5.  A connection attempt makes a new camera and calls the device's
    start routine on it.  When that returns failure the camera is stopped
    at once, the pool stays as it was and no connect callback is called.
    When it returns success (and the camera's start and the callback
    return), the calls are, in this order: the camera's start, the connect
    callback with the camera, the insertion into the pool. *)
Theorem connect_device_spec (w : World) (device : Device) (s : DeviceManager) :
  let hub_camera := {| camera_obj := next_obj s; device_mxid := mxid device |} in
  let r := _connect_device w device s in
  (dev_start w device hub_camera = Ok false ->
     evs r = [NewHubCamera hub_camera; CallDeviceStart device hub_camera;
              CallCameraStop hub_camera]
     /\ _hub_cameras (st r) = _hub_cameras s
     /\ (forall d h, ~ In (CallConnectCallback d h) (evs r))
     /\ (forall h, ~ In (PoolAppend h) (evs r)))
  /\ (dev_start w device hub_camera = Ok true ->
      cam_start w hub_camera = Ok tt ->
      dev_connect_callback w device hub_camera = Ok tt ->
      out r = Ok tt
      /\ evs r = [NewHubCamera hub_camera; CallDeviceStart device hub_camera;
                  CallCameraStart hub_camera;
                  CallConnectCallback device hub_camera;
                  PoolAppend hub_camera]
      /\ _hub_cameras (st r) = _hub_cameras s ++ [hub_camera]).
Proof.
  intros hub_camera r. subst r.
  unfold _connect_device, new_HubCamera, pool_append, bind, gets, modify, emit, call, ret.
  simpl. fold hub_camera. split.
  - intros ->. simpl.
    destruct (cam_stop w hub_camera); simpl;
      (split; [reflexivity|]; split; [reflexivity|];
       split; intros; intros [H|[H|[H|[]]]]; discriminate H).
  - intros -> -> ->. simpl. auto.
Qed.

Lemma connect_device_spec_witness :
  evs (_connect_device (with_dev_start (fun _ _ => Ok false) calm_world) device_A
         (st (add_device device_A DEVICE_MANAGER)))
  = [NewHubCamera camera_A; CallDeviceStart device_A camera_A; CallCameraStop camera_A]
  /\ _hub_cameras (st (_connect_device calm_world device_A
                         (st (add_device device_A DEVICE_MANAGER)))) = [camera_A].
Proof.
  split.
  - apply (proj1 (connect_device_spec (with_dev_start (fun _ _ => Ok false) calm_world)
                    device_A (st (add_device device_A DEVICE_MANAGER)))).
    reflexivity.
  - apply (proj2 (connect_device_spec calm_world device_A
                    (st (add_device device_A DEVICE_MANAGER)))); reflexivity.
Defined.

(** ** [_report] *)

Lemma report_body_frame w c s : st (report_body w c s) = s.
Proof.
  unfold report_body, bind, call. simpl.
  destruct (cam_info_report w c); simpl; auto.
  destruct (cam_stats_report w c); simpl; auto.
  destruct (agent_publish_device_info w a); simpl; auto.
Qed.

Lemma report_camera_frame w c s : st (report_camera w c s) = s.
Proof.
  unfold report_camera, try_except. pose proof (report_body_frame w c s) as H.
  destruct (report_body w c s) as [o s1 e1]; simpl in *. subst s1.
  destruct o; simpl; auto. destruct (except_Exception e); simpl; auto.
Qed.

Lemma report_camera_out w c s :
  catchable (out (report_body w c s)) -> out (report_camera w c s) = Ok tt.
Proof.
  unfold report_camera, try_except.
  destruct (report_body w c s) as [o s1 e1]; simpl.
  destruct o as [[]|e|]; simpl; try tauto.
  unfold except_Exception. intros ->. reflexivity.
Qed.

Lemma report_body_any_state w c s s' :
  out (report_body w c s) = out (report_body w c s')
  /\ evs (report_body w c s) = evs (report_body w c s').
Proof.
  unfold report_body, bind, call. simpl.
  destruct (cam_info_report w c); simpl; auto.
  destruct (cam_stats_report w c); simpl; auto.
  destruct (agent_publish_device_info w a); simpl; auto.
Qed.

Lemma report_camera_any_state w c s s' :
  evs (report_camera w c s) = evs (report_camera w c s').
Proof.
  unfold report_camera, try_except.
  destruct (report_body_any_state w c s s') as [Ho He].
  pose proof (report_body_frame w c s) as Hs. pose proof (report_body_frame w c s') as Hs'.
  destruct (report_body w c s) as [o s1 e1], (report_body w c s') as [o' s1' e1'].
  simpl in *. subst. destruct o'; simpl; auto. destruct (except_Exception e); auto.
Qed.

Lemma foreach_report w l s0 s :
  (forall c, In c l -> catchable (out (report_body w c s0))) ->
  out (foreach (report_camera w) l s) = Ok tt
  /\ st (foreach (report_camera w) l s) = s
  /\ evs (foreach (report_camera w) l s)
     = flat_map (fun c => evs (report_camera w c s0)) l.
Proof.
  revert s. induction l as [|c l IH]; intros s H; simpl; [auto|].
  unfold bind.
  assert (Hc : catchable (out (report_body w c s))).
  { rewrite (proj1 (report_body_any_state w c s s0)). apply H. now left. }
  rewrite (report_camera_out _ _ _ Hc), report_camera_frame. simpl.
  destruct (IH s (fun c' Hin => H c' (or_intror Hin))) as (Ho & Hs & He).
  rewrite Ho, Hs, He, (report_camera_any_state w c s s0). auto.
Qed.

(** C6.  In one pass of the reporting loop an exception (an instance of
    [Exception]) raised while gathering or publishing for a camera is caught
    and logged and the pass goes on: it ends normally, leaves the manager as
    it was, and its trace is the concatenation of each camera's own trace,
    which for a camera that raised ends with the log line and for a camera
    whose four calls return is the two reports and the two publications. *)
Theorem report_cycle_isolates_failures (w : World) (s : DeviceManager) :
  (forall c, In c (_hub_cameras s) -> catchable (out (report_body w c s))) ->
  let r := report_cycle w s in
  out r = Ok tt /\ st r = s
  /\ evs r = flat_map (fun c => evs (report_camera w c s)) (_hub_cameras s)
  /\ (forall c e, out (report_body w c s) = Raise e ->
        isinstance_Exception e = true ->
        out (report_camera w c s) = Ok tt
        /\ evs (report_camera w c s)
           = evs (report_body w c s) ++ [Log DEBUG (report_failure_text c e)])
  /\ (forall c i t,
        cam_info_report w c = Ok i -> cam_stats_report w c = Ok t ->
        agent_publish_device_info w i = Ok tt ->
        agent_publish_device_stats w t = Ok tt ->
        evs (report_camera w c s)
        = [CallInfoReport c; CallStatsReport c;
           CallPublishDeviceInfo i; CallPublishDeviceStats t]).
Proof.
  intros H r. subst r. unfold report_cycle.
  rewrite for_in_foreach by (intros; now rewrite report_camera_frame).
  destruct (foreach_report w (_hub_cameras s) s s H) as (Ho & Hs & He).
  split; [exact Ho|]. split; [exact Hs|]. split; [exact He|]. split.
  - intros c e Hraise Hcls. unfold report_camera, try_except.
    rewrite Hraise. unfold except_Exception. rewrite Hcls. split; reflexivity.
  - intros c i t Hi Ht Hpi Hps.
    unfold report_camera, try_except, report_body, bind, call. simpl.
    rewrite Hi. simpl. rewrite Ht. simpl. rewrite Hpi. simpl. rewrite Hps. reflexivity.
Qed.

Lemma report_cycle_isolates_failures_witness :
  out (report_cycle info_of_A_fails two_cameras_running) = Ok tt
  /\ evs (report_cycle info_of_A_fails two_cameras_running)
     = [CallInfoReport camera_A;
        Log DEBUG "Device A: could not report info/stats with error: X_LINK_ERROR.";
        CallInfoReport camera_B; CallStatsReport camera_B;
        CallPublishDeviceInfo "info B"%string; CallPublishDeviceStats "stats B"%string].
Proof.
  assert (H : forall c, In c (_hub_cameras two_cameras_running) ->
                catchable (out (report_body info_of_A_fails c two_cameras_running))).
  { simpl. intros c [<-|[<-|[]]]; simpl; auto. }
  destruct (report_cycle_isolates_failures info_of_A_fails two_cameras_running H)
    as (Ho & _ & He & _).
  split; [exact Ho | rewrite He; reflexivity].
Defined.

(** ** [stop]: the teardown *)

Lemma exit_camera_frame w c s : st (exit_camera w c s) = s.
Proof.
  unfold exit_camera, try_except, call, ret, raise.
  destruct (negb (DeviceState_eqb (cam_state w c) DISCONNECTED)); simpl; auto.
  destruct (cam_exit w c); simpl; auto.
Qed.

Lemma DeviceState_eqb_eq a b : DeviceState_eqb a b = true <-> a = b.
Proof.
  destruct a, b; simpl; split; intros H; try discriminate; try reflexivity.
  - apply Nat.eqb_eq in H. now subst.
  - inversion H. apply Nat.eqb_refl.
Qed.

(** What [exit_camera] does, case by case. *)
Lemma exit_camera_cases w c s :
  (cam_state w c = DISCONNECTED /\ exit_camera w c s = mkRun (Ok tt) s [])
  \/ (cam_state w c <> DISCONNECTED /\
      match cam_exit w c with
      | Ok _ => exit_camera w c s = mkRun (Ok tt) s [CallExit c]
      | Raise e => exit_camera w c s = mkRun (Raise (exit_failure c e)) s [CallExit c]
      | Hang => exit_camera w c s = mkRun Hang s [CallExit c]
      end).
Proof.
  unfold exit_camera, try_except, call, ret, raise.
  destruct (DeviceState_eqb (cam_state w c) DISCONNECTED) eqn:E; simpl.
  - left. apply DeviceState_eqb_eq in E. auto.
  - right. split.
    + intros H. apply DeviceState_eqb_eq in H. congruence.
    + destruct (cam_exit w c) as [[]|e|]; reflexivity.
Qed.

(** An exit that was called and raised ends the loop over the cameras with
    the wrapping exception. *)
Lemma foreach_exit_raised w l s h e :
  In (CallExit h) (evs (foreach (exit_camera w) l s)) ->
  cam_exit w h = Raise e ->
  out (foreach (exit_camera w) l s) = Raise (exit_failure h e)
  /\ cam_state w h <> DISCONNECTED /\ In h l.
Proof.
  revert s. induction l as [|c l IH]; intros s Hin Hraise; simpl in *; [tauto|].
  unfold bind in *.
  destruct (exit_camera_cases w c s) as [[Hd Hc]|[Hn Hc]].
  - rewrite Hc in *. simpl in *. destruct (IH s Hin Hraise) as (? & ? & ?). auto.
  - destruct (cam_exit w c) as [[]|e'|] eqn:Ec; rewrite Hc in *; simpl in *.
    + destruct Hin as [Heq|Hin].
      * inversion Heq; subst. congruence.
      * destruct (IH s Hin Hraise) as (? & ? & ?). auto.
    + destruct Hin as [Heq|[]]. inversion Heq; subst.
      rewrite Ec in Hraise. inversion Hraise; subst. auto.
    + destruct Hin as [Heq|[]]. inversion Heq; subst. congruence.
Qed.

(** The first camera whose exit raises decides how the loop ends. *)
Lemma foreach_exit_first_raise w l1 h l2 s e :
  (forall c, In c l1 -> cam_state w c = DISCONNECTED \/ cam_exit w c = Ok tt) ->
  cam_state w h <> DISCONNECTED ->
  cam_exit w h = Raise e ->
  out (foreach (exit_camera w) (l1 ++ h :: l2) s) = Raise (exit_failure h e)
  /\ In (CallExit h) (evs (foreach (exit_camera w) (l1 ++ h :: l2) s)).
Proof.
  intros Hl1 Hn Hraise. revert s.
  induction l1 as [|c l1 IH]; intros s; simpl; unfold bind.
  - destruct (exit_camera_cases w h s) as [[Hd _]|[_ Hc]]; [contradiction|].
    rewrite Hraise in Hc. rewrite Hc. simpl. auto.
  - assert (IH' := IH (fun c' Hin => Hl1 c' (or_intror Hin)) s).
    destruct (exit_camera_cases w c s) as [[Hd Hc]|[Hnc Hc]].
    + rewrite Hc. simpl. destruct IH' as [-> Hin]. auto.
    + destruct (Hl1 c (or_introl eq_refl)) as [Hd|Hok]; [contradiction|].
      rewrite Hok in Hc. rewrite Hc. simpl. destruct IH' as [-> Hin]. auto.
Qed.

Lemma graceful_join_not_alive w t fuel s :
  thread_status t s <> Alive ->
  __graceful_thread_join w t fuel s = mkRun (Ok tt) s [].
Proof.
  intros H. unfold __graceful_thread_join, try_except, bind, gets. simpl.
  destruct (thread_status t s); simpl; try reflexivity. congruence.
Qed.

(** With no thread to wait for, [stop] is the signal and the teardown. *)
Lemma stop_no_thread_alive w fuel s :
  no_thread_alive s ->
  out (stop w fuel s) = out (teardown w (set_stop_event true s))
  /\ st (stop w fuel s) = st (teardown w (set_stop_event true s))
  /\ evs (stop w fuel s)
     = Log DEBUG "Threads: gracefully stopping..." :: SetStopEvent
       :: evs (teardown w (set_stop_event true s)).
Proof.
  intros (Hc & Hr & Hp). set (s' := set_stop_event true s).
  pose proof (graceful_join_not_alive w ConnectionThread fuel s' Hc) as E1.
  pose proof (graceful_join_not_alive w ReportingThread fuel s' Hr) as E2.
  pose proof (graceful_join_not_alive w PollingThread fuel s' Hp) as E3.
  unfold stop, bind, emit, modify. cbn [out st evs]. fold s'.
  rewrite E1. cbn [out st evs]. rewrite E2. cbn [out st evs].
  rewrite E3. cbn [out st evs app].
  destruct (out (teardown w s')); auto.
Qed.

Lemma teardown_cases w s :
  match streams_destroy_all_streams w with
  | Ok _ =>
      let r := foreach (exit_camera w) (_hub_cameras s) s in
      out (teardown w s)
      = match out r with Ok _ => Ok tt | Raise e => Raise e | Hang => Hang end
      /\ (forall h, In (CallExit h) (evs (teardown w s)) <-> In (CallExit h) (evs r))
  | Raise e =>
      out (teardown w s) = Raise (destroy_failure e)
      /\ evs (teardown w s) = [CallDestroyAllStreams]
  | Hang =>
      out (teardown w s) = Hang
      /\ evs (teardown w s) = [CallDestroyAllStreams]
  end.
Proof.
  unfold teardown, bind, try_except, call, raise, emit.
  destruct (streams_destroy_all_streams w) as [[]|e|]; simpl; auto.
  rewrite for_in_foreach by (intros; now rewrite exit_camera_frame).
  destruct (foreach (exit_camera w) (_hub_cameras s) s) as [o s1 e1]; simpl.
  destruct o as [[]|e|]; simpl; (split; [reflexivity|]); intros h.
  - rewrite in_app_iff. simpl. split; [|auto].
    intros [H|[H|[H|[]]]]; [discriminate H | exact H | discriminate H].
  - split; [|auto]. intros [H|H]; [discriminate H | exact H].
  - split; [|auto]. intros [H|H]; [discriminate H | exact H].
Qed.

(** ** What the methods keep *)

Section Keeps.

Context {B : Type} (f : DeviceManager -> B).

Lemma keeps_ret {A} (a : A) : keeps f (ret a).
Proof. intros s; reflexivity. Qed.

Lemma keeps_raise {A} e : keeps f (@raise A e).
Proof. intros s; reflexivity. Qed.

Lemma keeps_hang {A} : keeps f (@hang A).
Proof. intros s; reflexivity. Qed.

Lemma keeps_gets {A} (g : DeviceManager -> A) : keeps f (gets g).
Proof. intros s; reflexivity. Qed.

Lemma keeps_emit e : keeps f (emit e).
Proof. intros s; reflexivity. Qed.

Lemma keeps_call {A} e (r : res A) : keeps f (call e r).
Proof. intros s; reflexivity. Qed.

Lemma keeps_modify g : (forall s, f (g s) = f s) -> keeps f (modify g).
Proof. intros H s; apply H. Qed.

Lemma keeps_bind {A C} (m : M A) (k : A -> M C) :
  keeps f m -> (forall a, keeps f (k a)) -> keeps f (bind m k).
Proof.
  intros Hm Hk s. unfold bind. specialize (Hm s).
  destruct (m s) as [o s1 e1]; simpl in *.
  destruct o; simpl; auto. rewrite Hk. exact Hm.
Qed.

Lemma keeps_try_except {A} (m : M A) c h :
  keeps f m -> (forall e, keeps f (h e)) -> keeps f (try_except m c h).
Proof.
  intros Hm Hh s. unfold try_except. specialize (Hm s).
  destruct (m s) as [o s1 e1]; simpl in *.
  destruct o; simpl; auto. destruct (c e); simpl; auto. rewrite Hh. exact Hm.
Qed.

Lemma keeps_for_from {A} (lst : DeviceManager -> list A) body :
  (forall x, keeps f (body x)) -> forall fuel i, keeps f (for_from fuel lst body i).
Proof.
  intros Hb fuel. induction fuel as [|fuel IH]; intros i; simpl.
  - apply keeps_hang.
  - apply keeps_bind.
    + intros s. unfold for_step. destruct (nth_error (lst s) i); [|reflexivity].
      apply keeps_bind; [apply Hb | intros; apply keeps_ret].
    + intros [j|]; [apply IH | apply keeps_ret].
Qed.

Lemma keeps_for_in {A} (lst : DeviceManager -> list A) body :
  (forall x, keeps f (body x)) -> keeps f (for_in lst body).
Proof. intros Hb s. unfold for_in. now apply keeps_for_from. Qed.

Lemma keeps_while_running body :
  keeps f body -> forall fuel, keeps f (while_running fuel body).
Proof.
  intros Hb fuel. induction fuel as [|fuel IH]; simpl.
  - apply keeps_hang.
  - apply keeps_bind; [apply keeps_gets|].
    intros [|]; [|apply keeps_ret]. apply keeps_bind; auto.
Qed.

End Keeps.

(** One step of a proof that a method keeps an attribute: through the
    control structure, down to the assignments. *)
Ltac keeps_step :=
  lazymatch goal with
  | |- keeps _ (bind _ _) => apply keeps_bind; [|intros ?]
  | |- keeps _ (ret _) => apply keeps_ret
  | |- keeps _ (raise _) => apply keeps_raise
  | |- keeps _ hang => apply keeps_hang
  | |- keeps _ (gets _) => apply keeps_gets
  | |- keeps _ (emit _) => apply keeps_emit
  | |- keeps _ (call _ _) => apply keeps_call
  | |- keeps _ (modify _) => apply keeps_modify; intros ?; reflexivity
  | |- keeps _ (try_except _ _ _) => apply keeps_try_except; [|intros ?]
  | |- keeps _ (for_in _ _) => apply keeps_for_in; intros ?
  | |- keeps _ (while_running _ _) => apply keeps_while_running
  | |- keeps _ (match ?x with _ => _ end) => destruct x
  end.

Ltac keeps_all := repeat keeps_step.

(** Nothing but [start] assigns [running]. *)
Lemma keeps_running_stop_event_wait w t : keeps running (stop_event_wait w t).
Proof. unfold stop_event_wait. keeps_all. Qed.

Lemma keeps_running_disconnect_camera w c : keeps running (_disconnect_camera w c).
Proof. unfold _disconnect_camera, pool_remove, _get_device_by_mxid. keeps_all. Qed.

Lemma keeps_running_connect_device w d : keeps running (_connect_device w d).
Proof. unfold _connect_device, new_HubCamera, pool_append. keeps_all. Qed.

Lemma keeps_running_poll_cycle w : keeps running (poll_cycle w).
Proof.
  unfold poll_cycle, poll_camera. keeps_all. apply keeps_running_disconnect_camera.
Qed.

Lemma keeps_running_report_cycle w : keeps running (report_cycle w).
Proof. unfold report_cycle, report_camera, report_body. keeps_all. Qed.

Lemma keeps_running_connect_cycle w : keeps running (connect_cycle w).
Proof.
  unfold connect_cycle, connect_if_missing. keeps_all;
    try apply keeps_running_stop_event_wait; apply keeps_running_connect_device.
Qed.

Lemma keeps_running_add_device d : keeps running (add_device d).
Proof. unfold add_device. keeps_all. Qed.

Lemma keeps_running_remove_device d : keeps running (remove_device d).
Proof. unfold remove_device. keeps_all. Qed.

Lemma keeps_running_teardown w : keeps running (teardown w).
Proof. unfold teardown, exit_camera. keeps_all. Qed.

(** ** The loops never leave [while self.running] *)

(** Once [running] is true, a loop whose body keeps it does not return:
    it can only be ended by an exception of its body. *)
Lemma while_running_never_returns body :
  keeps running body ->
  forall fuel s, running s = true ->
    out (while_running fuel body s) <> Ok tt
    /\ running (st (while_running fuel body s)) = true.
Proof.
  intros Hk fuel. induction fuel as [|fuel IH]; intros s Hr; simpl.
  - split; [discriminate | exact Hr].
  - unfold bind at 1. unfold gets. simpl. rewrite Hr. unfold bind.
    specialize (Hk s). destruct (body s) as [o s1 e1]; simpl in *.
    destruct o; simpl; try (split; [discriminate | congruence]).
    apply IH. congruence.
Qed.

(** When the body also returns every time, the loop goes on for ever. *)
Lemma while_running_hangs body :
  keeps running body -> returns body ->
  forall fuel s, running s = true -> out (while_running fuel body s) = Hang.
Proof.
  intros Hk Hret fuel. induction fuel as [|fuel IH]; intros s Hr; simpl.
  - reflexivity.
  - unfold bind at 1. unfold gets. simpl. rewrite Hr. unfold bind.
    specialize (Hk s). destruct (Hret s) as [a Ha].
    destruct (body s) as [o s1 e1]; simpl in *. subst o. simpl.
    apply IH. congruence.
Qed.

(** ** Methods that return *)

Lemma returns_ret {A} (a : A) : returns (ret a).
Proof. intros s; eexists; reflexivity. Qed.

Lemma returns_gets {A} (g : DeviceManager -> A) : returns (gets g).
Proof. intros s; eexists; reflexivity. Qed.

Lemma returns_emit e : returns (emit e).
Proof. intros s; eexists; reflexivity. Qed.

Lemma returns_modify g : returns (modify g).
Proof. intros s; eexists; reflexivity. Qed.

Lemma returns_bind {A C} (m : M A) (k : A -> M C) :
  returns m -> (forall a, returns (k a)) -> returns (bind m k).
Proof.
  intros Hm Hk s. unfold bind. destruct (Hm s) as [a Ha]. rewrite Ha. simpl.
  apply Hk.
Qed.

Lemma returns_foreach {A} (body : A -> M unit) l :
  (forall x, returns (body x)) -> returns (foreach body l).
Proof.
  intros Hb. induction l as [|x l IH]; simpl.
  - apply returns_ret.
  - apply returns_bind; auto.
Qed.

Lemma returns_for_in {A} (lst : DeviceManager -> list A) body :
  (forall x, keeps lst (body x)) -> (forall x, returns (body x)) ->
  returns (for_in lst body).
Proof.
  intros Hk Hb s. rewrite for_in_foreach by exact Hk. now apply returns_foreach.
Qed.

Lemma returns_stop_event_wait w t : returns (stop_event_wait w t).
Proof.
  intros s. unfold stop_event_wait, bind, emit, gets, modify, ret. simpl.
  destruct (stop_event s); simpl; eexists; reflexivity.
Qed.

Lemma keeps_devices_connect_if_missing w mxids d :
  keeps _devices (connect_if_missing w mxids d).
Proof. unfold connect_if_missing, _connect_device, new_HubCamera, pool_append. keeps_all. Qed.

(** In the calm world every pass of every loop returns. *)
Lemma calm_poll_cycle_returns : returns (poll_cycle calm_world).
Proof.
  apply returns_for_in; intros c s; [reflexivity | eexists; reflexivity].
Qed.

Lemma calm_report_cycle_returns : returns (report_cycle calm_world).
Proof.
  apply returns_for_in; intros c s; [reflexivity | eexists; reflexivity].
Qed.

Lemma calm_connect_cycle_returns : returns (connect_cycle calm_world).
Proof.
  unfold connect_cycle.
  repeat (apply returns_bind; [apply returns_gets | intros ?]).
  destruct (_ || _).
  - apply returns_bind; [apply returns_stop_event_wait | intros; apply returns_ret].
  - apply returns_for_in; intros d.
    + apply keeps_devices_connect_if_missing.
    + intros s. unfold connect_if_missing. destruct (negb _); eexists; reflexivity.
Qed.

Lemma keeps_running_loop_bodies w :
  keeps running (connect_cycle w)
  /\ keeps running (report_cycle w ;; stop_event_wait w REPORT_FREQUENCY ;; ret tt)
  /\ keeps running (poll_cycle w ;; stop_event_wait w POLL_FREQUENCY ;; ret tt).
Proof.
  split; [apply keeps_running_connect_cycle|]. split.
  - apply keeps_bind; [apply keeps_running_report_cycle | intros].
    apply keeps_bind; [apply keeps_running_stop_event_wait | intros; apply keeps_ret].
  - apply keeps_bind; [apply keeps_running_poll_cycle | intros].
    apply keeps_bind; [apply keeps_running_stop_event_wait | intros; apply keeps_ret].
Qed.

Lemma calm_loops_hang t fuel s :
  running s = true -> out (thread_target calm_world t fuel s) = Hang.
Proof.
  intros Hr. destruct (keeps_running_loop_bodies calm_world) as (Kc & Kr & Kp).
  destruct t; simpl; apply while_running_hangs; auto.
  - apply calm_connect_cycle_returns.
  - apply returns_bind; [apply calm_report_cycle_returns | intros].
    apply returns_bind; [apply returns_stop_event_wait | intros; apply returns_ret].
  - apply returns_bind; [apply calm_poll_cycle_returns | intros].
    apply returns_bind; [apply returns_stop_event_wait | intros; apply returns_ret].
Qed.

(** Whatever the world does, with or without the stop event, none of the
    three loops returns once [running] is true. *)
Lemma loops_never_return w t fuel s :
  running s = true -> out (thread_target w t fuel s) <> Ok tt.
Proof.
  intros Hr. destruct (keeps_running_loop_bodies w) as (Kc & Kr & Kp).
  destruct t; simpl; apply while_running_never_returns; auto.
Qed.

Lemma graceful_join_hangs w t fuel s :
  thread_status t s = Alive ->
  thread_join_raises w t = None ->
  out (thread_target w t fuel s) = Hang ->
  out (__graceful_thread_join w t fuel s) = Hang.
Proof.
  intros Ha Hj Hh. unfold __graceful_thread_join, try_except, bind, gets.
  cbn [out st evs]. rewrite Ha. cbv beta iota. unfold thread_join.
  rewrite Hj, Hh. reflexivity.
Qed.

(** With the connection thread alive and [running] set, [stop] in the calm
    world never gets past its first [join]. *)
Lemma calm_stop_hangs fuel s :
  running s = true -> connection_thread s = Alive ->
  out (stop calm_world fuel s) = Hang.
Proof.
  intros Hr Ha.
  assert (E : out (__graceful_thread_join calm_world ConnectionThread fuel
                     (set_stop_event true s)) = Hang).
  { apply graceful_join_hangs; [exact Ha | reflexivity |].
    apply calm_loops_hang. exact Hr. }
  unfold stop, bind, emit, modify. cbn [out st evs].
  rewrite E. reflexivity.
Qed.

(** C1 (failing input).  Two devices are registered and connected and the
    three threads run; every collaborator does its work.  After
    [stop_event.set()] each of the three loops still goes on for ever, and
    [stop] itself never gets past its first [join]: it neither returns nor
    raises. *)
Theorem stop_never_ends_the_loops (fuel : nat) :
  out (stop calm_world fuel two_cameras_running) = Hang
  /\ out (_connect calm_world fuel (set_stop_event true two_cameras_running)) = Hang
  /\ out (_report calm_world fuel (set_stop_event true two_cameras_running)) = Hang
  /\ out (_poll calm_world fuel (set_stop_event true two_cameras_running)) = Hang
  /\ stop_event (set_stop_event true two_cameras_running) = true
  /\ (forall t, thread_status t two_cameras_running = Alive).
Proof.
  assert (Hr : running (set_stop_event true two_cameras_running) = true)
    by (vm_compute; reflexivity).
  split; [|split; [|split; [|split; [|split]]]].
  - apply calm_stop_hangs; vm_compute; reflexivity.
  - exact (calm_loops_hang ConnectionThread fuel _ Hr).
  - exact (calm_loops_hang ReportingThread fuel _ Hr).
  - exact (calm_loops_hang PollingThread fuel _ Hr).
  - vm_compute; reflexivity.
  - intros []; vm_compute; reflexivity.
Qed.

(** ** [_poll]: one pass over a pool that shrinks under the iterator *)

Lemma list_remove_app {A} (eq_dec : forall a b : A, {a = b} + {a <> b}) x pre l :
  ~ In x pre -> list_remove eq_dec x (pre ++ x :: l) = Some (pre ++ l).
Proof.
  induction pre as [|y pre IH]; simpl; intros Hn.
  - destruct (eq_dec x x); [reflexivity | congruence].
  - destruct (eq_dec x y) as [->|Hne]; [exfalso; apply Hn; now left|].
    rewrite IH by (intros H; apply Hn; now right). reflexivity.
Qed.

Lemma set_hub_cameras_same s : set_hub_cameras (_hub_cameras s) s = s.
Proof. destruct s; reflexivity. Qed.

Lemma poll_camera_alive w c s :
  cam_poll w c = Ok true -> poll_camera w c s = mkRun (Ok tt) s [CallPoll c].
Proof. intros H. unfold poll_camera, bind, call, ret. simpl. rewrite H. reflexivity. Qed.

Lemma bind_ok {A B} (m : M A) (f : A -> M B) s a s1 e1 :
  m s = mkRun (Ok a) s1 e1 ->
  bind m f s = mkRun (out (f a s1)) (st (f a s1)) (e1 ++ evs (f a s1)).
Proof. intros H. unfold bind. rewrite H. reflexivity. Qed.

Lemma disconnect_camera_evicts w c s pre l :
  cam_stop w c = Ok tt ->
  (forall d, In d (_devices s) -> dev_disconnect_callback w d = Ok tt) ->
  _hub_cameras s = pre ++ c :: l -> ~ In c pre ->
  _disconnect_camera w c s
  = mkRun (Ok tt) (set_hub_cameras (pre ++ l) s)
      ([Log INFO (disconnected_text c); CallCameraStop c; PoolRemove c]
       ++ match find (fun device => String.eqb (mxid device) (device_mxid c))
                  (_devices s) with
          | Some d => [CallDisconnectCallback d]
          | None => []
          end).
Proof.
  intros Hs Hcb Hpool Hn. unfold _disconnect_camera.
  rewrite (bind_ok _ _ s tt s [Log INFO (disconnected_text c)]) by reflexivity.
  rewrite (bind_ok _ _ s tt s [CallCameraStop c]) by (unfold call; now rewrite Hs).
  assert (Hrm : pool_remove c s
                = mkRun (Ok tt) (set_hub_cameras (pre ++ l) s) [PoolRemove c]).
  { unfold pool_remove.
    rewrite (bind_ok _ _ s (pre ++ c :: l) s []) by (unfold gets; now rewrite Hpool).
    rewrite list_remove_app by exact Hn. reflexivity. }
  rewrite (bind_ok _ _ _ _ _ _ Hrm).
  set (s1 := set_hub_cameras (pre ++ l) s).
  rewrite (bind_ok _ _ s1 (find (fun device => String.eqb (mxid device) (device_mxid c))
                             (_devices s)) s1 []) by reflexivity.
  destruct (find _ (_devices s)) as [d|] eqn:Hf.
  - apply find_some in Hf. unfold call. rewrite (Hcb d (proj1 Hf)). reflexivity.
  - reflexivity.
Qed.

Lemma poll_camera_evicts w c s pre l :
  cam_poll w c = Ok false -> cam_stop w c = Ok tt ->
  (forall d, In d (_devices s) -> dev_disconnect_callback w d = Ok tt) ->
  _hub_cameras s = pre ++ c :: l -> ~ In c pre ->
  poll_camera w c s
  = mkRun (Ok tt) (set_hub_cameras (pre ++ l) s) (poll_trace w (_devices s) c).
Proof.
  intros Hp Hs Hcb Hpool Hn.
  unfold poll_trace, poll_fails. rewrite Hp. unfold poll_camera.
  rewrite (bind_ok _ _ s false s [CallPoll c]) by (unfold call; now rewrite Hp).
  cbn [negb]. rewrite (disconnect_camera_evicts w c s pre l Hs Hcb Hpool Hn).
  reflexivity.
Qed.

Lemma nth_error_middle {A} (pre : list A) x l :
  nth_error (pre ++ x :: l) (Datatypes.length pre) = Some x.
Proof. induction pre; simpl; auto. Qed.

Lemma NoDup_app_cons_not_in {A} (pre : list A) x l :
  NoDup (pre ++ x :: l) -> ~ In x pre /\ ~ In x l /\ NoDup (pre ++ l).
Proof.
  intros H. pose proof (NoDup_remove_2 _ _ _ H) as Hn.
  apply NoDup_remove_1 in H. rewrite in_app_iff in Hn. tauto.
Qed.

Lemma for_from_done {A} (lst : DeviceManager -> list A) body fuel i s :
  nth_error (lst s) i = None ->
  for_from (S fuel) lst body i s = mkRun (Ok tt) s [].
Proof.
  intros H. cbn [for_from]. unfold bind, for_step. rewrite H. reflexivity.
Qed.

Lemma for_from_next {A} (lst : DeviceManager -> list A) body fuel i s x s1 e1 :
  nth_error (lst s) i = Some x ->
  body x s = mkRun (Ok tt) s1 e1 ->
  for_from (S fuel) lst body i s
  = mkRun (out (for_from fuel lst body (S i) s1))
          (st (for_from fuel lst body (S i) s1))
          (e1 ++ evs (for_from fuel lst body (S i) s1)).
Proof.
  intros H Hb. cbn [for_from]. unfold bind, for_step. rewrite H.
  cbv beta iota zeta. unfold bind. rewrite Hb. cbn [out st evs ret]. rewrite app_nil_r. reflexivity.
Qed.

Lemma poll_trace_alive w devices c :
  poll_fails w c = false -> poll_trace w devices c = [CallPoll c].
Proof. intros H. unfold poll_trace. now rewrite H. Qed.

(** The loop from the iterator's index on: [pre] are the cameras before the
    index, [rest] those from it on. *)
Lemma for_from_poll w fuel : forall pre rest s,
  _hub_cameras s = pre ++ rest -> NoDup (pre ++ rest) ->
  Datatypes.length rest < fuel ->
  (forall c, In c rest -> exists b, cam_poll w c = Ok b) ->
  (forall c, In c rest -> cam_stop w c = Ok tt) ->
  (forall d, In d (_devices s) -> dev_disconnect_callback w d = Ok tt) ->
  for_from fuel _hub_cameras (poll_camera w) (Datatypes.length pre) s
  = mkRun (Ok tt) (set_hub_cameras (pre ++ survivors w rest) s)
      (flat_map (poll_trace w (_devices s)) (visited w rest)).
Proof.
  induction fuel as [|fuel IH]; intros pre rest s Hpool Hnd Hfuel Hp Hs Hcb; [lia|].
  destruct rest as [|c l].
  - rewrite for_from_done.
    + cbn. rewrite <- Hpool, set_hub_cameras_same. reflexivity.
    + rewrite Hpool, app_nil_r. apply nth_error_None. lia.
  - destruct (NoDup_app_cons_not_in _ _ _ Hnd) as (Hn1 & Hn2 & Hnd').
    assert (Hnth : nth_error (_hub_cameras s) (Datatypes.length pre) = Some c)
      by (rewrite Hpool; apply nth_error_middle).
    destruct (Hp c (or_introl eq_refl)) as [[|] Hpc].
    + (* the camera is alive: the pool stays, the index moves on *)
      assert (Hf : poll_fails w c = false) by (unfold poll_fails; now rewrite Hpc).
      rewrite (for_from_next _ _ _ _ _ _ _ _ Hnth (poll_camera_alive _ _ _ Hpc)).
      assert (Hpool' : _hub_cameras s = (pre ++ [c]) ++ l) by now rewrite <- app_assoc.
      assert (Hlen : S (Datatypes.length pre) = Datatypes.length (pre ++ [c]))
        by (rewrite length_app; simpl; lia).
      rewrite Hlen, (IH (pre ++ [c]) l s Hpool'); cbn [out st evs].
      * cbn [visited survivors flat_map]. rewrite Hf.
        rewrite (poll_trace_alive _ _ _ Hf), <- app_assoc. reflexivity.
      * now rewrite <- app_assoc.
      * simpl in Hfuel. lia.
      * intros c' Hin. apply Hp. now right.
      * intros c' Hin. apply Hs. now right.
      * exact Hcb.
    + (* the camera is evicted: the pool closes up, the index moves on *)
      rewrite (for_from_next _ _ _ _ _ _ _ _ Hnth
                 (poll_camera_evicts w c s pre l Hpc (Hs c (or_introl eq_refl)) Hcb Hpool Hn1)).
      assert (Hf : poll_fails w c = true) by (unfold poll_fails; now rewrite Hpc).
      cbn [visited survivors flat_map]. rewrite Hf.
      destruct l as [|c' l'].
      * (* nothing follows *)
        destruct fuel as [|fuel]; [simpl in Hfuel; lia|].
        rewrite for_from_done.
        -- cbn. rewrite !app_nil_r. reflexivity.
        -- cbn [_hub_cameras set_hub_cameras]. rewrite app_nil_r.
           apply nth_error_None. lia.
      * (* the camera that follows is skipped *)
        set (s1 := set_hub_cameras (pre ++ c' :: l') s).
        assert (Hpool1 : _hub_cameras s1 = (pre ++ [c']) ++ l')
          by (subst s1; cbn; now rewrite <- app_assoc).
        assert (Hlen : S (Datatypes.length pre) = Datatypes.length (pre ++ [c']))
          by (rewrite length_app; simpl; lia).
        rewrite Hlen, (IH (pre ++ [c']) l' s1 Hpool1); cbn [out st evs].
        -- subst s1. cbn [flat_map _devices set_hub_cameras].
           rewrite <- !app_assoc. reflexivity.
        -- rewrite <- app_assoc. apply NoDup_remove_1 in Hnd. exact Hnd.
        -- simpl in Hfuel. lia.
        -- intros x Hin. apply Hp. right. now right.
        -- intros x Hin. apply Hs. right. now right.
        -- exact Hcb.
Qed.

Lemma poll_cycle_eq w s :
  NoDup (_hub_cameras s) ->
  (forall c, In c (_hub_cameras s) -> exists b, cam_poll w c = Ok b) ->
  (forall c, In c (_hub_cameras s) -> cam_stop w c = Ok tt) ->
  (forall d, In d (_devices s) -> dev_disconnect_callback w d = Ok tt) ->
  poll_cycle w s
  = mkRun (Ok tt) (set_hub_cameras (survivors w (_hub_cameras s)) s)
      (flat_map (poll_trace w (_devices s)) (visited w (_hub_cameras s))).
Proof.
  intros Hnd Hp Hs Hcb. unfold poll_cycle, for_in.
  apply (for_from_poll w _ [] (_hub_cameras s) s); auto.
Qed.

(** Induction over a list two elements at a time. *)
Lemma list_pair_ind {A} (P : list A -> Prop) :
  P [] -> (forall x, P [x]) ->
  (forall x y l, P l -> P (y :: l) -> P (x :: y :: l)) ->
  forall l, P l.
Proof.
  intros H0 H1 H2 l.
  assert (H : P l /\ forall x, P (x :: l)).
  { induction l as [|y l [IHa IHb]]; split; auto. }
  apply H.
Qed.

Lemma visited_one w c : visited w [c] = [c].
Proof. simpl. destruct (poll_fails w c); reflexivity. Qed.

Lemma visited_two w c c' l :
  visited w (c :: c' :: l)
  = c :: (if poll_fails w c then visited w l else visited w (c' :: l)).
Proof. reflexivity. Qed.

Lemma survivors_one w c : survivors w [c] = if poll_fails w c then [] else [c].
Proof. reflexivity. Qed.

Lemma survivors_two w c c' l :
  survivors w (c :: c' :: l)
  = if poll_fails w c then c' :: survivors w l else c :: survivors w (c' :: l).
Proof. reflexivity. Qed.

Lemma visited_incl w l x : In x (visited w l) -> In x l.
Proof.
  revert x. induction l as [|c|c c' l IH1 IH2] using list_pair_ind; intros x.
  - auto.
  - rewrite visited_one. auto.
  - rewrite visited_two. destruct (poll_fails w c).
    + intros [->|H]; [now left|]. right. right. now apply IH1.
    + intros [->|H]; [now left|]. right. now apply IH2.
Qed.

Lemma survivors_incl w l x : In x (survivors w l) -> In x l.
Proof.
  revert x. induction l as [|c|c c' l IH1 IH2] using list_pair_ind; intros x.
  - auto.
  - rewrite survivors_one. destruct (poll_fails w c); simpl; tauto.
  - rewrite survivors_two. destruct (poll_fails w c).
    + intros [->|H]; [right; now left|]. right. right. now apply IH1.
    + intros [->|H]; [now left|]. right. now apply IH2.
Qed.

Lemma visited_NoDup w l : NoDup l -> NoDup (visited w l).
Proof.
  induction l as [|c|c c' l IH1 IH2] using list_pair_ind; intros Hnd.
  - constructor.
  - rewrite visited_one. exact Hnd.
  - inversion Hnd as [|? ? Hc Hnd']; subst. inversion Hnd' as [|? ? Hc' Hnd'']; subst.
    rewrite visited_two. destruct (poll_fails w c); constructor; auto.
    + intros H. apply visited_incl in H. apply Hc. now right.
    + intros H. apply visited_incl in H. contradiction.
Qed.

(** A camera that was polled and reported failure is not in the pool the
    pass leaves. *)
Lemma evicted_not_survivor w l h :
  NoDup l -> In h (visited w l) -> poll_fails w h = true -> ~ In h (survivors w l).
Proof.
  induction l as [|c|c c' l IH1 IH2] using list_pair_ind; intros Hnd Hv Hf.
  - auto.
  - rewrite visited_one in Hv. rewrite survivors_one.
    destruct Hv as [->|[]]. rewrite Hf. auto.
  - inversion Hnd as [|? ? Hn Hnd']; subst. inversion Hnd' as [|? ? Hn' Hnd'']; subst.
    rewrite visited_two in Hv. rewrite survivors_two.
    destruct (poll_fails w c) eqn:Hc.
    + destruct Hv as [->|Hv].
      * intros [->|H]; [apply Hn; now left|].
        apply survivors_incl in H. apply Hn. now right.
      * intros [->|H].
        -- apply visited_incl in Hv. contradiction.
        -- now apply (IH1 Hnd'' Hv Hf).
    + destruct Hv as [->|Hv]; [congruence|].
      intros [->|H].
      * apply visited_incl in Hv. contradiction.
      * now apply (IH2 Hnd' Hv Hf).
Qed.

Lemma count_events_app p a b :
  count_events p (a ++ b) = count_events p a + count_events p b.
Proof. unfold count_events. now rewrite filter_app, length_app. Qed.

Lemma count_events_flat_map_zero p (f : HubCamera -> list Event) l :
  (forall y, In y l -> count_events p (f y) = 0) ->
  count_events p (flat_map f l) = 0.
Proof.
  induction l as [|x l IH]; intros H; simpl; [reflexivity|].
  rewrite count_events_app, H by (now left).
  rewrite IH; [reflexivity|]. intros y Hy. apply H. now right.
Qed.

(** Events that only one element of a duplicate-free list gives rise to
    are counted in that element's part of the trace. *)
Lemma count_events_flat_map_unique p (f : HubCamera -> list Event) l h :
  NoDup l -> In h l ->
  (forall y, In y l -> y <> h -> count_events p (f y) = 0) ->
  count_events p (flat_map f l) = count_events p (f h).
Proof.
  induction l as [|x l IH]; intros Hnd Hin H0; simpl; [contradiction|].
  inversion Hnd as [|? ? Hx Hnd']; subst. rewrite count_events_app.
  destruct Hin as [->|Hin].
  - rewrite count_events_flat_map_zero; [lia|].
    intros y Hy. apply H0; [now right|]. intros ->. contradiction.
  - rewrite (H0 x); [|now left | intros ->; contradiction].
    rewrite IH; auto. intros y Hy Hne. apply H0; [now right | exact Hne].
Qed.

Lemma poll_trace_evicted w devices c :
  poll_fails w c = true ->
  poll_trace w devices c
  = [CallPoll c; Log INFO (disconnected_text c); CallCameraStop c; PoolRemove c]
    ++ match find (fun device => String.eqb (mxid device) (device_mxid c)) devices with
       | Some d => [CallDisconnectCallback d]
       | None => []
       end.
Proof. intros H. unfold poll_trace. now rewrite H. Qed.

Lemma eq_dec_refl {A B} (dec : forall a b : A, {a = b} + {a <> b}) a (x y : B) :
  (if dec a a then x else y) = x.
Proof. destruct (dec a a); congruence. Qed.

Lemma eq_dec_neq {A B} (dec : forall a b : A, {a = b} + {a <> b}) a b (x y : B) :
  a <> b -> (if dec a b then x else y) = y.
Proof. intros H. destruct (dec a b); congruence. Qed.

(** What the trace of a camera holds about a camera [h]. *)
Lemma poll_trace_counts w devices c h :
  count_events (is_poll h) (poll_trace w devices c)
  = (if HubCamera_eq_dec h c then 1 else 0)
  /\ count_events (is_camera_stop h) (poll_trace w devices c)
     = (if HubCamera_eq_dec h c then (if poll_fails w c then 1 else 0) else 0)
  /\ count_events (is_pool_remove h) (poll_trace w devices c)
     = (if HubCamera_eq_dec h c then (if poll_fails w c then 1 else 0) else 0).
Proof.
  unfold poll_trace, count_events.
  destruct (poll_fails w c); cbn [app filter is_poll is_camera_stop is_pool_remove].
  - destruct (find _ devices); cbn [app filter is_poll is_camera_stop is_pool_remove];
      destruct (HubCamera_eq_dec h c); auto.
  - destruct (HubCamera_eq_dec h c); auto.
Qed.

Lemma poll_trace_callbacks w devices c d :
  count_events (is_disconnect_callback d) (poll_trace w devices c)
  = if poll_fails w c
    then match find (fun device => String.eqb (mxid device) (device_mxid c)) devices with
         | Some d' => if Device_eq_dec d d' then 1 else 0
         | None => 0
         end
    else 0.
Proof.
  unfold poll_trace, count_events.
  destruct (poll_fails w c); cbn [app filter is_disconnect_callback]; [|reflexivity].
  destruct (find _ devices) as [d'|]; cbn [app filter is_disconnect_callback]; [|reflexivity].
  destruct (Device_eq_dec d d'); reflexivity.
Qed.

Lemma in_poll_trace_poll w devices c h :
  In (CallPoll h) (poll_trace w devices c) -> h = c.
Proof.
  unfold poll_trace. intros [H|H]; [congruence|].
  destruct (poll_fails w c); [|contradiction].
  destruct H as [H|[H|[H|H]]]; try discriminate H.
  destruct (find _ devices); [destruct H as [H|[]]; discriminate H | contradiction].
Qed.

Lemma NoDup_map_inj {A B} (f : A -> B) l x y :
  NoDup (map f l) -> In x l -> In y l -> f x = f y -> x = y.
Proof.
  induction l as [|a l IH]; simpl; intros Hnd Hx Hy Hf; [contradiction|].
  inversion Hnd as [|? ? Ha Hnd']; subst.
  destruct Hx as [->|Hx], Hy as [->|Hy]; auto.
  - exfalso. apply Ha. rewrite Hf. now apply in_map.
  - exfalso. apply Ha. rewrite <- Hf. now apply in_map.
Qed.

(** C3.  In one pass of the polling loop over a pool of distinct cameras
    (every poll, stop and disconnect callback returns), a camera whose poll
    was called and reported failure is in no pool afterwards; it was polled
    once, stopped once and removed once in that pass; and the device found
    for its mxid, when there is one, has its disconnect callback called,
    exactly once when the cameras of the pool have distinct mxids.  When no
    device is found the camera is evicted all the same and the pass calls no
    callback for it: the trace of the pass is the concatenation of the
    traces [poll_trace] of the cameras polled. *)
Theorem poll_cycle_evicts (w : World) (s : DeviceManager) :
  NoDup (_hub_cameras s) ->
  (forall c, In c (_hub_cameras s) -> exists b, cam_poll w c = Ok b) ->
  (forall c, In c (_hub_cameras s) -> cam_stop w c = Ok tt) ->
  (forall d, In d (_devices s) -> dev_disconnect_callback w d = Ok tt) ->
  let r := poll_cycle w s in
  out r = Ok tt
  /\ evs r = flat_map (poll_trace w (_devices s)) (visited w (_hub_cameras s))
  /\ _hub_cameras (st r) = survivors w (_hub_cameras s)
  /\ forall h, In (CallPoll h) (evs r) -> cam_poll w h = Ok false ->
       In h (_hub_cameras s)
       /\ ~ In h (_hub_cameras (st r))
       /\ count_events (is_poll h) (evs r) = 1
       /\ count_events (is_camera_stop h) (evs r) = 1
       /\ count_events (is_pool_remove h) (evs r) = 1
       /\ poll_trace w (_devices s) h
          = [CallPoll h; Log INFO (disconnected_text h); CallCameraStop h; PoolRemove h]
            ++ match find (fun device => String.eqb (mxid device) (device_mxid h))
                       (_devices s) with
               | Some d => [CallDisconnectCallback d]
               | None => []
               end
       /\ forall d,
            find (fun device => String.eqb (mxid device) (device_mxid h)) (_devices s)
            = Some d ->
            In (CallDisconnectCallback d) (evs r)
            /\ (NoDup (map device_mxid (_hub_cameras s)) ->
                count_events (is_disconnect_callback d) (evs r) = 1).
Proof.
  intros Hnd Hp Hs Hcb r. subst r. rewrite (poll_cycle_eq w s Hnd Hp Hs Hcb).
  cbn [out st evs _hub_cameras set_hub_cameras].
  split; [reflexivity|]. split; [reflexivity|]. split; [reflexivity|].
  intros h Hin Hfail.
  assert (Hf : poll_fails w h = true) by (unfold poll_fails; now rewrite Hfail).
  assert (Hv : In h (visited w (_hub_cameras s))).
  { apply in_flat_map in Hin. destruct Hin as (c & Hc & Hin).
    apply in_poll_trace_poll in Hin. now subst. }
  pose proof (visited_NoDup w _ Hnd) as Hvnd.
  assert (Hcount : forall p,
             (forall y, y <> h -> count_events p (poll_trace w (_devices s) y) = 0) ->
             count_events p (flat_map (poll_trace w (_devices s))
                               (visited w (_hub_cameras s)))
             = count_events p (poll_trace w (_devices s) h)).
  { intros p H0. apply count_events_flat_map_unique; auto. }
  split; [now apply visited_incl in Hv|].
  split; [now apply evicted_not_survivor|].
  split; [|split; [|split; [|split]]].
  - rewrite Hcount.
    + rewrite (proj1 (poll_trace_counts w _ h h)). apply eq_dec_refl.
    + intros y Hne. rewrite (proj1 (poll_trace_counts w _ y h)).
      apply eq_dec_neq. congruence.
  - rewrite Hcount.
    + rewrite (proj1 (proj2 (poll_trace_counts w _ h h))), eq_dec_refl, Hf. reflexivity.
    + intros y Hne. rewrite (proj1 (proj2 (poll_trace_counts w _ y h))).
      apply eq_dec_neq. congruence.
  - rewrite Hcount.
    + rewrite (proj2 (proj2 (poll_trace_counts w _ h h))), eq_dec_refl, Hf. reflexivity.
    + intros y Hne. rewrite (proj2 (proj2 (poll_trace_counts w _ y h))).
      apply eq_dec_neq. congruence.
  - now apply poll_trace_evicted.
  - intros d Hfind. split.
    + apply in_flat_map. exists h. split; [exact Hv|].
      rewrite (poll_trace_evicted _ _ _ Hf), Hfind. apply in_or_app. right. now left.
    + intros Hids.
      assert (Hobs : forall y, In y (visited w (_hub_cameras s)) -> y <> h ->
                count_events (is_disconnect_callback d) (poll_trace w (_devices s) y) = 0).
      { intros y Hy Hne. rewrite poll_trace_callbacks.
        destruct (poll_fails w y); [|reflexivity].
        destruct (find (fun device => String.eqb (mxid device) (device_mxid y))
                    (_devices s)) as [d'|] eqn:Hfy; [|reflexivity].
        destruct (Device_eq_dec d d') as [<-|]; [|reflexivity].
        exfalso. apply Hne.
        apply find_some in Hfy. apply find_some in Hfind.
        destruct Hfy as [_ Hy1], Hfind as [_ Hh1].
        apply String.eqb_eq in Hy1, Hh1.
        apply (NoDup_map_inj device_mxid (_hub_cameras s)); auto.
        - now apply visited_incl in Hy.
        - now apply visited_incl in Hv.
        - congruence. }
      rewrite (count_events_flat_map_unique _ _ _ h Hvnd Hv Hobs).
      rewrite poll_trace_callbacks, Hf, Hfind. apply eq_dec_refl.
Qed.

Lemma poll_cycle_evicts_witness :
  ~ In camera_A (_hub_cameras (st (poll_cycle poll_of_A_fails two_cameras_running)))
  /\ count_events (is_camera_stop camera_A)
       (evs (poll_cycle poll_of_A_fails two_cameras_running)) = 1
  /\ count_events (is_disconnect_callback device_A)
       (evs (poll_cycle poll_of_A_fails two_cameras_running)) = 1.
Proof.
  assert (Hnd : NoDup (_hub_cameras two_cameras_running)).
  { repeat constructor; simpl; intuition discriminate. }
  assert (Hp : forall c, In c (_hub_cameras two_cameras_running) ->
                 exists b, cam_poll poll_of_A_fails c = Ok b).
  { intros c _. eexists. reflexivity. }
  assert (Hs : forall c, In c (_hub_cameras two_cameras_running) ->
                 cam_stop poll_of_A_fails c = Ok tt) by reflexivity.
  assert (Hcb : forall d, In d (_devices two_cameras_running) ->
                  dev_disconnect_callback poll_of_A_fails d = Ok tt) by reflexivity.
  destruct (poll_cycle_evicts poll_of_A_fails two_cameras_running Hnd Hp Hs Hcb)
    as (_ & He & _ & H).
  assert (Hin : In (CallPoll camera_A)
                  (evs (poll_cycle poll_of_A_fails two_cameras_running))).
  { rewrite He. vm_compute. left. reflexivity. }
  assert (Hfail : cam_poll poll_of_A_fails camera_A = Ok false)
    by (vm_compute; reflexivity).
  destruct (H camera_A Hin Hfail) as (_ & Hgone & _ & Hstop & _ & _ & Hcall).
  split; [exact Hgone|]. split; [exact Hstop|].
  assert (Hfind : find (fun device => String.eqb (mxid device) (device_mxid camera_A))
                    (_devices two_cameras_running) = Some device_A)
    by (vm_compute; reflexivity).
  apply (Hcall device_A Hfind).
  repeat constructor; simpl; intuition discriminate.
Defined.

(** ** [_poll]: the camera after an evicted one misses its poll *)

(** C4 (failing input).  The pool holds cameras A and B, and the poll of A
    reports failure.  The pass polls and evicts A and ends: B, which was
    live when the pass began, is not polled in it. *)
Theorem poll_cycle_skips_camera_after_evicted :
  _hub_cameras two_cameras_running = [camera_A; camera_B]
  /\ out (poll_cycle poll_of_A_fails two_cameras_running) = Ok tt
  /\ evs (poll_cycle poll_of_A_fails two_cameras_running)
     = [CallPoll camera_A; Log INFO "Device A: disconnected.";
        CallCameraStop camera_A; PoolRemove camera_A;
        CallDisconnectCallback device_A]
  /\ ~ In (CallPoll camera_B) (evs (poll_cycle poll_of_A_fails two_cameras_running))
  /\ _hub_cameras (st (poll_cycle poll_of_A_fails two_cameras_running)) = [camera_B].
Proof.
  split; [reflexivity|]. split; [vm_compute; reflexivity|].
  assert (He : evs (poll_cycle poll_of_A_fails two_cameras_running)
               = [CallPoll camera_A; Log INFO "Device A: disconnected.";
                  CallCameraStop camera_A; PoolRemove camera_A;
                  CallDisconnectCallback device_A]) by (vm_compute; reflexivity).
  split; [exact He|]. split; [|vm_compute; reflexivity].
  rewrite He. intros [H|[H|[H|[H|[H|[]]]]]]; discriminate H.
Qed.

(** The same in general: of two cameras that follow each other in the
    pool, the second is not polled in the pass that evicts the first. *)
Lemma visited_skips w c c' l :
  poll_fails w c = true -> NoDup (c :: c' :: l) -> ~ In c' (visited w (c :: c' :: l)).
Proof.
  intros Hf Hnd. rewrite visited_two, Hf.
  inversion Hnd as [|? ? Hc Hnd']; subst. inversion Hnd' as [|? ? Hc' _]; subst.
  intros [->|H]; [apply Hc; now left|]. apply visited_incl in H. contradiction.
Qed.

(** ** [_connect]: a start routine that raises *)

Lemma bind_raise {A B} (m : M A) (f : A -> M B) s e s1 e1 :
  m s = mkRun (Raise e) s1 e1 -> bind m f s = mkRun (Raise e) s1 e1.
Proof. intros H. unfold bind. rewrite H. reflexivity. Qed.

Lemma bind_hang {A B} (m : M A) (f : A -> M B) s s1 e1 :
  m s = mkRun Hang s1 e1 -> bind m f s = mkRun Hang s1 e1.
Proof. intros H. unfold bind. rewrite H. reflexivity. Qed.

Lemma fatal_quiet w {A} (r : Run A) :
  (forall d h, ~ In (CallDeviceStart d h) (evs r)) -> start_raise_is_fatal w r.
Proof. intros H d h e Hin. exfalso. exact (H d h Hin). Qed.

Lemma fatal_bind w {A B} (m : M A) (f : A -> M B) s :
  start_raise_is_fatal w (m s) ->
  (forall a s', start_raise_is_fatal w (f a s')) ->
  start_raise_is_fatal w (bind m f s).
Proof.
  intros Hm Hf d h e. unfold bind.
  specialize (Hm d h e). destruct (m s) as [o s1 e1]; cbn [out st evs] in *.
  destruct o as [a|e'|]; cbn [out st evs]; intros Hin Hr.
  - apply in_app_or in Hin. destruct Hin as [Hin|Hin].
    + destruct (Hm Hin Hr) as [Ho _]. discriminate Ho.
    + exact (Hf a s1 d h e Hin Hr).
  - destruct (Hm Hin Hr) as [Ho Hfl]. inversion Ho; subst. auto.
  - destruct (Hm Hin Hr) as [Ho _]. discriminate Ho.
Qed.

(** The connection attempt: what it does when the start routine does not
    return, and which start routine it calls. *)
Lemma connect_device_start w d s :
  let h0 := {| camera_obj := next_obj s; device_mxid := mxid d |} in
  let s0 := set_next_obj (S (next_obj s)) s in
  (forall e, dev_start w d h0 = Raise e ->
     _connect_device w d s
     = mkRun (Raise e) s0 [NewHubCamera h0; CallDeviceStart d h0])
  /\ (forall d' h', In (CallDeviceStart d' h') (evs (_connect_device w d s)) ->
        d' = d /\ h' = h0).
Proof.
  intros h0 s0.
  assert (Hnew : new_HubCamera (mxid d) s = mkRun (Ok h0) s0 [NewHubCamera h0])
    by reflexivity.
  unfold _connect_device. rewrite (bind_ok _ _ _ _ _ _ Hnew). split.
  - intros e He.
    rewrite (bind_raise _ _ s0 e s0 [CallDeviceStart d h0])
      by (unfold call; now rewrite He).
    reflexivity.
  - intros d' h'. cbn [evs]. unfold bind, call, pool_append, emit, modify.
    destruct (dev_start w d h0) as [[|]|e|]; cbn [out st evs negb app];
      [destruct (cam_start w h0); cbn [out st evs app];
       [destruct (dev_connect_callback w d h0); cbn [out st evs app]| |]
      | destruct (cam_stop w h0); cbn [out st evs app] | | ];
      intros Hin; repeat (destruct Hin as [Hin|Hin]; [inversion Hin; auto|]);
      contradiction.
Qed.

Lemma keeps_flag_connect_device w d : keeps connecting_to_device (_connect_device w d).
Proof. unfold _connect_device, new_HubCamera, pool_append. keeps_all. Qed.

Lemma fatal_connect_if_missing w mxids d s :
  start_raise_is_fatal w (connect_if_missing w mxids d s).
Proof.
  unfold connect_if_missing. destruct (negb _).
  - rewrite (bind_ok _ _ s tt (set_connecting_to_device true s) []) by reflexivity.
    set (s1 := set_connecting_to_device true s).
    pose proof (connect_device_start w d s1) as [Hraise Honly].
    pose proof (keeps_flag_connect_device w d s1) as Hflag.
    intros d' h' e. cbn [out st evs app].
    unfold bind, modify.
    destruct (_connect_device w d s1) as [o s2 e2] eqn:Hrun; cbn [out st evs] in *.
    assert (Hev : forall s3 (e3 : list Event),
               (In (CallDeviceStart d' h') e3 -> False) ->
               In (CallDeviceStart d' h') (e2 ++ e3) ->
               dev_start w d' h' = Raise e ->
               o = Raise e /\ s2 = s3 -> o = Raise e /\ connecting_to_device s2 = true).
    { intros s3 e3 _ _ _ [Ho _]. split; [exact Ho | exact Hflag]. }
    assert (Hkey : In (CallDeviceStart d' h') e2 -> dev_start w d' h' = Raise e ->
                   o = Raise e /\ connecting_to_device s2 = true).
    { intros Hin Hr. destruct (Honly d' h' Hin) as [-> ->].
      specialize (Hraise e Hr). inversion Hraise; subst. split; [reflexivity | exact Hflag]. }
    destruct o as [[]|e'|]; cbn [out st evs]; intros Hin Hr.
    + rewrite app_nil_r in Hin. destruct (Hkey Hin Hr) as [Ho _]. discriminate Ho.
    + exact (Hkey Hin Hr).
    + exact (Hkey Hin Hr).
  - apply fatal_quiet. intros d' h' [].
Qed.

Lemma fatal_for_from w {A} (lst : DeviceManager -> list A) body :
  (forall x s, start_raise_is_fatal w (body x s)) ->
  forall fuel i s, start_raise_is_fatal w (for_from fuel lst body i s).
Proof.
  intros Hb fuel. induction fuel as [|fuel IH]; intros i s; cbn [for_from].
  - apply fatal_quiet. intros d h [].
  - apply fatal_bind.
    + unfold for_step. destruct (nth_error (lst s) i) as [x|].
      * apply fatal_bind; [apply Hb|]. intros a s'. apply fatal_quiet. intros d h [].
      * apply fatal_quiet. intros d h [].
    + intros [j|] s'; [apply IH|]. apply fatal_quiet. intros d h [].
Qed.

Lemma stop_event_wait_run w t s :
  exists s', stop_event_wait w t s = mkRun (Ok (stop_event s)) s' [Wait t]
             /\ _hub_cameras s' = _hub_cameras s
             /\ connecting_to_device s' = connecting_to_device s
             /\ running s' = running s.
Proof.
  unfold stop_event_wait, bind, emit, gets, modify, ret. cbn [out st evs].
  destruct (stop_event s); cbn [out st evs app]; eexists; repeat split.
Qed.

Lemma fatal_connect_cycle w s : start_raise_is_fatal w (connect_cycle w s).
Proof.
  unfold connect_cycle.
  repeat (apply fatal_bind; [apply fatal_quiet; intros d h [] | intros ? ?]).
  destruct (_ || _).
  - apply fatal_bind; [|intros; apply fatal_quiet; intros d h []].
    match goal with
    | |- start_raise_is_fatal _ (stop_event_wait _ _ ?sx) =>
        destruct (stop_event_wait_run w (seconds 5) sx) as (s1 & Hw & _)
    end.
    rewrite Hw. apply fatal_quiet. intros d h [H|[]]. discriminate H.
  - unfold for_in. apply fatal_for_from. intros x s2. apply fatal_connect_if_missing.
Qed.

Lemma fatal_connect w fuel : forall s, start_raise_is_fatal w (_connect w fuel s).
Proof.
  unfold _connect. induction fuel as [|fuel IH]; intros s; cbn [while_running].
  - apply fatal_quiet. intros d h [].
  - apply fatal_bind; [apply fatal_quiet; intros d h []|].
    intros [|] s'.
    + apply fatal_bind; [apply fatal_connect_cycle | intros; apply IH].
    + apply fatal_quiet. intros d h [].
Qed.

(** With [connecting_to_device] set, a pass of the connection loop only
    waits. *)
Lemma connect_cycle_busy w s :
  connecting_to_device s = true ->
  exists s', connect_cycle w s = mkRun (Ok tt) s' [Wait (seconds 5)]
             /\ _hub_cameras s' = _hub_cameras s
             /\ connecting_to_device s' = true.
Proof.
  intros Hflag. unfold connect_cycle.
  rewrite (bind_ok _ _ s (_hub_cameras s) s []) by reflexivity.
  rewrite (bind_ok _ _ s (_devices s) s []) by reflexivity.
  rewrite (bind_ok _ _ s (connecting_to_device s) s []) by reflexivity.
  rewrite Hflag, orb_true_r.
  destruct (stop_event_wait_run w (seconds 5) s) as (s1 & Hw & Hpool & Hf & _).
  rewrite (bind_ok _ _ _ _ _ _ Hw). cbn.
  exists s1. repeat split; congruence.
Qed.

Lemma connect_latched w fuel : forall s,
  connecting_to_device s = true ->
  Forall (fun ev => ev = Wait (seconds 5)) (evs (_connect w fuel s))
  /\ _hub_cameras (st (_connect w fuel s)) = _hub_cameras s
  /\ connecting_to_device (st (_connect w fuel s)) = true.
Proof.
  unfold _connect. induction fuel as [|fuel IH]; intros s Hflag; cbn [while_running].
  - cbn. auto.
  - rewrite (bind_ok _ _ s (running s) s []) by reflexivity.
    destruct (running s); [|cbn; auto].
    destruct (connect_cycle_busy w s Hflag) as (s1 & Hc & Hpool & Hf).
    rewrite (bind_ok _ _ _ _ _ _ Hc). cbn [out st evs app].
    destruct (IH s1 Hf) as (Hev & Hp & Hfl).
    split; [constructor; [reflexivity | exact Hev]|].
    split; [congruence | exact Hfl].
Qed.

(** C9.  When a start routine called by the connection loop raises, the
    loop ends with that exception and [connecting_to_device] stays set; from
    the state it leaves, whatever the devices do from then on and however
    many passes a connection loop makes, every pass only waits: no camera
    is made, no start routine is called, the pool stays as it is. *)
Theorem connect_start_raise_latches_flag (w : World) (fuel : nat) (s : DeviceManager)
    (d : Device) (h : HubCamera) (e : PyExn) :
  In (CallDeviceStart d h) (evs (_connect w fuel s)) ->
  dev_start w d h = Raise e ->
  out (_connect w fuel s) = Raise e
  /\ connecting_to_device (st (_connect w fuel s)) = true
  /\ forall w' fuel',
       let r' := _connect w' fuel' (st (_connect w fuel s)) in
       Forall (fun ev => ev = Wait (seconds 5)) (evs r')
       /\ (forall d' h', ~ In (CallDeviceStart d' h') (evs r'))
       /\ (forall h', ~ In (NewHubCamera h') (evs r'))
       /\ _hub_cameras (st r') = _hub_cameras (st (_connect w fuel s)).
Proof.
  intros Hin Hraise.
  destruct (fatal_connect w fuel s d h e Hin Hraise) as [Ho Hflag].
  split; [exact Ho|]. split; [exact Hflag|].
  intros w' fuel' r'. subst r'.
  destruct (connect_latched w' fuel' _ Hflag) as (Hev & Hpool & _).
  split; [exact Hev|]. split; [|split; [|exact Hpool]].
  - intros d' h' H. rewrite Forall_forall in Hev. apply Hev in H. discriminate H.
  - intros h' H. rewrite Forall_forall in Hev. apply Hev in H. discriminate H.
Qed.

Lemma connect_start_raise_latches_flag_witness :
  out (_connect start_of_A_raises 3 one_device_started)
  = Raise (mkExn RuntimeError "Failed to find device" [])
  /\ connecting_to_device (st (_connect start_of_A_raises 3 one_device_started)) = true
  /\ evs (_connect calm_world 2 (st (_connect start_of_A_raises 3 one_device_started)))
     = [Wait (seconds 5); Wait (seconds 5)].
Proof.
  assert (Hin : In (CallDeviceStart device_A camera_A)
                  (evs (_connect start_of_A_raises 3 one_device_started)))
    by (vm_compute; right; left; reflexivity).
  assert (Hraise : dev_start start_of_A_raises device_A camera_A
                   = Raise (mkExn RuntimeError "Failed to find device" []))
    by (vm_compute; reflexivity).
  destruct (connect_start_raise_latches_flag start_of_A_raises 3 one_device_started
              device_A camera_A _ Hin Hraise) as (Ho & Hflag & _).
  split; [exact Ho|]. split; [exact Hflag|]. vm_compute. reflexivity.
Defined.

(** ** [start]: the wait for a first device *)

Lemma arrivals_nil w a b :
  (forall t d, In (t, d) (concurrent_adds w) -> ~ (a < t <= b)%Z) ->
  arrivals w a b = [].
Proof.
  unfold arrivals. induction (concurrent_adds w) as [|[t d] l IH]; intros H; simpl.
  - reflexivity.
  - destruct ((a <? t)%Z && (t <=? b)%Z) eqn:Hc.
    + exfalso. apply (H t d); [now left|]. apply andb_true_iff in Hc.
      destruct Hc as [H1 H2]. apply Z.ltb_lt in H1. apply Z.leb_le in H2. lia.
    + apply IH. intros t' d' Hin. apply (H t' d'). now right.
Qed.

Lemma arrivals_in w a b t d :
  In (t, d) (concurrent_adds w) -> (a < t <= b)%Z -> In d (arrivals w a b).
Proof.
  intros Hin Hr. unfold arrivals. apply in_map_iff. exists (t, d). split; [reflexivity|].
  apply filter_In. split; [exact Hin|]. simpl.
  apply andb_true_iff. split; [apply Z.ltb_lt | apply Z.leb_le]; lia.
Qed.

Lemma stop_event_wait_sleeps w t s :
  stop_event s = false ->
  stop_event_wait w t s = mkRun (Ok false) (after_wait w t s) [Wait t].
Proof.
  intros H. unfold stop_event_wait.
  rewrite (bind_ok _ _ s tt s [Wait t]) by reflexivity.
  rewrite (bind_ok _ _ s false s []) by (unfold gets; now rewrite H).
  reflexivity.
Qed.

Lemma start_gate_waits w fuel s :
  running s = true -> _devices s = [] -> stop_event s = false ->
  start_gate w (S fuel) s
  = mkRun (out (start_gate w fuel (after_wait w (seconds 5) s)))
          (st (start_gate w fuel (after_wait w (seconds 5) s)))
          (Wait (seconds 5) :: evs (start_gate w fuel (after_wait w (seconds 5) s))).
Proof.
  intros Hr Hd Hs. cbn [start_gate].
  rewrite (bind_ok _ _ s true s []) by (unfold gets; now rewrite Hr).
  rewrite (bind_ok _ _ s [] s []) by (unfold gets; now rewrite Hd).
  rewrite (bind_ok _ _ _ _ _ _ (stop_event_wait_sleeps w _ s Hs)).
  reflexivity.
Qed.

Lemma start_gate_goes w fuel s :
  running s = true -> _devices s <> [] ->
  start_gate w (S fuel) s = mkRun (Ok tt) s [].
Proof.
  intros Hr Hd. cbn [start_gate].
  rewrite (bind_ok _ _ s true s []) by (unfold gets; now rewrite Hr).
  rewrite (bind_ok _ _ s (_devices s) s []) by reflexivity.
  destruct (_devices s); [congruence | reflexivity].
Qed.

Lemma five_seconds : seconds 5 = 5000000%Z.
Proof. reflexivity. Qed.

(** While nobody adds a device, [start] stays in its wait. *)
Lemma start_gate_blocked w fuel : forall s,
  running s = true -> _devices s = [] -> stop_event s = false ->
  (forall t d, In (t, d) (concurrent_adds w) ->
     (clock s + seconds 5 * Z.of_nat fuel < t)%Z) ->
  out (start_gate w fuel s) = Hang
  /\ evs (start_gate w fuel s) = repeat (Wait (seconds 5)) fuel
  /\ (forall t, thread_status t (st (start_gate w fuel s)) = thread_status t s).
Proof.
  induction fuel as [|fuel IH]; intros s Hr Hd Hs Hadds.
  - cbn. auto.
  - rewrite (start_gate_waits w fuel s Hr Hd Hs). cbn [out st evs].
    assert (Harr : arrivals w (clock s) (clock s + seconds 5) = []).
    { apply arrivals_nil. intros t d Hin. specialize (Hadds t d Hin).
      rewrite five_seconds in *. lia. }
    destruct (IH (after_wait w (seconds 5) s)) as (Ho & He & Ht).
    + exact Hr.
    + unfold after_wait. cbn [_devices set_devices]. rewrite Hd, Harr. reflexivity.
    + exact Hs.
    + intros t d Hin. specialize (Hadds t d Hin). unfold after_wait. cbn [clock set_devices set_clock].
      rewrite five_seconds in *. lia.
    + split; [exact Ho|]. split; [cbn [repeat]; now rewrite He|].
      intros t. rewrite Ht. destruct t; reflexivity.
Qed.

(** The first device is added during the wait number [k + 1]: [start] is
    through at the end of that wait. *)
Lemma start_gate_released w t d : forall k fuel s,
  running s = true -> _devices s = [] -> stop_event s = false ->
  In (t, d) (concurrent_adds w) ->
  (forall t' d', In (t', d') (concurrent_adds w) -> (t <= t')%Z) ->
  (clock s + seconds 5 * Z.of_nat k < t <= clock s + seconds 5 * (Z.of_nat k + 1))%Z ->
  k + 1 < fuel ->
  out (start_gate w fuel s) = Ok tt
  /\ evs (start_gate w fuel s) = repeat (Wait (seconds 5)) (S k)
  /\ clock (st (start_gate w fuel s)) = (clock s + seconds 5 * (Z.of_nat k + 1))%Z
  /\ In d (_devices (st (start_gate w fuel s)))
  /\ (forall n, thread_status n (st (start_gate w fuel s)) = thread_status n s).
Proof.
  induction k as [|k IH]; intros fuel s Hr Hd Hs Hin Hfirst Ht Hfuel.
  - destruct fuel as [|[|fuel]]; try lia.
    rewrite (start_gate_waits w _ s Hr Hd Hs). cbn [out st evs].
    assert (Hd1 : In d (_devices (after_wait w (seconds 5) s))).
    { unfold after_wait. cbn [_devices set_devices]. apply in_or_app. right.
      apply (arrivals_in w _ _ t d Hin). rewrite five_seconds in *. lia. }
    rewrite start_gate_goes.
    + cbn [out st evs repeat]. split; [reflexivity|]. split; [reflexivity|].
      split; [unfold after_wait; cbn [clock set_devices set_clock]; rewrite five_seconds; lia|].
      split; [exact Hd1|]. intros n. destruct n; reflexivity.
    + exact Hr.
    + intros H. rewrite H in Hd1. contradiction.
  - destruct fuel as [|fuel]; try lia.
    rewrite (start_gate_waits w _ s Hr Hd Hs). cbn [out st evs].
    assert (Harr : arrivals w (clock s) (clock s + seconds 5) = []).
    { apply arrivals_nil. intros t' d' Hin'. specialize (Hfirst t' d' Hin').
      rewrite five_seconds in *. lia. }
    destruct (IH fuel (after_wait w (seconds 5) s)) as (Ho & He & Hc & Hdev & Hth).
    + exact Hr.
    + unfold after_wait. cbn [_devices set_devices]. rewrite Hd, Harr. reflexivity.
    + exact Hs.
    + exact Hin.
    + exact Hfirst.
    + unfold after_wait. cbn [clock set_devices set_clock]. rewrite five_seconds in *. lia.
    + lia.
    + split; [exact Ho|]. split; [cbn [repeat]; now rewrite He|].
      split; [rewrite Hc; unfold after_wait; cbn [clock set_devices set_clock];
              rewrite five_seconds; lia|].
      split; [exact Hdev|]. intros n. rewrite Hth. destruct n; reflexivity.
Qed.

Lemma thread_start_created t s :
  thread_status t s = Created ->
  thread_start t s = mkRun (Ok tt) (set_thread t Alive s) [ThreadStart t].
Proof.
  intros H. unfold thread_start.
  rewrite (bind_ok _ _ s Created s []) by (unfold gets; now rewrite H).
  reflexivity.
Qed.

Lemma start_hangs_in_gate w fuel s :
  out (start_gate w fuel (set_running true s)) = Hang ->
  start w fuel s
  = mkRun Hang (st (start_gate w fuel (set_running true s)))
      (evs (start_gate w fuel (set_running true s))).
Proof.
  intros H. unfold start.
  rewrite (bind_ok _ _ s tt (set_running true s) []) by reflexivity.
  destruct (start_gate w fuel (set_running true s)) as [o s1 e1] eqn:Hg.
  cbn [out st evs] in *. subst o. rewrite (bind_hang _ _ _ _ _ Hg). reflexivity.
Qed.

Lemma start_launches_after_gate w fuel s :
  out (start_gate w fuel (set_running true s)) = Ok tt ->
  (forall t, thread_status t (st (start_gate w fuel (set_running true s))) = Created) ->
  start w fuel s
  = mkRun (Ok tt) (launched (st (start_gate w fuel (set_running true s))))
      (evs (start_gate w fuel (set_running true s)) ++ launch_events).
Proof.
  intros H Hth. unfold start.
  rewrite (bind_ok _ _ s tt (set_running true s) []) by reflexivity.
  destruct (start_gate w fuel (set_running true s)) as [o s1 e1] eqn:Hg.
  cbn [out st evs] in *. subst o. rewrite (bind_ok _ _ _ _ _ _ Hg).
  rewrite (bind_ok _ _ _ _ _ _ (thread_start_created ConnectionThread s1
                                  (Hth ConnectionThread))).
  set (s2 := set_thread ConnectionThread Alive s1).
  rewrite (bind_ok _ _ s2 tt s2
             [Log INFO "Device connection thread: started successfully."])
    by reflexivity.
  assert (Hr : thread_status ReportingThread s2 = Created) by exact (Hth ReportingThread).
  rewrite (bind_ok _ _ _ _ _ _ (thread_start_created ReportingThread s2 Hr)).
  set (s3 := set_thread ReportingThread Alive s2).
  rewrite (bind_ok _ _ s3 tt s3 [Log INFO "Reporting thread: started successfully."])
    by reflexivity.
  assert (Hp : thread_status PollingThread s3 = Created) by exact (Hth PollingThread).
  rewrite (bind_ok _ _ _ _ _ _ (thread_start_created PollingThread s3 Hp)).
  reflexivity.
Qed.

(** C8.  [start] on a manager with an empty registry, whose threads have
    not been started and whose stop event is not set.  As long as no other
    thread adds a device, [start] stays in its wait of 5 s after 5 s and
    starts no thread.  When the first device is added at time [t], during
    the wait number [k + 1], [start] is through at the end of that wait,
    less than 5 s after [t], and then starts the connection thread, the
    reporting thread and the polling thread, in this order. *)
Theorem start_waits_for_first_device (w : World) (fuel : nat) (s : DeviceManager) :
  _devices s = [] -> stop_event s = false ->
  (forall n, thread_status n s = Created) ->
  ((forall t d, In (t, d) (concurrent_adds w) ->
      (clock s + seconds 5 * Z.of_nat fuel < t)%Z) ->
   out (start w fuel s) = Hang
   /\ evs (start w fuel s) = repeat (Wait (seconds 5)) fuel
   /\ (forall n, ~ In (ThreadStart n) (evs (start w fuel s)))
   /\ (forall n, thread_status n (st (start w fuel s)) = Created))
  /\ (forall t d k,
        In (t, d) (concurrent_adds w) ->
        (forall t' d', In (t', d') (concurrent_adds w) -> (t <= t')%Z) ->
        (clock s + seconds 5 * Z.of_nat k < t
         <= clock s + seconds 5 * (Z.of_nat k + 1))%Z ->
        k + 1 < fuel ->
        out (start w fuel s) = Ok tt
        /\ evs (start w fuel s) = repeat (Wait (seconds 5)) (S k) ++ launch_events
        /\ (t <= clock (st (start w fuel s)) < t + seconds 5)%Z
        /\ In d (_devices (st (start w fuel s)))
        /\ (forall n, thread_status n (st (start w fuel s)) = Alive)).
Proof.
  intros Hd Hs Hth. split.
  - intros Hadds.
    destruct (start_gate_blocked w fuel (set_running true s) eq_refl Hd Hs Hadds)
      as (Ho & He & Ht).
    rewrite (start_hangs_in_gate w fuel s Ho). cbn [out st evs].
    split; [reflexivity|]. split; [exact He|]. split.
    + intros n Hin. rewrite He in Hin. apply repeat_spec in Hin. discriminate Hin.
    + intros n. rewrite Ht. destruct n; [exact (Hth ConnectionThread) | exact (Hth ReportingThread) | exact (Hth PollingThread)].
  - intros t d k Hin Hfirst Ht Hfuel.
    destruct (start_gate_released w t d k fuel (set_running true s) eq_refl Hd Hs
                Hin Hfirst Ht Hfuel) as (Ho & He & Hc & Hdev & Htg).
    rewrite (start_launches_after_gate w fuel s Ho).
    + cbn [out st evs]. split; [reflexivity|]. split; [now rewrite He|].
      split; [|split; [exact Hdev|intros n; destruct n; reflexivity]].
      change (clock (launched (st (start_gate w fuel (set_running true s)))))
        with (clock (st (start_gate w fuel (set_running true s)))).
      rewrite Hc. cbn [clock set_running]. rewrite five_seconds in *. lia.
    + intros n. rewrite Htg. destruct n; [exact (Hth ConnectionThread) | exact (Hth ReportingThread) | exact (Hth PollingThread)].
Qed.

Lemma start_waits_for_first_device_witness :
  out (start calm_world 4 DEVICE_MANAGER) = Hang
  /\ evs (start A_added_after_12s 5 DEVICE_MANAGER)
     = repeat (Wait (seconds 5)) 3 ++ launch_events
  /\ (seconds 12 <= clock (st (start A_added_after_12s 5 DEVICE_MANAGER))
      < seconds 12 + seconds 5)%Z.
Proof.
  assert (Hth : forall n, thread_status n DEVICE_MANAGER = Created)
    by (intros []; reflexivity).
  split.
  - apply (proj1 (start_waits_for_first_device calm_world 4 DEVICE_MANAGER
                    eq_refl eq_refl Hth)).
    intros t d [].
  - destruct (proj2 (start_waits_for_first_device A_added_after_12s 5 DEVICE_MANAGER
                       eq_refl eq_refl Hth) (seconds 12) device_A 2)
      as (_ & He & Hc & _).
    + left. reflexivity.
    + intros t' d' [H|[]]. inversion H; subst. apply Z.le_refl.
    + vm_compute. split; [reflexivity | discriminate].
    + lia.
    + split; [exact He | exact Hc].
Defined.

(** With a device in the registry [start] does not wait. *)
Lemma start_with_devices w fuel s :
  _devices s <> [] -> (forall n, thread_status n s = Created) ->
  out (start w (S fuel) s) = Ok tt /\ evs (start w (S fuel) s) = launch_events.
Proof.
  intros Hd Hth.
  assert (Hg : start_gate w (S fuel) (set_running true s)
               = mkRun (Ok tt) (set_running true s) [])
    by (apply start_gate_goes; [reflexivity | exact Hd]).
  rewrite start_launches_after_gate; rewrite Hg; cbn [out st evs]; auto.
Qed.

(** ** The pool and the registry over all interleavings *)

Lemma st_bind_keeps {A B C} (g : DeviceManager -> C) (m : M A) (f : A -> M B) s :
  (forall a, keeps g (f a)) -> g (st (bind m f s)) = g (st (m s)).
Proof.
  intros Hk. unfold bind. destruct (m s) as [o s1 e1]; cbn [out st evs].
  destruct o; cbn [st]; try reflexivity. apply Hk.
Qed.

Lemma stop_event_wait_set w t s :
  stop_event s = true -> stop_event_wait w t s = mkRun (Ok true) s [Wait t].
Proof.
  intros H. unfold stop_event_wait.
  rewrite (bind_ok _ _ s tt s [Wait t]) by reflexivity.
  rewrite (bind_ok _ _ s true s []) by (unfold gets; now rewrite H).
  reflexivity.
Qed.


Lemma keeps_devices_connect_device w d : keeps _devices (_connect_device w d).
Proof. unfold _connect_device, new_HubCamera, pool_append. keeps_all. Qed.

(** A connection attempt leaves the pool as it was or appends the camera it
    made for the device. *)
Lemma connect_device_pool w d s :
  _hub_cameras (st (_connect_device w d s)) = _hub_cameras s
  \/ _hub_cameras (st (_connect_device w d s))
     = _hub_cameras s ++ [{| camera_obj := next_obj s; device_mxid := mxid d |}].
Proof.
  set (h0 := {| camera_obj := next_obj s; device_mxid := mxid d |}).
  set (s0 := set_next_obj (S (next_obj s)) s).
  assert (Hnew : new_HubCamera (mxid d) s = mkRun (Ok h0) s0 [NewHubCamera h0])
    by reflexivity.
  unfold _connect_device. rewrite (bind_ok _ _ _ _ _ _ Hnew). cbn [st].
  unfold bind, call, pool_append, emit, modify.
  destruct (dev_start w d h0) as [[|]|e|]; cbn [out st evs negb];
    [destruct (cam_start w h0); cbn [out st evs];
     [destruct (dev_connect_callback w d h0); cbn [out st evs]| |]
    | destruct (cam_stop w h0); cbn [out st evs] | | ]; auto.
Qed.



Lemma keeps_pool_after_remove w c :
  keeps _hub_cameras
    (device <- _get_device_by_mxid (device_mxid c) ;;
     match device with
     | Some device =>
         call (CallDisconnectCallback device) (dev_disconnect_callback w device)
     | None => ret tt
     end).
Proof. unfold _get_device_by_mxid. keeps_all. Qed.

(** A turn of the polling loop leaves the pool as it was or takes the
    camera it polled out of it. *)
Lemma poll_camera_pool w c s :
  _hub_cameras (st (poll_camera w c s)) = _hub_cameras s
  \/ exists l1 l2, _hub_cameras s = l1 ++ c :: l2
                   /\ _hub_cameras (st (poll_camera w c s)) = l1 ++ l2.
Proof.
  unfold poll_camera.
  destruct (cam_poll w c) as [[|]|e|] eqn:Hp.
  - rewrite (bind_ok _ _ s true s [CallPoll c]) by reflexivity.
    now left.
  - rewrite (bind_ok _ _ s false s [CallPoll c]) by reflexivity.
    cbn [st negb]. unfold _disconnect_camera.
    rewrite (bind_ok _ _ s tt s [Log INFO (disconnected_text c)]) by reflexivity.
    cbn [st].
    destruct (cam_stop w c) as [[]|e|] eqn:Hs.
    + rewrite (bind_ok _ _ s tt s [CallCameraStop c]) by reflexivity.
      cbn [st].
      destruct (list_remove HubCamera_eq_dec c (_hub_cameras s)) as [l'|] eqn:Hrm.
      * assert (Hpr : pool_remove c s
                      = mkRun (Ok tt) (set_hub_cameras l' s) [PoolRemove c]).
        { unfold pool_remove.
          rewrite (bind_ok _ _ s (_hub_cameras s) s []) by reflexivity.
          rewrite Hrm. reflexivity. }
        rewrite (bind_ok _ _ _ _ _ _ Hpr). cbn [st].
        rewrite (keeps_pool_after_remove w c (set_hub_cameras l' s)).
        right. destruct (list_remove_Some _ _ _ _ Hrm) as (l1 & l2 & H1 & _ & H2).
        exists l1, l2. split; [exact H1 | exact H2].
      * assert (Hpr : pool_remove c s = mkRun (Raise ValueError_not_in_list) s []).
        { unfold pool_remove.
          rewrite (bind_ok _ _ s (_hub_cameras s) s []) by reflexivity.
          rewrite Hrm. reflexivity. }
        rewrite (bind_raise _ _ _ _ _ _ Hpr). now left.
    + rewrite (bind_raise _ _ s e s [CallCameraStop c]) by reflexivity.
      now left.
    + rewrite (bind_hang _ _ s s [CallCameraStop c]) by reflexivity.
      now left.
  - rewrite (bind_raise _ _ s e s [CallPoll c]) by reflexivity.
    now left.
  - rewrite (bind_hang _ _ s s [CallPoll c]) by reflexivity.
    now left.
Qed.








Lemma lists_invariant_scan_begins devices pool sc :
  lists_invariant devices pool sc ->
  lists_invariant devices pool (Some (map device_mxid pool, 0)).
Proof.
  intros (Hd & Hp & Hincl & _). repeat split; auto.
Qed.




Lemma for_step_none {A} (lst : DeviceManager -> list A) body i s :
  nth_error (lst s) i = None -> for_step lst body i s = mkRun (Ok None) s [].
Proof. intros H. unfold for_step. now rewrite H. Qed.

Lemma for_step_some {A} (lst : DeviceManager -> list A) body i s x :
  nth_error (lst s) i = Some x ->
  st (for_step lst body i s) = st (body x s)
  /\ (out (for_step lst body i s) = Ok (Some (S i))
      \/ (exists e, out (for_step lst body i s) = Raise e)
      \/ out (for_step lst body i s) = Hang).
Proof.
  intros H. unfold for_step. rewrite H. unfold bind, ret.
  destruct (body x s) as [o s1 e1]; cbn [out st evs].
  destruct o; cbn [out st]; eauto.
Qed.








Lemma reachable_run allowed actions : forall sys,
  reachable allowed sys ->
  (forall sys' a, allowed sys' a) ->
  reachable allowed (run actions sys).
Proof.
  induction actions as [|a actions IH]; intros sys Hr Hall; cbn.
  - exact Hr.
  - apply IH; [|exact Hall]. apply reachable_step; [exact Hr | apply Hall].
Qed.





(** ** The cameras of the pool are distinct objects *)

Lemma objects_invariant_frame m m' :
  _hub_cameras m' = _hub_cameras m -> next_obj m <= next_obj m' ->
  objects_invariant m -> objects_invariant m'.
Proof.
  intros Hp Hn [Hnd Hlt]. split; rewrite Hp; [exact Hnd|].
  intros c Hc. specialize (Hlt c Hc). lia.
Qed.

Lemma objects_invariant_shrink m m' l1 c l2 :
  _hub_cameras m = l1 ++ c :: l2 -> _hub_cameras m' = l1 ++ l2 ->
  next_obj m <= next_obj m' ->
  objects_invariant m -> objects_invariant m'.
Proof.
  intros H1 H2 Hn [Hnd Hlt]. rewrite H1 in *. split; rewrite H2.
  - rewrite map_app in *. simpl in Hnd. now apply NoDup_remove_1 in Hnd.
  - intros x Hx. assert (Hin : In x (l1 ++ c :: l2)).
    { apply in_app_or in Hx. apply in_or_app. simpl. tauto. }
    specialize (Hlt x Hin). lia.
Qed.

Lemma objects_invariant_grow m m' d :
  _hub_cameras m'
  = _hub_cameras m ++ [{| camera_obj := next_obj m; device_mxid := mxid d |}] ->
  next_obj m < next_obj m' ->
  objects_invariant m -> objects_invariant m'.
Proof.
  intros Hp Hn [Hnd Hlt]. split; rewrite Hp.
  - rewrite map_app. simpl. apply NoDup_app; [exact Hnd | repeat constructor; auto |].
    intros x Hx [<-|[]]. apply in_map_iff in Hx. destruct Hx as (c & Hc & Hin).
    specialize (Hlt c Hin). lia.
  - intros c Hc. apply in_app_or in Hc. destruct Hc as [Hc|[<-|[]]].
    + specialize (Hlt c Hc). lia.
    + simpl. exact Hn.
Qed.

Lemma connect_device_next_obj w d s :
  next_obj (st (_connect_device w d s)) = S (next_obj s).
Proof.
  set (h0 := {| camera_obj := next_obj s; device_mxid := mxid d |}).
  set (s0 := set_next_obj (S (next_obj s)) s).
  assert (Hnew : new_HubCamera (mxid d) s = mkRun (Ok h0) s0 [NewHubCamera h0])
    by reflexivity.
  unfold _connect_device. rewrite (bind_ok _ _ _ _ _ _ Hnew). cbn [st].
  transitivity (next_obj s0); [|reflexivity]. generalize s0.
  match goal with
  | |- forall x, _ (st (?rest x)) = _ => change (keeps next_obj rest)
  end.
  unfold pool_append. keeps_all.
Qed.

Lemma objects_invariant_connect_device w d s :
  objects_invariant s -> objects_invariant (st (_connect_device w d s)).
Proof.
  intros Hinv. pose proof (connect_device_next_obj w d s) as Hn.
  destruct (connect_device_pool w d s) as [Hp|Hp].
  - apply (objects_invariant_frame s); auto. lia.
  - apply (objects_invariant_grow s _ d); auto. lia.
Qed.

Lemma objects_invariant_connect_if_missing w mxids d s :
  objects_invariant s -> objects_invariant (st (connect_if_missing w mxids d s)).
Proof.
  intros Hinv. unfold connect_if_missing. destruct (negb _); [|exact Hinv].
  rewrite (bind_ok _ _ s tt (set_connecting_to_device true s) []) by reflexivity.
  cbn [st].
  assert (H1 : objects_invariant (st (_connect_device w d (set_connecting_to_device true s))))
    by (apply objects_invariant_connect_device; exact Hinv).
  revert H1. apply objects_invariant_frame.
  - apply st_bind_keeps. intros. apply keeps_modify. reflexivity.
  - rewrite (st_bind_keeps next_obj) by (intros; apply keeps_modify; reflexivity). lia.
Qed.

Lemma keeps_next_obj_poll_camera w c : keeps next_obj (poll_camera w c).
Proof.
  unfold poll_camera, _disconnect_camera, pool_remove, _get_device_by_mxid. keeps_all.
Qed.

Lemma objects_invariant_poll_camera w c s :
  objects_invariant s -> objects_invariant (st (poll_camera w c s)).
Proof.
  intros Hinv. pose proof (keeps_next_obj_poll_camera w c s) as Hn.
  destruct (poll_camera_pool w c s) as [Hp|(l1 & l2 & H1 & H2)].
  - apply (objects_invariant_frame s); auto. lia.
  - apply (objects_invariant_shrink s _ l1 c l2); auto. lia.
Qed.

Lemma keeps_next_obj_stop_event_wait w t : keeps next_obj (stop_event_wait w t).
Proof. unfold stop_event_wait. keeps_all. Qed.

Lemma keeps_pool_stop_event_wait w t : keeps _hub_cameras (stop_event_wait w t).
Proof. unfold stop_event_wait. keeps_all. Qed.

Lemma keeps_start_gate {B} (g : DeviceManager -> B) w fuel :
  (forall t, keeps g (stop_event_wait w t)) -> keeps g (start_gate w fuel).
Proof.
  intros Hw. induction fuel as [|fuel IH]; cbn [start_gate]; keeps_all; auto.
Qed.

Lemma keeps_start {B} (g : DeviceManager -> B) w fuel :
  (forall t, keeps g (stop_event_wait w t)) ->
  (forall b s, g (set_running b s) = g s) ->
  (forall t v s, g (set_thread t v s) = g s) ->
  keeps g (start w fuel).
Proof.
  intros Hw Hr Ht. unfold start, thread_start.
  apply keeps_bind; [apply keeps_modify; intros; apply Hr | intros ?].
  apply keeps_bind; [now apply keeps_start_gate | intros ?].
  repeat (first [ apply keeps_modify; intros; apply Ht | keeps_step ]).
Qed.

Lemma objects_invariant_exec a sys :
  objects_invariant (manager sys) -> objects_invariant (manager (exec a sys)).
Proof.
  intros Hinv. destruct a as [d|d|w|w|w]; cbn [exec manager].
  - revert Hinv. apply objects_invariant_frame; reflexivity.
  - revert Hinv. apply objects_invariant_frame.
    + unfold remove_device. apply (st_bind_keeps _hub_cameras).
      intros a. destruct (list_remove _ _ a); keeps_all.
    + unfold remove_device. rewrite (st_bind_keeps next_obj); [reflexivity|].
      intros a. destruct (list_remove _ _ a); keeps_all.
  - unfold start_step. destruct (_devices (manager sys)); cbn [manager]; [exact Hinv|].
    revert Hinv. apply objects_invariant_frame.
    + apply keeps_start; auto. apply keeps_pool_stop_event_wait.
    + rewrite (keeps_start next_obj); auto. apply keeps_next_obj_stop_event_wait.
  - unfold connect_step.
    destruct (connection_thread (manager sys)); try exact Hinv.
    destruct (running (manager sys)); try exact Hinv.
    destruct (scan sys) as [|n|mxids j|mxids i].
    + exact Hinv.
    + destruct (_ || _); cbn [manager]; [|exact Hinv].
      revert Hinv. apply objects_invariant_frame.
      * apply keeps_pool_stop_event_wait.
      * rewrite keeps_next_obj_stop_event_wait. lia.
    + destruct (nth_error (_hub_cameras (manager sys)) j); exact Hinv.
    + destruct (nth_error (_devices (manager sys)) i) as [d|] eqn:Hnth.
      * destruct (for_step_some _devices (connect_if_missing (quiet w) mxids) i
                    (manager sys) d Hnth) as [Hst Hout].
        pose proof (objects_invariant_connect_if_missing (quiet w) mxids d _ Hinv) as H1.
        rewrite <- Hst in H1.
        destruct Hout as [Ho|[[e Ho]|Ho]]; rewrite Ho; cbn [manager]; try exact H1;
          revert H1; apply objects_invariant_frame; reflexivity.
      * rewrite (for_step_none _ _ _ _ Hnth). exact Hinv.
  - unfold poll_step.
    destruct (polling_thread (manager sys)); try exact Hinv.
    destruct (running (manager sys)); try exact Hinv.
    destruct (sweep sys) as [i|]; [|exact Hinv].
    destruct (nth_error (_hub_cameras (manager sys)) i) as [c|] eqn:Hnth.
    + destruct (for_step_some _hub_cameras (poll_camera (quiet w)) i
                  (manager sys) c Hnth) as [Hst Hout].
      pose proof (objects_invariant_poll_camera (quiet w) c _ Hinv) as H1.
      rewrite <- Hst in H1.
      destruct Hout as [Ho|[[e Ho]|Ho]]; rewrite Ho; cbn [manager]; try exact H1;
        revert H1; apply objects_invariant_frame; reflexivity.
    + rewrite (for_step_none _ _ _ _ Hnth). cbn [out st manager].
      revert Hinv. apply objects_invariant_frame.
      * apply keeps_pool_stop_event_wait.
      * rewrite keeps_next_obj_stop_event_wait. lia.
Qed.

(** In every state the system gets to, by any steps at all, the cameras of
    the pool are distinct objects, as the statement about one pass of the
    polling loop assumes of the pool it starts from. *)
Lemma pool_objects_distinct sys :
  reachable any_step sys -> NoDup (_hub_cameras (manager sys)).
Proof.
  intros Hr.
  assert (Hinv : objects_invariant (manager sys)).
  { induction Hr as [|sys a Hr IH _].
    - split; [constructor | intros c []].
    - now apply objects_invariant_exec. }
  destruct Hinv as [Hnd _]. now apply NoDup_map_inv in Hnd.
Qed.

(** Only a step of the polling thread can break the condition on the
    comprehension: no other step takes a camera out of the pool while the
    connection thread is inside it. *)
Lemma only_poll_steps_evict sys a :
  (forall w, a <> PollStep w) -> no_eviction_while_reading sys a.
Proof.
  intros Hnp. unfold no_eviction_while_reading.
  destruct (scan sys) as [|n|mxids j|mxids i] eqn:Hs; try exact I.
  destruct a as [d|d|w|w|w]; cbn [exec manager].
  - reflexivity.
  - unfold remove_device. apply (st_bind_keeps _hub_cameras).
    intros a. destruct (list_remove _ _ a); keeps_all.
  - unfold start_step. destruct (_devices (manager sys)); cbn [manager]; [reflexivity|].
    apply keeps_start; auto. apply keeps_pool_stop_event_wait.
  - unfold connect_step.
    destruct (connection_thread (manager sys)); try reflexivity.
    destruct (running (manager sys)); try reflexivity.
    rewrite Hs. destruct (nth_error (_hub_cameras (manager sys)) j); reflexivity.
  - destruct (Hnp w eq_refl).
Qed.

(** ** A pass of a loop, step by step *)

Lemma run_cons a actions sys : run (a :: actions) sys = run actions (exec a sys).
Proof. reflexivity. Qed.

Lemma keeps_thread_connect_if_missing w mxids d :
  keeps connection_thread (connect_if_missing w mxids d).
Proof. unfold connect_if_missing, _connect_device, new_HubCamera, pool_append. keeps_all. Qed.

Lemma keeps_running_connect_if_missing w mxids d :
  keeps running (connect_if_missing w mxids d).
Proof. unfold connect_if_missing, _connect_device, new_HubCamera, pool_append. keeps_all. Qed.

Lemma keeps_thread_poll_camera w c : keeps polling_thread (poll_camera w c).
Proof.
  unfold poll_camera, _disconnect_camera, pool_remove, _get_device_by_mxid. keeps_all.
Qed.

Lemma keeps_running_poll_camera w c : keeps running (poll_camera w c).
Proof.
  unfold poll_camera, _disconnect_camera, pool_remove, _get_device_by_mxid. keeps_all.
Qed.

(** One turn of a [for] loop, as the loop takes it and as a step takes it. *)
Lemma for_from_turn {A} (lst : DeviceManager -> list A) body fuel i s :
  match nth_error (lst s) i with
  | None =>
      for_step lst body i s = mkRun (Ok None) s []
      /\ for_from (S fuel) lst body i s = mkRun (Ok tt) s []
  | Some x =>
      st (for_step lst body i s) = st (body x s)
      /\ match out (body x s) with
         | Ok _ =>
             out (for_step lst body i s) = Ok (Some (S i))
             /\ out (for_from (S fuel) lst body i s)
                = out (for_from fuel lst body (S i) (st (body x s)))
             /\ st (for_from (S fuel) lst body i s)
                = st (for_from fuel lst body (S i) (st (body x s)))
         | Raise e =>
             out (for_step lst body i s) = Raise e
             /\ out (for_from (S fuel) lst body i s) = Raise e
         | Hang =>
             out (for_step lst body i s) = Hang
             /\ out (for_from (S fuel) lst body i s) = Hang
         end
  end.
Proof.
  destruct (nth_error (lst s) i) as [x|] eqn:Hnth.
  - assert (Hfs : for_step lst body i s = (body x ;; ret (Some (S i))) s)
      by (unfold for_step; now rewrite Hnth).
    assert (Hff : for_from (S fuel) lst body i s
                  = (next <- (body x ;; ret (Some (S i))) ;;
                     match next with
                     | Some j => for_from fuel lst body j
                     | None => ret tt
                     end) s).
    { cbn [for_from]. unfold bind at 1 3. now rewrite Hfs. }
    rewrite Hfs, Hff. clear Hfs Hff. unfold bind, ret.
    destruct (body x s) as [o s1 e1]; cbn [out st evs].
    destruct o as [[]|e|]; cbn [out st evs]; auto.
  - split; [now apply for_step_none | now apply for_from_done].
Qed.

(** The scan of the connection thread, taken turn by turn, leaves the
    manager as the [for] loop of [connect_cycle] leaves it. *)
Lemma connect_scan_by_steps w mxids : forall fuel i sys,
  scan sys = InScan mxids i ->
  connection_thread (manager sys) = Alive -> running (manager sys) = true ->
  out (for_from fuel _devices (connect_if_missing (quiet w) mxids) i (manager sys))
  = Ok tt ->
  exists n,
    manager (run (repeat (ConnectStep w) n) sys)
    = st (for_from fuel _devices (connect_if_missing (quiet w) mxids) i (manager sys))
    /\ scan (run (repeat (ConnectStep w) n) sys) = AtLoopHead.
Proof.
  induction fuel as [|fuel IH]; intros i sys Hscan Hth Hrun Hout; [discriminate Hout|].
  pose proof (for_from_turn _devices (connect_if_missing (quiet w) mxids) fuel i
                (manager sys)) as Hturn.
  assert (Hstep : connect_step w sys
                  = let r := for_step _devices (connect_if_missing (quiet w) mxids) i
                               (manager sys) in
                    match out r with
                    | Ok (Some j) => mkSystem (st r) (InScan mxids j) (sweep sys)
                    | Ok None => mkSystem (st r) AtLoopHead (sweep sys)
                    | _ => mkSystem (set_thread ConnectionThread Finished (st r))
                             AtLoopHead (sweep sys)
                    end).
  { unfold connect_step. rewrite Hth, Hrun, Hscan. reflexivity. }
  cbv zeta in Hstep.
  destruct (nth_error (_devices (manager sys)) i) as [d|].
  - destruct Hturn as [Hst Hturn].
    pose proof (keeps_thread_connect_if_missing (quiet w) mxids d (manager sys)) as Kt.
    pose proof (keeps_running_connect_if_missing (quiet w) mxids d (manager sys)) as Kr.
    destruct (out (connect_if_missing (quiet w) mxids d (manager sys))) as [[]|e|].
    + destruct Hturn as (Ho & Hout' & Hst').
      rewrite Ho, Hst in Hstep. rewrite Hout' in Hout.
      destruct (IH (S i) (connect_step w sys)) as (n & Hm & Hs).
      * rewrite Hstep. reflexivity.
      * rewrite Hstep. cbn [manager]. congruence.
      * rewrite Hstep. cbn [manager]. congruence.
      * rewrite Hstep. cbn [manager]. exact Hout.
      * exists (S n). cbn [repeat]. rewrite run_cons. cbn [exec].
        rewrite Hm, Hs, Hstep. cbn [manager]. split; [now rewrite Hst' | reflexivity].
    + destruct Hturn as [_ Ho]. congruence.
    + destruct Hturn as [_ Ho]. congruence.
  - destruct Hturn as [Hfs Hff]. rewrite Hfs in Hstep. cbn [out st] in Hstep.
    exists 1. cbn [repeat]. rewrite run_cons. cbn [exec run fold_left].
    rewrite Hstep, Hff. split; reflexivity.
Qed.

Lemma run_app l1 l2 sys : run (l1 ++ l2) sys = run l2 (run l1 sys).
Proof. unfold run. apply fold_left_app. Qed.

Lemma skipn_nil_nth {A} (l : list A) j : skipn j l = [] -> nth_error l j = None.
Proof.
  intros H. apply nth_error_None. pose proof (length_skipn j l) as Hl.
  rewrite H in Hl. simpl in Hl. lia.
Qed.

Lemma skipn_cons_nth {A} (l : list A) j x rest :
  skipn j l = x :: rest -> nth_error l j = Some x /\ skipn (S j) l = rest.
Proof.
  revert j. induction l as [|y l IH]; intros [|j] H; simpl in *; try discriminate.
  - inversion H. auto.
  - destruct (IH j H) as [H1 H2]. split; [exact H1|]. exact H2.
Qed.

(** The comprehension of the connection thread, taken camera by camera
    while no other thread takes a step, gives the mxids of the pool. *)
Lemma taking_mxids_by_steps w : forall rest j acc sys,
  scan sys = TakingMxids acc j ->
  connection_thread (manager sys) = Alive -> running (manager sys) = true ->
  skipn j (_hub_cameras (manager sys)) = rest ->
  run (repeat (ConnectStep w) (S (Datatypes.length rest))) sys
  = mkSystem (manager sys) (InScan (acc ++ map device_mxid rest) 0) (sweep sys).
Proof.
  induction rest as [|c rest IH]; intros j acc sys Hscan Hth Hrun Hskip.
  - cbn [Datatypes.length repeat run fold_left exec map].
    unfold connect_step. rewrite Hth, Hrun, Hscan, (skipn_nil_nth _ _ Hskip).
    now rewrite app_nil_r.
  - destruct (skipn_cons_nth _ _ _ _ Hskip) as [Hnth Hskip'].
    change (repeat (ConnectStep w) (S (Datatypes.length (c :: rest))))
      with (ConnectStep w :: repeat (ConnectStep w) (S (Datatypes.length rest))).
    rewrite run_cons. cbn [exec].
    assert (Hstep : connect_step w sys
                    = mkSystem (manager sys) (TakingMxids (acc ++ [device_mxid c]) (S j))
                        (sweep sys)).
    { unfold connect_step. rewrite Hth, Hrun, Hscan, Hnth. reflexivity. }
    rewrite Hstep.
    rewrite (IH (S j) (acc ++ [device_mxid c])
               (mkSystem (manager sys) (TakingMxids (acc ++ [device_mxid c]) (S j))
                  (sweep sys))
               eq_refl Hth Hrun Hskip').
    cbn [manager sweep map]. now rewrite <- app_assoc.
Qed.

(** A pass of the connection loop, taken step by step while no other
    thread takes a step, leaves the manager as [connect_cycle] leaves
    it. *)
Lemma connect_cycle_by_steps w sys :
  scan sys = AtLoopHead ->
  connection_thread (manager sys) = Alive -> running (manager sys) = true ->
  out (connect_cycle (quiet w) (manager sys)) = Ok tt ->
  exists n,
    manager (run (repeat (ConnectStep w) n) sys)
    = st (connect_cycle (quiet w) (manager sys))
    /\ scan (run (repeat (ConnectStep w) n) sys) = AtLoopHead.
Proof.
  intros Hscan Hth Hrun. set (m := manager sys) in *. unfold connect_cycle.
  rewrite (bind_ok _ _ m (_hub_cameras m) m []) by reflexivity.
  rewrite (bind_ok _ _ m (_devices m) m []) by reflexivity.
  rewrite (bind_ok _ _ m (connecting_to_device m) m []) by reflexivity.
  cbn [out st].
  assert (Hstep1 : connect_step w sys
                   = mkSystem m (PoolCounted (Datatypes.length (_hub_cameras m)))
                       (sweep sys)).
  { unfold connect_step. fold m. rewrite Hth, Hrun, Hscan. reflexivity. }
  destruct (Nat.eqb (Datatypes.length (_hub_cameras m)) (Datatypes.length (_devices m))
            || connecting_to_device m) eqn:Hguard.
  - intros _. exists 2.
    change (repeat (ConnectStep w) 2) with [ConnectStep w; ConnectStep w].
    rewrite run_cons. cbn [exec]. rewrite Hstep1. cbn [run fold_left exec].
    unfold connect_step. cbn [manager scan sweep].
    rewrite Hth, Hrun, Hguard. cbn [manager scan].
    split; [|reflexivity].
    symmetry. apply (st_bind_keeps (fun s => s)). intros a s. reflexivity.
  - intros Hout. unfold for_in in *.
    assert (Hstep2 : connect_step w
                       (mkSystem m (PoolCounted (Datatypes.length (_hub_cameras m)))
                          (sweep sys))
                     = mkSystem m (TakingMxids [] 0) (sweep sys)).
    { unfold connect_step. cbn [manager scan sweep]. rewrite Hth, Hrun, Hguard.
      reflexivity. }
    pose proof (taking_mxids_by_steps w (_hub_cameras m) 0 []
                  (mkSystem m (TakingMxids [] 0) (sweep sys)) eq_refl Hth Hrun eq_refl)
      as Htake.
    cbn [app manager sweep] in Htake.
    destruct (connect_scan_by_steps w (map device_mxid (_hub_cameras m))
                (S (Datatypes.length (_devices m))) 0
                (mkSystem m (InScan (map device_mxid (_hub_cameras m)) 0) (sweep sys))
                eq_refl Hth Hrun Hout)
      as (n & Hm & Hs).
    exists (2 + (S (Datatypes.length (_hub_cameras m)) + n)).
    change (repeat (ConnectStep w) (2 + (S (Datatypes.length (_hub_cameras m)) + n)))
      with (ConnectStep w :: ConnectStep w
            :: repeat (ConnectStep w) (S (Datatypes.length (_hub_cameras m)) + n)).
    rewrite run_cons. cbn [exec]. rewrite Hstep1.
    rewrite run_cons. cbn [exec]. rewrite Hstep2.
    rewrite repeat_app, run_app, Htake.
    split; [exact Hm | exact Hs].
Qed.

(** The same for the polling thread: the turns of its [for] loop and the
    wait that follows. *)
Lemma poll_sweep_by_steps w : forall fuel i sys,
  sweep sys = Some i ->
  polling_thread (manager sys) = Alive -> running (manager sys) = true ->
  out (for_from fuel _hub_cameras (poll_camera (quiet w)) i (manager sys)) = Ok tt ->
  exists n,
    manager (run (repeat (PollStep w) n) sys)
    = st (stop_event_wait (quiet w) POLL_FREQUENCY
            (st (for_from fuel _hub_cameras (poll_camera (quiet w)) i (manager sys))))
    /\ sweep (run (repeat (PollStep w) n) sys) = None.
Proof.
  induction fuel as [|fuel IH]; intros i sys Hsweep Hth Hrun Hout; [discriminate Hout|].
  pose proof (for_from_turn _hub_cameras (poll_camera (quiet w)) fuel i (manager sys))
    as Hturn.
  assert (Hstep : poll_step w sys
                  = let r := for_step _hub_cameras (poll_camera (quiet w)) i
                               (manager sys) in
                    match out r with
                    | Ok (Some j) => mkSystem (st r) (scan sys) (Some j)
                    | Ok None =>
                        mkSystem (st (stop_event_wait (quiet w) POLL_FREQUENCY (st r)))
                          (scan sys) None
                    | _ => mkSystem (set_thread PollingThread Finished (st r))
                             (scan sys) None
                    end).
  { unfold poll_step. rewrite Hth, Hrun, Hsweep. reflexivity. }
  cbv zeta in Hstep.
  destruct (nth_error (_hub_cameras (manager sys)) i) as [c|].
  - destruct Hturn as [Hst Hturn].
    pose proof (keeps_thread_poll_camera (quiet w) c (manager sys)) as Kt.
    pose proof (keeps_running_poll_camera (quiet w) c (manager sys)) as Kr.
    destruct (out (poll_camera (quiet w) c (manager sys))) as [[]|e|].
    + destruct Hturn as (Ho & Hout' & Hst').
      rewrite Ho, Hst in Hstep. rewrite Hout' in Hout.
      destruct (IH (S i) (poll_step w sys)) as (n & Hm & Hs).
      * rewrite Hstep. reflexivity.
      * rewrite Hstep. cbn [manager]. congruence.
      * rewrite Hstep. cbn [manager]. congruence.
      * rewrite Hstep. cbn [manager]. exact Hout.
      * exists (S n). cbn [repeat]. rewrite run_cons. cbn [exec].
        rewrite Hm, Hs, Hstep. cbn [manager]. split; [now rewrite Hst' | reflexivity].
    + destruct Hturn as [_ Ho]. congruence.
    + destruct Hturn as [_ Ho]. congruence.
  - destruct Hturn as [Hfs Hff]. rewrite Hfs in Hstep. cbn [out st] in Hstep.
    exists 1. cbn [repeat]. rewrite run_cons. cbn [exec run fold_left].
    rewrite Hstep, Hff. split; reflexivity.
Qed.

(** A pass of the polling loop and its wait, taken step by step, leave the
    manager as the body of the loop of [_poll] leaves it. *)
Lemma poll_pass_by_steps w sys :
  sweep sys = None ->
  polling_thread (manager sys) = Alive -> running (manager sys) = true ->
  out (poll_cycle (quiet w) (manager sys)) = Ok tt ->
  exists n,
    manager (run (repeat (PollStep w) n) sys)
    = st ((poll_cycle (quiet w) ;;
           stop_event_wait (quiet w) POLL_FREQUENCY ;; ret tt) (manager sys))
    /\ sweep (run (repeat (PollStep w) n) sys) = None.
Proof.
  intros Hsweep Hth Hrun Hout.
  set (sys1 := mkSystem (manager sys) (scan sys) (Some 0)).
  assert (Hstep : poll_step w sys = sys1).
  { unfold poll_step. rewrite Hth, Hrun, Hsweep. reflexivity. }
  destruct (poll_sweep_by_steps w (S (Datatypes.length (_hub_cameras (manager sys))))
              0 sys1 eq_refl Hth Hrun Hout) as (n & Hm & Hs).
  exists (S n). cbn [repeat]. rewrite run_cons. cbn [exec]. rewrite Hstep.
  split; [|exact Hs]. rewrite Hm.
  change (for_from (S (Datatypes.length (_hub_cameras (manager sys))))
            _hub_cameras (poll_camera (quiet w)) 0 (manager sys1))
    with (poll_cycle (quiet w) (manager sys)).
  destruct (poll_cycle (quiet w) (manager sys)) as [o s1 e1] eqn:Hpc.
  cbn [out st] in *. subst o. rewrite (bind_ok _ _ _ _ _ _ Hpc). cbn [st].
  symmetry. apply (st_bind_keeps (fun s => s)). intros a s. reflexivity.
Qed.

(** * Further properties of the manager *)

(** ** The registry: [add_device], [remove_device], [_get_device_by_mxid] *)

Lemma set_devices_same s : set_devices (_devices s) s = s.
Proof. destruct s; reflexivity. Qed.

Lemma remove_device_removes d s l :
  list_remove Device_eq_dec d (_devices s) = Some l ->
  remove_device d s = mkRun (Ok tt) (set_devices l s) [].
Proof.
  intros H. unfold remove_device.
  rewrite (bind_ok _ _ s (_devices s) s []) by reflexivity. rewrite H. reflexivity.
Qed.

(** X1.  [remove_device(d)] right after [add_device(d)] returns; it leaves
    the pool alone; on a registry that did not hold [d] it gives back the
    manager as it was; on a registry that held [d] it is the first, older
    entry that goes, so [d] ends up last. *)
Theorem add_then_remove_device (d : Device) (s : DeviceManager) :
  out (remove_device d (st (add_device d s))) = Ok tt
  /\ _hub_cameras (st (remove_device d (st (add_device d s)))) = _hub_cameras s
  /\ (~ In d (_devices s) -> st (remove_device d (st (add_device d s))) = s)
  /\ (forall l1 l2, _devices s = l1 ++ d :: l2 -> ~ In d l1 ->
        _devices (st (remove_device d (st (add_device d s)))) = l1 ++ l2 ++ [d]).
Proof.
  change (st (add_device d s)) with (set_devices (_devices s ++ [d]) s).
  set (s1 := set_devices (_devices s ++ [d]) s).
  assert (Hin : In d (_devices s1)) by (subst s1; cbn; apply in_or_app; right; now left).
  destruct (list_remove_In Device_eq_dec d _ Hin) as [l Hl].
  rewrite (remove_device_removes d s1 l Hl). cbn [out st].
  split; [reflexivity|]. split; [reflexivity|]. split.
  - intros Hn. subst s1. cbn [_devices set_devices] in Hl.
    rewrite (list_remove_app Device_eq_dec d (_devices s) [] Hn) in Hl.
    inversion Hl; subst. rewrite app_nil_r. destruct s; reflexivity.
  - intros l1 l2 Hd Hn. subst s1. cbn [_devices set_devices] in *.
    rewrite Hd, <- app_assoc in Hl. cbn [app] in Hl.
    rewrite (list_remove_app Device_eq_dec d l1 (l2 ++ [d]) Hn) in Hl.
    inversion Hl; subst. reflexivity.
Qed.

Lemma add_then_remove_device_witness :
  st (remove_device device_B (st (add_device device_B one_device_started)))
  = one_device_started
  /\ _devices (st (remove_device device_A (st (add_device device_A two_cameras_running))))
     = [device_B; device_A].
Proof.
  split.
  - apply (proj1 (proj2 (proj2 (add_then_remove_device device_B one_device_started)))).
    vm_compute. intros [H|[]]. discriminate H.
  - apply (proj2 (proj2 (proj2 (add_then_remove_device device_A two_cameras_running)))
             [] [device_B]); [reflexivity | intros []].
Defined.

Lemma find_app_first {A} (p : A -> bool) l l' :
  find p (l ++ l') = match find p l with Some x => Some x | None => find p l' end.
Proof. induction l as [|x l IH]; simpl; [reflexivity|]. destruct (p x); auto. Qed.

Lemma find_mxid_none id l :
  find (fun x => String.eqb (mxid x) id) l = None <-> ~ In id (map mxid l).
Proof.
  induction l as [|x l IH]; simpl; [tauto|].
  destruct (String.eqb_spec (mxid x) id) as [He|He].
  - split; [discriminate | intros H; exfalso; apply H; now left].
  - rewrite IH. tauto.
Qed.

(** X2.  [_get_device_by_mxid] looks the registry up without touching the
    manager and finds the first device with the mxid.  So after
    [add_device(d)] the mxid of [d] finds [d] when it was not registered
    before and the older device with that mxid otherwise, other mxids find
    what they found; and once [remove_device(d)] took [d] out of a registry
    of distinct mxids, its mxid finds nothing. *)
Theorem registry_lookup (d : Device) (s : DeviceManager) :
  (forall id, st (_get_device_by_mxid id s) = s /\ evs (_get_device_by_mxid id s) = [])
  /\ (forall id x, out (_get_device_by_mxid id s) = Ok (Some x) ->
        exists l1 l2, _devices s = l1 ++ x :: l2 /\ mxid x = id
                      /\ ~ In id (map mxid l1))
  /\ (forall id, out (_get_device_by_mxid id s) = Ok None <-> ~ In id (map mxid (_devices s)))
  /\ (~ In (mxid d) (map mxid (_devices s)) ->
        out (_get_device_by_mxid (mxid d) (st (add_device d s))) = Ok (Some d))
  /\ (In (mxid d) (map mxid (_devices s)) ->
        out (_get_device_by_mxid (mxid d) (st (add_device d s)))
        = out (_get_device_by_mxid (mxid d) s))
  /\ (forall id, id <> mxid d ->
        out (_get_device_by_mxid id (st (add_device d s)))
        = out (_get_device_by_mxid id s))
  /\ (NoDup (map mxid (_devices s)) -> In d (_devices s) ->
        out (_get_device_by_mxid (mxid d) (st (remove_device d s))) = Ok None).
Proof.
  assert (Hout : forall id m, out (_get_device_by_mxid id m)
                              = Ok (find (fun x => String.eqb (mxid x) id) (_devices m)))
    by reflexivity.
  change (st (add_device d s)) with (set_devices (_devices s ++ [d]) s).
  split; [intros id; split; reflexivity|].
  split; [|split; [|split; [|split; [|split]]]].
  - intros id x H. rewrite Hout in H. inversion H as [Hf]. clear H.
    induction (_devices s) as [|y l IH]; simpl in Hf; [discriminate|].
    destruct (String.eqb_spec (mxid y) id) as [He|He].
    + inversion Hf; subst. exists [], l. simpl. tauto.
    + destruct (IH Hf) as (l1 & l2 & -> & Hx & Hn). exists (y :: l1), l2. simpl.
      repeat split; auto. intros [H|H]; [congruence | contradiction].
  - intros id. rewrite Hout. rewrite <- find_mxid_none.
    split; [intros H; now inversion H | intros ->; reflexivity].
  - intros Hn. rewrite Hout. cbn [_devices set_devices]. rewrite find_app_first.
    apply find_mxid_none in Hn. rewrite Hn. simpl. now rewrite String.eqb_refl.
  - intros Hin. rewrite !Hout. cbn [_devices set_devices]. rewrite find_app_first.
    destruct (find _ (_devices s)) eqn:Hf; [reflexivity|].
    apply find_mxid_none in Hf. contradiction.
  - intros id Hne. rewrite !Hout. cbn [_devices set_devices]. rewrite find_app_first.
    destruct (find _ (_devices s)); [reflexivity|]. simpl.
    destruct (String.eqb_spec (mxid d) id); [congruence | reflexivity].
  - intros Hnd Hin. destruct (list_remove_In Device_eq_dec d _ Hin) as [l Hl].
    rewrite (remove_device_removes d s l Hl). cbn [st]. rewrite Hout.
    cbn [_devices set_devices]. f_equal. apply find_mxid_none.
    destruct (list_remove_Some _ _ _ _ Hl) as (l1 & l2 & Hd & _ & ->).
    rewrite Hd, map_app in Hnd. simpl in Hnd. apply NoDup_remove_2 in Hnd.
    now rewrite map_app.
Qed.

Lemma registry_lookup_witness :
  out (_get_device_by_mxid "B" (st (add_device device_B one_device_started)))
  = Ok (Some device_B)
  /\ out (_get_device_by_mxid "A" (st (remove_device device_A two_cameras_running)))
     = Ok None.
Proof.
  split.
  - apply (proj1 (proj2 (proj2 (proj2 (registry_lookup device_B one_device_started))))).
    vm_compute. intros [H|[]]. discriminate H.
  - apply (proj2 (proj2 (proj2 (proj2 (proj2 (proj2
             (registry_lookup device_A two_cameras_running))))))).
    + repeat constructor; simpl; intuition discriminate.
    + now left.
Defined.

(** ** What the methods call and where they take the manager *)

Section Emits.

Variable P : Event -> Prop.

Lemma emits_ret {A} (a : A) : emits P (ret a).
Proof. intros s; constructor. Qed.

Lemma emits_raise {A} e : emits P (@raise A e).
Proof. intros s; constructor. Qed.

Lemma emits_hang {A} : emits P (@hang A).
Proof. intros s; constructor. Qed.

Lemma emits_gets {A} (g : DeviceManager -> A) : emits P (gets g).
Proof. intros s; constructor. Qed.

Lemma emits_modify g : emits P (modify g).
Proof. intros s; constructor. Qed.

Lemma emits_emit e : P e -> emits P (emit e).
Proof. intros H s; repeat constructor; exact H. Qed.

Lemma emits_call {A} e (r : res A) : P e -> emits P (call e r).
Proof. intros H s; repeat constructor; exact H. Qed.

Lemma emits_bind {A C} (m : M A) (k : A -> M C) :
  emits P m -> (forall a, emits P (k a)) -> emits P (bind m k).
Proof.
  intros Hm Hk s. unfold bind. specialize (Hm s).
  destruct (m s) as [o s1 e1]; cbn [out st evs] in *.
  destruct o; cbn [evs]; auto. apply Forall_app; split; [exact Hm | apply Hk].
Qed.

Lemma emits_try_except {A} (m : M A) c h :
  emits P m -> (forall e, emits P (h e)) -> emits P (try_except m c h).
Proof.
  intros Hm Hh s. unfold try_except. specialize (Hm s).
  destruct (m s) as [o s1 e1]; cbn [out st evs] in *.
  destruct o; cbn [evs]; auto. destruct (c e); cbn [evs]; auto.
  apply Forall_app; split; [exact Hm | apply Hh].
Qed.

Lemma emits_for_from {A} (lst : DeviceManager -> list A) body :
  (forall x, emits P (body x)) -> forall fuel i, emits P (for_from fuel lst body i).
Proof.
  intros Hb fuel. induction fuel as [|fuel IH]; intros i; simpl.
  - apply emits_hang.
  - apply emits_bind.
    + intros s. unfold for_step. destruct (nth_error (lst s) i); [|constructor].
      apply emits_bind; [apply Hb | intros; apply emits_ret].
    + intros [j|]; [apply IH | apply emits_ret].
Qed.

Lemma emits_for_in {A} (lst : DeviceManager -> list A) body :
  (forall x, emits P (body x)) -> emits P (for_in lst body).
Proof. intros Hb s. unfold for_in. now apply emits_for_from. Qed.

Lemma emits_while_running body :
  emits P body -> forall fuel, emits P (while_running fuel body).
Proof.
  intros Hb fuel. induction fuel as [|fuel IH]; simpl.
  - apply emits_hang.
  - apply emits_bind; [apply emits_gets|].
    intros [|]; [|apply emits_ret]. apply emits_bind; auto.
Qed.

End Emits.

Ltac emits_step :=
  lazymatch goal with
  | |- emits _ (bind _ _) => apply emits_bind; [|intros ?]
  | |- emits _ (ret _) => apply emits_ret
  | |- emits _ (raise _) => apply emits_raise
  | |- emits _ hang => apply emits_hang
  | |- emits _ (gets _) => apply emits_gets
  | |- emits _ (modify _) => apply emits_modify
  | |- emits _ (emit _) => apply emits_emit; exact I
  | |- emits _ (call _ _) => apply emits_call; exact I
  | |- emits _ (try_except _ _ _) => apply emits_try_except; [|intros ?]
  | |- emits _ (for_in _ _) => apply emits_for_in; intros ?
  | |- emits _ (while_running _ _) => apply emits_while_running
  | |- emits _ (match ?x with _ => _ end) => destruct x
  end.

Ltac emits_all := repeat emits_step.

Section Moves.

Variable R : DeviceManager -> DeviceManager -> Prop.
Hypothesis R_refl : forall s, R s s.
Hypothesis R_trans : forall a b c, R a b -> R b c -> R a c.

Lemma moves_ret {A} (a : A) : moves R (ret a).
Proof. intros s; apply R_refl. Qed.

Lemma moves_raise {A} e : moves R (@raise A e).
Proof. intros s; apply R_refl. Qed.

Lemma moves_hang {A} : moves R (@hang A).
Proof. intros s; apply R_refl. Qed.

Lemma moves_gets {A} (g : DeviceManager -> A) : moves R (gets g).
Proof. intros s; apply R_refl. Qed.

Lemma moves_emit e : moves R (emit e).
Proof. intros s; apply R_refl. Qed.

Lemma moves_call {A} e (r : res A) : moves R (call e r).
Proof. intros s; apply R_refl. Qed.

Lemma moves_modify g : (forall s, R s (g s)) -> moves R (modify g).
Proof. intros H s; apply H. Qed.

Lemma moves_bind {A C} (m : M A) (k : A -> M C) :
  moves R m -> (forall a, moves R (k a)) -> moves R (bind m k).
Proof.
  intros Hm Hk s. unfold bind. specialize (Hm s).
  destruct (m s) as [o s1 e1]; cbn [out st evs] in *.
  destruct o; cbn [st]; auto. eapply R_trans; [exact Hm | apply Hk].
Qed.

Lemma moves_try_except {A} (m : M A) c h :
  moves R m -> (forall e, moves R (h e)) -> moves R (try_except m c h).
Proof.
  intros Hm Hh s. unfold try_except. specialize (Hm s).
  destruct (m s) as [o s1 e1]; cbn [out st evs] in *.
  destruct o; cbn [st]; auto. destruct (c e); cbn [st]; auto.
  eapply R_trans; [exact Hm | apply Hh].
Qed.

Lemma moves_for_from {A} (lst : DeviceManager -> list A) body :
  (forall x, moves R (body x)) -> forall fuel i, moves R (for_from fuel lst body i).
Proof.
  intros Hb fuel. induction fuel as [|fuel IH]; intros i; simpl.
  - apply moves_hang.
  - apply moves_bind.
    + intros s. unfold for_step. destruct (nth_error (lst s) i); [|apply R_refl].
      apply moves_bind; [apply Hb | intros; apply moves_ret].
    + intros [j|]; [apply IH | apply moves_ret].
Qed.

Lemma moves_for_in {A} (lst : DeviceManager -> list A) body :
  (forall x, moves R (body x)) -> moves R (for_in lst body).
Proof. intros Hb s. unfold for_in. now apply moves_for_from. Qed.

Lemma moves_while_running body :
  moves R body -> forall fuel, moves R (while_running fuel body).
Proof.
  intros Hb fuel. induction fuel as [|fuel IH]; simpl.
  - apply moves_hang.
  - apply moves_bind; [apply moves_gets|].
    intros [|]; [|apply moves_ret]. apply moves_bind; auto.
Qed.

End Moves.





Lemma registry_grows_refl w s : registry_grows w s s.
Proof. exists []. split; [now rewrite app_nil_r | intros x []]. Qed.


Lemma no_sleep_refl s : no_sleep s s.
Proof. intros H. auto. Qed.

Lemma no_sleep_trans a b c : no_sleep a b -> no_sleep b c -> no_sleep a c.
Proof.
  intros H1 H2 Ha. destruct (H1 Ha) as (Hb & Hc1).
  destruct (H2 Hb) as (Hc & Hc2). split; congruence.
Qed.






Lemma no_sleep_keeps {A} (m : M A) :
  keeps stop_event m -> keeps clock m -> moves no_sleep m.
Proof. intros H1 H2 s Hs. rewrite H1, H2. auto. Qed.

Lemma moves_stop_event_wait w t :
  keeps _hub_cameras (stop_event_wait w t)
  /\ moves (registry_grows w) (stop_event_wait w t)
  /\ moves no_sleep (stop_event_wait w t).
Proof.
  split; [apply keeps_pool_stop_event_wait|]. split; intros s.
  - destruct (stop_event s) eqn:Hs.
    + rewrite (stop_event_wait_set w t s Hs). apply registry_grows_refl.
    + rewrite (stop_event_wait_sleeps w t s Hs). cbn [st]. eexists.
      split; [reflexivity|]. unfold arrivals. intros x Hx.
      apply in_map_iff in Hx. destruct Hx as (td & <- & Hx).
      apply filter_In in Hx. apply in_map. tauto.
  - intros Hs. rewrite (stop_event_wait_set w t s Hs). auto.
Qed.

Lemma keeps_connect_device_rest w d :
  keeps stop_event (_connect_device w d) /\ keeps clock (_connect_device w d).
Proof. split; unfold _connect_device, new_HubCamera, pool_append; keeps_all. Qed.

Lemma keeps_connect_if_missing_rest w mxids d :
  keeps stop_event (connect_if_missing w mxids d)
  /\ keeps clock (connect_if_missing w mxids d).
Proof.
  split; unfold connect_if_missing; keeps_all;
    apply (keeps_connect_device_rest w d).
Qed.

Lemma keeps_poll_camera_rest w c :
  keeps stop_event (poll_camera w c) /\ keeps clock (poll_camera w c)
  /\ keeps connecting_to_device (poll_camera w c).
Proof.
  repeat split;
    unfold poll_camera, _disconnect_camera, pool_remove, _get_device_by_mxid; keeps_all.
Qed.





(** A relation that every wait and every turn of the three [for] loops
    respects holds across each loop. *)
Lemma moves_thread_target (R : DeviceManager -> DeviceManager -> Prop) w :
  (forall s, R s s) -> (forall a b c, R a b -> R b c -> R a c) ->
  (forall t, moves R (stop_event_wait w t)) ->
  (forall mxids d, moves R (connect_if_missing w mxids d)) ->
  (forall c, moves R (poll_camera w c)) ->
  forall t fuel, moves R (thread_target w t fuel).
Proof.
  intros Hrefl Htrans Hw Hc Hp t fuel.
  assert (Hwait : forall t, moves R (stop_event_wait w t ;; ret tt)).
  { intros t'. apply moves_bind; auto. }
  destruct t; cbn [thread_target].
  - unfold _connect. apply moves_while_running; auto.
    unfold connect_cycle.
    repeat (apply moves_bind; [auto | now apply moves_gets | intros ?]).
    destruct (_ || _); [apply Hwait|].
    apply moves_for_in; auto.
  - unfold _report. apply moves_while_running; auto.
    apply moves_bind; auto.
    apply moves_for_in; auto. intros c s. rewrite report_camera_frame. apply Hrefl.
  - unfold _poll. apply moves_while_running; auto.
    apply moves_bind; auto.
    apply moves_for_in; auto.
Qed.



(** X4.  Once the stop event is set no loop sleeps any more: every
    [stop_event.wait] comes back at once, so the loop goes round without a
    pause for as long as it runs, and the stop event stays set. *)
Theorem loops_spin_after_stop (w : World) (t : ThreadName) (fuel : nat)
    (s : DeviceManager) :
  stop_event s = true ->
  stop_event (st (thread_target w t fuel s)) = true
  /\ clock (st (thread_target w t fuel s)) = clock s.
Proof.
  revert s. change (moves no_sleep (thread_target w t fuel)).
  apply moves_thread_target.
  - apply no_sleep_refl.
  - apply no_sleep_trans.
  - intros t'. apply (moves_stop_event_wait w t').
  - intros mxids d. apply no_sleep_keeps; apply (keeps_connect_if_missing_rest w mxids d).
  - intros c. apply no_sleep_keeps; apply (keeps_poll_camera_rest w c).
Qed.

Lemma loops_spin_after_stop_witness :
  clock (st (thread_target A_added_after_12s ReportingThread 3
               (set_stop_event true two_cameras_running))) = 0%Z.
Proof.
  apply (loops_spin_after_stop A_added_after_12s ReportingThread 3
           (set_stop_event true two_cameras_running)).
  reflexivity.
Defined.

(** X5.  Each loop calls only what is its own: the reporting loop the
    reports of the cameras and the agent (and its log and its wait); the
    polling loop [poll], [stop], the removal from the pool and the
    disconnect callback; the connection loop the constructor of
    [HubCamera], the start routine, [start] and [stop] of the new camera,
    the connect callback and the append to the pool.  In particular the
    polling loop never makes or starts a camera and the connection loop
    never polls one or calls a disconnect callback. *)
Theorem loops_call_their_own (w : World) (fuel : nat) :
  emits connect_event (_connect w fuel)
  /\ emits poll_event (_poll w fuel)
  /\ emits report_event (_report w fuel).
Proof.
  split; [|split].
  - unfold _connect, connect_cycle, connect_if_missing, _connect_device,
      new_HubCamera, pool_append, stop_event_wait. emits_all.
  - unfold _poll, poll_cycle, poll_camera, _disconnect_camera, pool_remove,
      _get_device_by_mxid, stop_event_wait. emits_all.
  - unfold _report, report_cycle, report_camera, report_body, stop_event_wait.
    emits_all.
Qed.

(** ** One turn of [while self.running] *)

Lemma while_running_raise body fuel s e s1 e1 :
  running s = true -> body s = mkRun (Raise e) s1 e1 ->
  while_running (S fuel) body s = mkRun (Raise e) s1 e1.
Proof.
  intros Hr Hb. cbn [while_running].
  rewrite (bind_ok _ _ s true s []) by (unfold gets; now rewrite Hr).
  rewrite (bind_raise _ _ s e s1 e1 Hb). reflexivity.
Qed.

Lemma while_running_next body fuel s s1 e1 :
  running s = true -> body s = mkRun (Ok tt) s1 e1 ->
  while_running (S fuel) body s
  = mkRun (out (while_running fuel body s1)) (st (while_running fuel body s1))
      (e1 ++ evs (while_running fuel body s1)).
Proof.
  intros Hr Hb. cbn [while_running].
  rewrite (bind_ok _ _ s true s []) by (unfold gets; now rewrite Hr).
  rewrite (bind_ok _ _ s tt s1 e1 Hb). reflexivity.
Qed.

Lemma foreach_app {A} (body : A -> M unit) l1 l2 s :
  foreach body (l1 ++ l2) s = (foreach body l1 ;; foreach body l2) s.
Proof.
  revert s. induction l1 as [|x l1 IH]; intros s; cbn [foreach app].
  - unfold bind, ret. cbn [out st evs app]. now destruct (foreach body l2 s).
  - unfold bind in *. destruct (body x s) as [o s1 e1]; cbn [out st evs].
    destruct o; try reflexivity. rewrite IH.
    destruct (foreach body l1 s1) as [o2 s2 e2]; cbn [out st evs].
    destruct o2; cbn [out st evs]; try reflexivity.
    now rewrite app_assoc.
Qed.

(** ** [_disconnect_camera] and [_poll]: what ends them *)

(** X6.  [_disconnect_camera] in the order the code has it: log, stop,
    remove, callback.  When [camera.stop()] raises, the camera stays in the
    pool and no disconnect callback is made; when the camera is not in the
    pool, [list.remove] raises ValueError after the camera was stopped;
    when the disconnect callback raises, the camera is already stopped and
    out of the pool.  Each exception leaves [_disconnect_camera]. *)
Theorem disconnect_camera_failures (w : World) (c : HubCamera) (s : DeviceManager) :
  (forall e, cam_stop w c = Raise e ->
     _disconnect_camera w c s
     = mkRun (Raise e) s [Log INFO (disconnected_text c); CallCameraStop c])
  /\ (cam_stop w c = Ok tt -> ~ In c (_hub_cameras s) ->
      _disconnect_camera w c s
      = mkRun (Raise ValueError_not_in_list) s
          [Log INFO (disconnected_text c); CallCameraStop c])
  /\ (forall l1 l2 d e,
        cam_stop w c = Ok tt ->
        _hub_cameras s = l1 ++ c :: l2 -> ~ In c l1 ->
        out (_get_device_by_mxid (device_mxid c) s) = Ok (Some d) ->
        dev_disconnect_callback w d = Raise e ->
        _disconnect_camera w c s
        = mkRun (Raise e) (set_hub_cameras (l1 ++ l2) s)
            [Log INFO (disconnected_text c); CallCameraStop c; PoolRemove c;
             CallDisconnectCallback d]).
Proof.
  split; [|split].
  - intros e He. unfold _disconnect_camera.
    rewrite (bind_ok _ _ s tt s [Log INFO (disconnected_text c)]) by reflexivity.
    rewrite (bind_raise _ _ s e s [CallCameraStop c]) by (unfold call; now rewrite He).
    reflexivity.
  - intros Hs Hn. unfold _disconnect_camera.
    rewrite (bind_ok _ _ s tt s [Log INFO (disconnected_text c)]) by reflexivity.
    rewrite (bind_ok _ _ s tt s [CallCameraStop c]) by (unfold call; now rewrite Hs).
    rewrite (bind_raise _ _ s ValueError_not_in_list s []).
    + reflexivity.
    + unfold pool_remove.
      rewrite (bind_ok _ _ s (_hub_cameras s) s []) by reflexivity.
      apply (list_remove_None HubCamera_eq_dec) in Hn. rewrite Hn. reflexivity.
  - intros l1 l2 d e Hs Hp Hn Hf He. unfold _disconnect_camera.
    rewrite (bind_ok _ _ s tt s [Log INFO (disconnected_text c)]) by reflexivity.
    rewrite (bind_ok _ _ s tt s [CallCameraStop c]) by (unfold call; now rewrite Hs).
    rewrite (bind_ok _ _ s tt (set_hub_cameras (l1 ++ l2) s) [PoolRemove c]).
    + rewrite (bind_ok _ _ _ (Some d) (set_hub_cameras (l1 ++ l2) s) []).
      * unfold call. rewrite He. reflexivity.
      * inversion Hf as [Hf']. unfold _get_device_by_mxid.
        rewrite (bind_ok _ _ _ (_devices s) (set_hub_cameras (l1 ++ l2) s) [])
          by reflexivity.
        cbn [out st evs app ret]. unfold ret. now rewrite Hf'.
    + unfold pool_remove.
      rewrite (bind_ok _ _ s (_hub_cameras s) s []) by reflexivity.
      rewrite Hp, (list_remove_app HubCamera_eq_dec c l1 l2 Hn).
      reflexivity.
Qed.

Lemma disconnect_camera_failures_witness :
  _disconnect_camera stop_of_A_raises camera_A two_cameras_running
  = mkRun (Raise (mkExn RuntimeError "X_LINK_ERROR" [])) two_cameras_running
      [Log INFO "Device A: disconnected."; CallCameraStop camera_A]
  /\ out (_disconnect_camera calm_world camera_A A_evicted)
     = Raise ValueError_not_in_list.
Proof.
  split.
  - apply (proj1 (disconnect_camera_failures stop_of_A_raises camera_A
                    two_cameras_running)).
    reflexivity.
  - rewrite (proj1 (proj2 (disconnect_camera_failures calm_world camera_A A_evicted)));
      [reflexivity | reflexivity |].
    vm_compute. intros [H|[]]. discriminate H.
Defined.

Lemma for_from_all_alive w : forall rest fuel pre s,
  _hub_cameras s = pre ++ rest ->
  Datatypes.length rest < fuel ->
  (forall c, In c rest -> cam_poll w c = Ok true) ->
  for_from fuel _hub_cameras (poll_camera w) (Datatypes.length pre) s
  = mkRun (Ok tt) s (map CallPoll rest).
Proof.
  induction rest as [|c rest IH]; intros fuel pre s Hp Hf Ha.
  - destruct fuel as [|fuel]; [simpl in Hf; lia|].
    apply for_from_done. rewrite Hp, app_nil_r. apply nth_error_None. lia.
  - destruct fuel as [|fuel]; [simpl in Hf; lia|].
    rewrite (for_from_next _ _ fuel _ s c s [CallPoll c]).
    + assert (Hp' : _hub_cameras s = (pre ++ [c]) ++ rest)
        by (now rewrite <- app_assoc).
      replace (S (Datatypes.length pre)) with (Datatypes.length (pre ++ [c]))
        by (rewrite length_app; simpl; lia).
      rewrite (IH fuel (pre ++ [c]) s Hp'); [reflexivity | simpl in Hf; lia |].
      intros x Hx. apply Ha. now right.
    + rewrite Hp. apply nth_error_middle.
    + apply poll_camera_alive, Ha. now left.
Qed.

(** X7.  A pass of the polling loop over a pool whose cameras all answer
    their poll with [True] polls each camera once, in the order of the
    pool, and changes nothing. *)
Theorem poll_cycle_all_alive (w : World) (s : DeviceManager) :
  (forall c, In c (_hub_cameras s) -> cam_poll w c = Ok true) ->
  poll_cycle w s = mkRun (Ok tt) s (map CallPoll (_hub_cameras s)).
Proof.
  intros Ha. unfold poll_cycle, for_in.
  apply (for_from_all_alive w (_hub_cameras s) _ [] s); auto.
Qed.

Lemma poll_cycle_all_alive_witness :
  poll_cycle calm_world two_cameras_running
  = mkRun (Ok tt) two_cameras_running [CallPoll camera_A; CallPoll camera_B].
Proof.
  apply (poll_cycle_all_alive calm_world two_cameras_running).
  intros c _. reflexivity.
Defined.

Lemma for_from_poll_raises w e : forall l1 fuel pre c l2 s,
  _hub_cameras s = pre ++ l1 ++ c :: l2 ->
  Datatypes.length l1 < fuel ->
  (forall x, In x l1 -> cam_poll w x = Ok true) ->
  cam_poll w c = Raise e ->
  for_from fuel _hub_cameras (poll_camera w) (Datatypes.length pre) s
  = mkRun (Raise e) s (map CallPoll l1 ++ [CallPoll c]).
Proof.
  induction l1 as [|x l1 IH]; intros fuel pre c l2 s Hp Hf Ha He.
  - destruct fuel as [|fuel]; [simpl in Hf; lia|].
    cbn [for_from app map]. apply bind_raise.
    unfold for_step. cbn [app] in Hp. rewrite Hp, nth_error_middle.
    apply bind_raise. unfold poll_camera. apply bind_raise.
    unfold call. now rewrite He.
  - destruct fuel as [|fuel]; [simpl in Hf; lia|].
    rewrite (for_from_next _ _ fuel _ s x s [CallPoll x]).
    + assert (Hp' : _hub_cameras s = (pre ++ [x]) ++ l1 ++ c :: l2)
        by (now rewrite <- app_assoc).
      replace (S (Datatypes.length pre)) with (Datatypes.length (pre ++ [x]))
        by (rewrite length_app; simpl; lia).
      rewrite (IH fuel (pre ++ [x]) c l2 s Hp'); [reflexivity | simpl in Hf; lia | | exact He].
      intros y Hy. apply Ha. now right.
    + rewrite Hp. cbn [app]. apply nth_error_middle.
    + apply poll_camera_alive, Ha. now left.
Qed.

(** X8.  An exception of [camera.poll()] is not caught anywhere in
    [_poll]: it ends the pass by the camera that raised, and with it the
    loop, so the polling thread is gone.  The cameras behind that camera
    are not polled, nothing was evicted, and the loop does not get to its
    wait. *)
Theorem poll_exception_ends_polling (w : World) (fuel : nat) (s : DeviceManager)
    (l1 l2 : list HubCamera) (c : HubCamera) (e : PyExn) :
  running s = true ->
  _hub_cameras s = l1 ++ c :: l2 ->
  (forall x, In x l1 -> cam_poll w x = Ok true) ->
  cam_poll w c = Raise e ->
  poll_cycle w s = mkRun (Raise e) s (map CallPoll l1 ++ [CallPoll c])
  /\ _poll w (S fuel) s = mkRun (Raise e) s (map CallPoll l1 ++ [CallPoll c]).
Proof.
  intros Hr Hp Ha He.
  assert (Hc : poll_cycle w s = mkRun (Raise e) s (map CallPoll l1 ++ [CallPoll c])).
  { unfold poll_cycle, for_in.
    apply (for_from_poll_raises w e l1 _ [] c l2 s); auto.
    rewrite Hp, length_app. simpl. lia. }
  split; [exact Hc|].
  unfold _poll. apply while_running_raise; [exact Hr|].
  now apply bind_raise.
Qed.

Lemma poll_exception_ends_polling_witness :
  _poll poll_of_B_raises 3 two_cameras_running
  = mkRun (Raise (mkExn RuntimeError "X_LINK_ERROR" [])) two_cameras_running
      [CallPoll camera_A; CallPoll camera_B].
Proof.
  apply (proj2 (poll_exception_ends_polling poll_of_B_raises 2 two_cameras_running
                  [camera_A] [] camera_B (mkExn RuntimeError "X_LINK_ERROR" [])
                  eq_refl eq_refl
                  (fun x H => match H with
                              | or_introl E => eq_ind camera_A
                                  (fun y => cam_poll poll_of_B_raises y = Ok true)
                                  eq_refl x E
                              | or_intror F => match F with end
                              end)
                  eq_refl)).
Defined.

(** ** [_report]: what its [except Exception] lets through *)

Lemma report_camera_raises w c s e :
  out (report_body w c s) = Raise e -> isinstance_Exception e = false ->
  report_camera w c s = mkRun (Raise e) s (evs (report_body w c s)).
Proof.
  intros Ho Hi. unfold report_camera, try_except. rewrite Ho.
  unfold except_Exception. rewrite Hi.
  apply run_eq; [exact Ho | apply report_body_frame | reflexivity].
Qed.

(** X9.  [_report] catches [Exception] only.  An exception of a report or
    of the agent that is no instance of [Exception] (KeyboardInterrupt,
    SystemExit) goes through the [except] clause: it is not logged, the
    cameras behind the one that raised are not reported, and the loop, and
    with it the reporting thread, ends with that exception.  The manager
    is left as it was. *)
Theorem report_interrupt_ends_reporting (w : World) (fuel : nat) (s : DeviceManager)
    (l1 l2 : list HubCamera) (c : HubCamera) (e : PyExn) :
  running s = true ->
  _hub_cameras s = l1 ++ c :: l2 ->
  (forall x, In x l1 -> catchable (out (report_body w x s))) ->
  out (report_body w c s) = Raise e -> isinstance_Exception e = false ->
  report_cycle w s
  = mkRun (Raise e) s
      (flat_map (fun x => evs (report_camera w x s)) l1 ++ evs (report_body w c s))
  /\ _report w (S fuel) s
     = mkRun (Raise e) s
         (flat_map (fun x => evs (report_camera w x s)) l1 ++ evs (report_body w c s)).
Proof.
  intros Hr Hp Hc Ho Hi.
  assert (Hcy : report_cycle w s
                = mkRun (Raise e) s
                    (flat_map (fun x => evs (report_camera w x s)) l1
                     ++ evs (report_body w c s))).
  { unfold report_cycle.
    rewrite (for_in_foreach _hub_cameras (report_camera w))
      by (intros; now rewrite report_camera_frame).
    rewrite Hp, foreach_app.
    destruct (foreach_report w l1 s s Hc) as (H1 & H2 & H3).
    rewrite (bind_ok _ _ s tt s (flat_map (fun x => evs (report_camera w x s)) l1))
      by (apply run_eq; assumption).
    cbn [foreach].
    rewrite (bind_raise _ _ s e s (evs (report_body w c s)))
      by (now apply report_camera_raises).
    reflexivity. }
  split; [exact Hcy|].
  unfold _report. apply while_running_raise; [exact Hr|].
  now apply bind_raise.
Qed.

Lemma report_interrupt_ends_reporting_witness :
  _report info_of_A_interrupted 3 two_cameras_running
  = mkRun (Raise (mkExn KeyboardInterrupt EmptyString [])) two_cameras_running
      [CallInfoReport camera_A].
Proof.
  apply (proj2 (report_interrupt_ends_reporting info_of_A_interrupted 2
                  two_cameras_running [] [camera_B] camera_A
                  (mkExn KeyboardInterrupt EmptyString [])
                  eq_refl eq_refl (fun x H => match H with end) eq_refl eq_refl)).
Defined.

(** ** [_connect]: when it waits and what ends it *)

Lemma wait_without_adds w t s :
  concurrent_adds w = [] ->
  exists s', stop_event_wait w t s = mkRun (Ok (stop_event s)) s' [Wait t]
             /\ _hub_cameras s' = _hub_cameras s
             /\ _devices s' = _devices s
             /\ connecting_to_device s' = connecting_to_device s.
Proof.
  intros Hq. destruct (stop_event s) eqn:Hs.
  - rewrite (stop_event_wait_set w t s Hs). exists s. auto.
  - rewrite (stop_event_wait_sleeps w t s Hs). eexists. split; [reflexivity|].
    unfold after_wait. cbn [_hub_cameras _devices connecting_to_device set_devices
                             set_clock].
    repeat split. unfold arrivals. rewrite Hq. cbn. apply app_nil_r.
Qed.

Lemma connect_cycle_equal_lengths w s :
  Datatypes.length (_hub_cameras s) = Datatypes.length (_devices s) ->
  concurrent_adds w = [] ->
  exists s', connect_cycle w s = mkRun (Ok tt) s' [Wait (seconds 5)]
             /\ _hub_cameras s' = _hub_cameras s
             /\ _devices s' = _devices s.
Proof.
  intros Hl Hq. unfold connect_cycle.
  rewrite (bind_ok _ _ s (_hub_cameras s) s []) by reflexivity.
  rewrite (bind_ok _ _ s (_devices s) s []) by reflexivity.
  rewrite (bind_ok _ _ s (connecting_to_device s) s []) by reflexivity.
  rewrite Hl, Nat.eqb_refl, orb_true_l.
  destruct (wait_without_adds w (seconds 5) s Hq) as (s1 & Hw & Hpool & Hd & _).
  rewrite (bind_ok _ _ _ _ _ _ Hw). cbn.
  exists s1. repeat split; congruence.
Qed.

(** X10.  The connection loop decides by the lengths of the two lists, not
    by their mxids: while the pool has as many cameras as the registry has
    devices it only waits 5 s, pass after pass, also when a registered
    device has no camera in the pool (a camera of a device that was removed
    since makes up the number).  No camera is made and no start routine is
    called until another thread changes a list. *)
Theorem connect_waits_on_equal_lengths (w : World) (fuel : nat) (s : DeviceManager) :
  Datatypes.length (_hub_cameras s) = Datatypes.length (_devices s) ->
  concurrent_adds w = [] ->
  Forall (fun ev => ev = Wait (seconds 5)) (evs (_connect w fuel s))
  /\ (forall d h, ~ In (CallDeviceStart d h) (evs (_connect w fuel s)))
  /\ _hub_cameras (st (_connect w fuel s)) = _hub_cameras s
  /\ _devices (st (_connect w fuel s)) = _devices s.
Proof.
  intros Hl Hq.
  assert (H : Forall (fun ev => ev = Wait (seconds 5)) (evs (_connect w fuel s))
              /\ _hub_cameras (st (_connect w fuel s)) = _hub_cameras s
              /\ _devices (st (_connect w fuel s)) = _devices s).
  { revert s Hl. unfold _connect.
    induction fuel as [|fuel IH]; intros s Hl; cbn [while_running].
    - cbn. auto.
    - rewrite (bind_ok _ _ s (running s) s []) by reflexivity.
      destruct (running s); [|cbn; auto].
      destruct (connect_cycle_equal_lengths w s Hl Hq) as (s1 & Hc & Hpool & Hd).
      rewrite (bind_ok _ _ _ _ _ _ Hc). cbn [out st evs app].
      destruct (IH s1) as (Hev & Hp & Hdv); [congruence|].
      split; [constructor; [reflexivity | exact Hev]|].
      split; congruence. }
  destruct H as (Hev & Hp & Hd). repeat split; auto.
  intros d h Hin. rewrite Forall_forall in Hev. specialize (Hev _ Hin). discriminate.
Qed.

Lemma connect_waits_on_equal_lengths_witness :
  ~ In "B"%string (map device_mxid (_hub_cameras B_registered_A_connected))
  /\ _hub_cameras (st (_connect calm_world 4 B_registered_A_connected)) = [camera_A]
  /\ forall h, ~ In (CallDeviceStart device_B h)
                 (evs (_connect calm_world 4 B_registered_A_connected)).
Proof.
  split; [vm_compute; intros [H|[]]; discriminate H|].
  pose proof (connect_waits_on_equal_lengths calm_world 4 B_registered_A_connected
                eq_refl eq_refl) as (_ & H2 & H3 & _).
  split; [exact H3 | intros h; apply H2].
Defined.

(** X11.  What [_connect_device] leaves behind when a call after the start
    routine raises.  When [hub_camera.start()] raises, the camera the start
    routine configured is neither stopped nor in the pool; when the connect
    callback raises, the camera is running, the callback was called, and
    the camera is neither stopped nor in the pool; when the start routine
    reports failure and [hub_camera.stop()] raises, that exception leaves
    as well.  The object made is lost in each case. *)
Theorem connect_device_failures (w : World) (d : Device) (s : DeviceManager) :
  let h := {| camera_obj := next_obj s; device_mxid := mxid d |} in
  (forall e, dev_start w d h = Ok true -> cam_start w h = Raise e ->
     _connect_device w d s
     = mkRun (Raise e) (set_next_obj (S (next_obj s)) s)
         [NewHubCamera h; CallDeviceStart d h; CallCameraStart h])
  /\ (forall e, dev_start w d h = Ok true -> cam_start w h = Ok tt ->
        dev_connect_callback w d h = Raise e ->
        _connect_device w d s
        = mkRun (Raise e) (set_next_obj (S (next_obj s)) s)
            [NewHubCamera h; CallDeviceStart d h; CallCameraStart h;
             CallConnectCallback d h])
  /\ (forall e, dev_start w d h = Ok false -> cam_stop w h = Raise e ->
        _connect_device w d s
        = mkRun (Raise e) (set_next_obj (S (next_obj s)) s)
            [NewHubCamera h; CallDeviceStart d h; CallCameraStop h]).
Proof.
  intros h.
  assert (Hnew : new_HubCamera (mxid d) s
                 = mkRun (Ok h) (set_next_obj (S (next_obj s)) s) [NewHubCamera h])
    by reflexivity.
  split; [|split].
  - intros e Hs Hc. unfold _connect_device.
    rewrite (bind_ok _ _ _ _ _ _ Hnew).
    rewrite (bind_ok _ _ _ true (set_next_obj (S (next_obj s)) s) [CallDeviceStart d h])
      by (unfold call; now rewrite Hs).
    cbn [negb].
    rewrite (bind_raise _ _ _ e (set_next_obj (S (next_obj s)) s) [CallCameraStart h])
      by (unfold call; now rewrite Hc).
    reflexivity.
  - intros e Hs Hc Hb. unfold _connect_device.
    rewrite (bind_ok _ _ _ _ _ _ Hnew).
    rewrite (bind_ok _ _ _ true (set_next_obj (S (next_obj s)) s) [CallDeviceStart d h])
      by (unfold call; now rewrite Hs).
    cbn [negb].
    rewrite (bind_ok _ _ _ tt (set_next_obj (S (next_obj s)) s) [CallCameraStart h])
      by (unfold call; now rewrite Hc).
    rewrite (bind_raise _ _ _ e (set_next_obj (S (next_obj s)) s)
               [CallConnectCallback d h])
      by (unfold call; now rewrite Hb).
    reflexivity.
  - intros e Hs Hc. unfold _connect_device.
    rewrite (bind_ok _ _ _ _ _ _ Hnew).
    rewrite (bind_ok _ _ _ false (set_next_obj (S (next_obj s)) s) [CallDeviceStart d h])
      by (unfold call; now rewrite Hs).
    cbn [negb]. unfold call. rewrite Hc. reflexivity.
Qed.

Lemma connect_device_failures_witness :
  _connect_device connect_callback_of_A_raises device_A one_device_started
  = mkRun (Raise (mkExn ValueError "no such stream" []))
      (set_next_obj 1 one_device_started)
      [NewHubCamera camera_A; CallDeviceStart device_A camera_A;
       CallCameraStart camera_A; CallConnectCallback device_A camera_A].
Proof.
  apply (proj1 (proj2 (connect_device_failures connect_callback_of_A_raises device_A
                         one_device_started))
           (mkExn ValueError "no such stream" []) eq_refl eq_refl eq_refl).
Defined.

(** An exception leaves the scan only out of a connection attempt, that is
    between the two assignments to [connecting_to_device]. *)
Lemma latched_bind {A B} (m : M A) (k : A -> M B) s :
  (forall e, out (m s) = Raise e -> connecting_to_device (st (m s)) = true) ->
  (forall a s' e, out (k a s') = Raise e -> connecting_to_device (st (k a s')) = true) ->
  forall e, out (bind m k s) = Raise e -> connecting_to_device (st (bind m k s)) = true.
Proof.
  intros Hm Hk e. unfold bind.
  destruct (m s) as [o s1 e1]; cbn [out st evs] in *.
  destruct o as [a|e'|]; cbn [out st]; intros H.
  - eapply Hk, H.
  - eapply Hm. reflexivity.
  - discriminate H.
Qed.

Lemma latched_connect_if_missing w mxids d s e :
  out (connect_if_missing w mxids d s) = Raise e ->
  connecting_to_device (st (connect_if_missing w mxids d s)) = true.
Proof.
  unfold connect_if_missing. destruct (negb _); [|discriminate].
  rewrite (bind_ok _ _ s tt (set_connecting_to_device true s) []) by reflexivity.
  cbn [out st].
  unfold bind. pose proof (keeps_flag_connect_device w d (set_connecting_to_device true s))
    as Hk.
  destruct (_connect_device w d (set_connecting_to_device true s)) as [o s1 e1];
    cbn [out st evs] in *.
  destruct o; cbn [out st]; intros H; try discriminate H. exact Hk.
Qed.

Lemma latched_for_from w mxids : forall fuel i s e,
  out (for_from fuel _devices (connect_if_missing w mxids) i s) = Raise e ->
  connecting_to_device (st (for_from fuel _devices (connect_if_missing w mxids) i s))
  = true.
Proof.
  induction fuel as [|fuel IH]; intros i s e; cbn [for_from]; [discriminate|].
  apply latched_bind.
  - unfold for_step. destruct (nth_error (_devices s) i); [|discriminate].
    apply latched_bind; [apply latched_connect_if_missing | discriminate].
  - intros [j|] s' e'; [apply IH | discriminate].
Qed.

Lemma latched_connect_cycle w s e :
  out (connect_cycle w s) = Raise e -> connecting_to_device (st (connect_cycle w s)) = true.
Proof.
  unfold connect_cycle.
  rewrite (bind_ok _ _ s (_hub_cameras s) s []) by reflexivity.
  rewrite (bind_ok _ _ s (_devices s) s []) by reflexivity.
  rewrite (bind_ok _ _ s (connecting_to_device s) s []) by reflexivity.
  cbn [out st]. destruct (_ || _).
  - destruct (stop_event_wait_run w (seconds 5) s) as (s1 & Hw & _).
    rewrite (bind_ok _ _ _ _ _ _ Hw). discriminate.
  - apply latched_for_from.
Qed.

Lemma latched_connect w : forall fuel s e,
  out (_connect w fuel s) = Raise e -> connecting_to_device (st (_connect w fuel s)) = true.
Proof.
  unfold _connect. induction fuel as [|fuel IH]; intros s e; cbn [while_running];
    [discriminate|].
  apply latched_bind; [discriminate|].
  intros [|] s' e'; [|discriminate].
  apply latched_bind; [apply latched_connect_cycle | intros _; apply IH].
Qed.

(** X12.  Whatever exception ends the connection loop (of a start routine,
    of [start] or [stop] of the new camera, of a connect callback), it
    ends it inside a connection attempt, so [connecting_to_device] is left
    set; and with the flag set every later pass of a connection loop only
    waits, so no device is connected any more. *)
Theorem connect_exception_latches_flag (w : World) (fuel : nat) (s : DeviceManager)
    (e : PyExn) :
  out (_connect w fuel s) = Raise e ->
  connecting_to_device (st (_connect w fuel s)) = true
  /\ forall w' fuel',
       Forall (fun ev => ev = Wait (seconds 5))
         (evs (_connect w' fuel' (st (_connect w fuel s))))
       /\ _hub_cameras (st (_connect w' fuel' (st (_connect w fuel s))))
          = _hub_cameras (st (_connect w fuel s)).
Proof.
  intros H. pose proof (latched_connect w fuel s e H) as Hf.
  split; [exact Hf|]. intros w' fuel'.
  destruct (connect_latched w' fuel' _ Hf) as (H1 & H2 & _). auto.
Qed.

Lemma connect_exception_latches_flag_witness :
  connecting_to_device (st (_connect connect_callback_of_A_raises 3 one_device_started))
  = true
  /\ _hub_cameras (st (_connect connect_callback_of_A_raises 3 one_device_started)) = [].
Proof.
  split.
  - apply (proj1 (connect_exception_latches_flag connect_callback_of_A_raises 3
                    one_device_started (mkExn ValueError "no such stream" [])
                    ltac:(vm_compute; reflexivity))).
  - vm_compute. reflexivity.
Defined.

(** ** [_connect]: one scan of the registry *)

Lemma connect_if_missing_present w mxids d s :
  missing mxids d = false -> connect_if_missing w mxids d s = mkRun (Ok tt) s [].
Proof. unfold connect_if_missing, missing. intros ->. reflexivity. Qed.

Lemma connect_if_missing_attempt w mxids d s :
  missing mxids d = true ->
  connecting_to_device s = false ->
  attempt_returns w d {| camera_obj := next_obj s; device_mxid := mxid d |} ->
  let h := {| camera_obj := next_obj s; device_mxid := mxid d |} in
  connect_if_missing w mxids d s
  = mkRun (Ok tt)
      (set_next_obj (S (next_obj s))
         (set_hub_cameras (_hub_cameras s ++ (if start_succeeds w d h then [h] else [])) s))
      (attempt_trace w d h).
Proof.
  intros Hm Hf Hr h. fold h in Hr. unfold attempt_returns in Hr.
  unfold connect_if_missing. unfold missing in Hm. rewrite Hm.
  rewrite (bind_ok _ _ s tt (set_connecting_to_device true s) []) by reflexivity.
  cbn [app].
  set (s1 := set_connecting_to_device true s).
  assert (Hnew : new_HubCamera (mxid d) s1
                 = mkRun (Ok h) (set_next_obj (S (next_obj s)) s1) [NewHubCamera h])
    by reflexivity.
  unfold attempt_trace, start_succeeds.
  destruct (dev_start w d h) as [[|]|e|] eqn:Hb; try contradiction.
  - destruct Hr as [Hstart Hcb].
    rewrite (bind_ok _ _ s1 tt
               (set_hub_cameras (_hub_cameras s ++ [h]) (set_next_obj (S (next_obj s)) s1))
               [NewHubCamera h; CallDeviceStart d h; CallCameraStart h;
                CallConnectCallback d h; PoolAppend h]).
    + cbn [out st evs modify]. apply run_eq; try reflexivity.
      subst s1. destruct s; cbn in *. subst. reflexivity.
    + unfold _connect_device. rewrite (bind_ok _ _ _ _ _ _ Hnew).
      rewrite (bind_ok _ _ _ true (set_next_obj (S (next_obj s)) s1)
                 [CallDeviceStart d h]) by (unfold call; now rewrite Hb).
      cbn [negb].
      rewrite (bind_ok _ _ _ tt (set_next_obj (S (next_obj s)) s1) [CallCameraStart h])
        by (unfold call; now rewrite Hstart).
      rewrite (bind_ok _ _ _ tt (set_next_obj (S (next_obj s)) s1)
                 [CallConnectCallback d h]) by (unfold call; now rewrite Hcb).
      reflexivity.
  - rewrite (bind_ok _ _ s1 tt (set_next_obj (S (next_obj s)) s1)
               [NewHubCamera h; CallDeviceStart d h; CallCameraStop h]).
    + cbn [out st evs modify]. apply run_eq; try reflexivity.
      subst s1. destruct s; cbn in *. subst. now rewrite app_nil_r.
    + unfold _connect_device. rewrite (bind_ok _ _ _ _ _ _ Hnew).
      rewrite (bind_ok _ _ _ false (set_next_obj (S (next_obj s)) s1)
                 [CallDeviceStart d h]) by (unfold call; now rewrite Hb).
      cbn [negb]. unfold call. rewrite Hr. reflexivity.
Qed.

Lemma foreach_scan w mxids : forall ds s,
  connecting_to_device s = false ->
  (forall d h, In d ds -> attempt_returns w d h) ->
  foreach (connect_if_missing w mxids) ds s
  = mkRun (Ok tt)
      (set_next_obj (next_obj s + attempts mxids ds)
         (set_hub_cameras (_hub_cameras s ++ scan_cameras w mxids (next_obj s) ds) s))
      (scan_trace w mxids (next_obj s) ds).
Proof.
  induction ds as [|d ds IH]; intros s Hf Hr.
  - cbn. rewrite Nat.add_0_r, app_nil_r. destruct s; reflexivity.
  - cbn [foreach scan_cameras scan_trace]. unfold attempts. cbn [filter].
    assert (Hr' : forall d' h, In d' ds -> attempt_returns w d' h)
      by (intros; apply Hr; now right).
    destruct (missing mxids d) eqn:Hm.
    + rewrite (bind_ok _ _ _ _ _ _
                 (connect_if_missing_attempt w mxids d s Hm Hf (Hr d _ (or_introl eq_refl)))).
      rewrite IH by auto. cbn [out st evs next_obj set_next_obj set_hub_cameras
                                 _hub_cameras Datatypes.length].
      apply run_eq; cbn [out st evs]; try reflexivity.
      unfold attempts. rewrite <- app_assoc.
      replace (S (next_obj s) + Datatypes.length (filter (missing mxids) ds))
        with (next_obj s + S (Datatypes.length (filter (missing mxids) ds))) by lia.
      destruct s; reflexivity.
    + rewrite (bind_ok _ _ _ _ _ _ (connect_if_missing_present w mxids d s Hm)).
      rewrite IH by auto. reflexivity.
Qed.

Lemma connect_cycle_scans w s :
  Datatypes.length (_hub_cameras s) <> Datatypes.length (_devices s) ->
  connecting_to_device s = false ->
  (forall d h, In d (_devices s) -> attempt_returns w d h) ->
  connect_cycle w s
  = mkRun (Ok tt)
      (set_next_obj
         (next_obj s + attempts (map device_mxid (_hub_cameras s)) (_devices s))
         (set_hub_cameras
            (_hub_cameras s
             ++ scan_cameras w (map device_mxid (_hub_cameras s)) (next_obj s) (_devices s))
            s))
      (scan_trace w (map device_mxid (_hub_cameras s)) (next_obj s) (_devices s)).
Proof.
  intros Hl Hf Hr. unfold connect_cycle.
  rewrite (bind_ok _ _ s (_hub_cameras s) s []) by reflexivity.
  rewrite (bind_ok _ _ s (_devices s) s []) by reflexivity.
  rewrite (bind_ok _ _ s (connecting_to_device s) s []) by reflexivity.
  apply Nat.eqb_neq in Hl. rewrite Hl, Hf. cbn [orb app].
  rewrite (for_in_foreach _devices (connect_if_missing w _))
    by (intros; apply keeps_devices_connect_if_missing).
  rewrite (foreach_scan w _ (_devices s) s Hf Hr).
  reflexivity.
Qed.

Lemma scan_trace_counts w mxids : forall ds n,
  count_events is_new_camera (scan_trace w mxids n ds) = attempts mxids ds
  /\ count_events is_wait (scan_trace w mxids n ds) = 0.
Proof.
  induction ds as [|x ds IH]; intros n; cbn [scan_trace]; [split; reflexivity|].
  unfold attempts. cbn [filter].
  destruct (missing mxids x); [|apply IH].
  rewrite !count_events_app. destruct (IH (S n)) as [H1 H2]. rewrite H1, H2.
  unfold attempt_trace, attempts.
  destruct (start_succeeds w x _); split; reflexivity.
Qed.

(** X13.  One pass of the connection loop over lists of different lengths,
    when every call of a collaborator returns: the pass takes the mxids of
    the pool once, before the scan, and then makes one attempt for each
    device of the registry whose mxid is not among them, in the order of
    the registry and without a wait in between; the cameras whose start
    routine returned [True] are appended to the pool in that order, each a
    new object. *)
Theorem connect_cycle_scan (w : World) (s : DeviceManager) :
  Datatypes.length (_hub_cameras s) <> Datatypes.length (_devices s) ->
  connecting_to_device s = false ->
  (forall d h, In d (_devices s) -> attempt_returns w d h) ->
  connect_cycle w s
  = mkRun (Ok tt)
      (set_next_obj
         (next_obj s + attempts (map device_mxid (_hub_cameras s)) (_devices s))
         (set_hub_cameras
            (_hub_cameras s
             ++ scan_cameras w (map device_mxid (_hub_cameras s)) (next_obj s) (_devices s))
            s))
      (scan_trace w (map device_mxid (_hub_cameras s)) (next_obj s) (_devices s))
  /\ count_events is_new_camera (evs (connect_cycle w s))
     = attempts (map device_mxid (_hub_cameras s)) (_devices s)
  /\ count_events is_wait (evs (connect_cycle w s)) = 0.
Proof.
  intros Hl Hf Hr. rewrite (connect_cycle_scans w s Hl Hf Hr). cbn [evs].
  split; [reflexivity|]. apply scan_trace_counts.
Qed.

Lemma connect_cycle_scan_witness :
  connect_cycle calm_world A_evicted
  = mkRun (Ok tt)
      (mkManager [device_A; device_B]
         [camera_B; {| camera_obj := 2; device_mxid := "A" |}]
         true false false Alive Alive Alive 3 0%Z)
      [NewHubCamera {| camera_obj := 2; device_mxid := "A" |};
       CallDeviceStart device_A {| camera_obj := 2; device_mxid := "A" |};
       CallCameraStart {| camera_obj := 2; device_mxid := "A" |};
       CallConnectCallback device_A {| camera_obj := 2; device_mxid := "A" |};
       PoolAppend {| camera_obj := 2; device_mxid := "A" |}].
Proof.
  apply (proj1 (connect_cycle_scan calm_world A_evicted
                  ltac:(vm_compute; discriminate) eq_refl
                  (fun d h _ => conj eq_refl eq_refl))).
Defined.

Lemma NoDup_map_filter {A B} (f : A -> B) (p : A -> bool) l :
  NoDup (map f l) -> NoDup (map f (filter p l)).
Proof.
  induction l as [|x l IH]; cbn [map filter]; intros H; [constructor|].
  inversion H as [|? ? Hx Hl]; subst.
  destruct (p x); cbn [map]; auto. constructor; auto.
  intros Hin. apply Hx. apply in_map_iff in Hin. destruct Hin as (y & Hy & Hin).
  apply filter_In in Hin. apply in_map_iff. exists y. tauto.
Qed.

Lemma missing_false_in mxids d : missing mxids d = false <-> In (mxid d) mxids.
Proof.
  unfold missing. rewrite negb_false_iff, existsb_exists. split.
  - intros (x & Hx & He). apply String.eqb_eq in He. now subst.
  - intros H. exists (mxid d). split; [exact H | apply String.eqb_refl].
Qed.

Lemma scan_cameras_reaches w mxids : forall ds n d,
  In d ds -> missing mxids d = true -> (forall h, dev_start w d h = Ok true) ->
  In (mxid d) (map device_mxid (scan_cameras w mxids n ds)).
Proof.
  induction ds as [|x ds IH]; intros n d Hin Hm Hs; [contradiction|].
  destruct Hin as [Hx|Hin]; cbn [scan_cameras].
  - subst x. rewrite Hm. unfold start_succeeds. rewrite Hs.
    cbn. now left.
  - destruct (missing mxids x); [|now apply IH].
    rewrite map_app. apply in_or_app. right. now apply IH.
Qed.

Lemma scan_cameras_mxids w mxids : forall ds n,
  (forall d h, In d ds -> dev_start w d h = Ok true) ->
  map device_mxid (scan_cameras w mxids n ds) = map mxid (filter (missing mxids) ds).
Proof.
  induction ds as [|x ds IH]; intros n Hs; cbn [scan_cameras filter]; [reflexivity|].
  assert (Hs' : forall d h, In d ds -> dev_start w d h = Ok true)
    by (intros; apply Hs; now right).
  destruct (missing mxids x); [|now apply IH].
  unfold start_succeeds. rewrite (Hs x _ (or_introl eq_refl)).
  cbn [app map device_mxid]. f_equal. now apply IH.
Qed.

(** X14.  The pass brings the pool up to the registry.  When every call
    returns, every registered device whose start routine returns [True]
    has a camera in the pool after one pass over lists of different
    lengths.  When that is so for every device, and the mxids of the
    registry are distinct and those of the pool distinct and among them,
    the pool has after the pass one camera for each device and as many
    cameras as the registry has devices, so the next pass only waits. *)
Theorem connect_cycle_connects_the_missing (w : World) (s : DeviceManager) :
  Datatypes.length (_hub_cameras s) <> Datatypes.length (_devices s) ->
  connecting_to_device s = false ->
  (forall d h, In d (_devices s) -> attempt_returns w d h) ->
  (forall d, In d (_devices s) -> (forall h, dev_start w d h = Ok true) ->
     In (mxid d) (map device_mxid (_hub_cameras (st (connect_cycle w s)))))
  /\ ((forall d h, In d (_devices s) -> dev_start w d h = Ok true) ->
      lists_invariant (_devices s) (_hub_cameras s) None ->
      lists_invariant (_devices s) (_hub_cameras (st (connect_cycle w s))) None
      /\ (forall d, In d (_devices s) ->
            In (mxid d) (map device_mxid (_hub_cameras (st (connect_cycle w s)))))
      /\ Datatypes.length (_hub_cameras (st (connect_cycle w s)))
         = Datatypes.length (_devices s)
      /\ evs (connect_cycle w (st (connect_cycle w s))) = [Wait (seconds 5)]).
Proof.
  intros Hl Hf Hr. rewrite (connect_cycle_scans w s Hl Hf Hr).
  cbn [st _hub_cameras _devices set_next_obj set_hub_cameras].
  set (mxids := map device_mxid (_hub_cameras s)).
  assert (Hreach : forall d, In d (_devices s) -> (forall h, dev_start w d h = Ok true) ->
            In (mxid d)
              (map device_mxid
                 (_hub_cameras s ++ scan_cameras w mxids (next_obj s) (_devices s)))).
  { intros d Hd Hs. rewrite map_app. apply in_or_app.
    destruct (missing mxids d) eqn:Hm.
    - right. now apply scan_cameras_reaches.
    - left. now apply missing_false_in. }
  split; [exact Hreach|].
  intros Hs (Hnd & Hnp & Hincl & _).
  assert (Hall : forall d, In d (_devices s) ->
            In (mxid d)
              (map device_mxid
                 (_hub_cameras s ++ scan_cameras w mxids (next_obj s) (_devices s))))
    by (intros d Hd; apply Hreach; auto).
  assert (Hmx : map device_mxid
                  (_hub_cameras s ++ scan_cameras w mxids (next_obj s) (_devices s))
                = mxids ++ map mxid (filter (missing mxids) (_devices s)))
    by (rewrite map_app, (scan_cameras_mxids w mxids _ _ Hs); reflexivity).
  assert (Hnd' : NoDup (mxids ++ map mxid (filter (missing mxids) (_devices s)))).
  { apply NoDup_app; [exact Hnp | now apply NoDup_map_filter |].
    intros x Hx Hin. apply in_map_iff in Hin. destruct Hin as (d & <- & Hd).
    apply filter_In in Hd. destruct Hd as [_ Hm].
    apply missing_false_in in Hx. congruence. }
  assert (Hincl' : incl (mxids ++ map mxid (filter (missing mxids) (_devices s)))
                     (map mxid (_devices s))).
  { intros x Hx. apply in_app_or in Hx. destruct Hx as [Hx|Hx]; [now apply Hincl|].
    apply in_map_iff in Hx. destruct Hx as (d & <- & Hd).
    apply filter_In in Hd. apply in_map. tauto. }
  assert (Hlen : Datatypes.length
                   (_hub_cameras s ++ scan_cameras w mxids (next_obj s) (_devices s))
                 = Datatypes.length (_devices s)).
  { rewrite <- (length_map device_mxid), <- (length_map mxid (_devices s)).
    apply Nat.le_antisymm.
    - rewrite Hmx. now apply NoDup_incl_length.
    - apply NoDup_incl_length; [exact Hnd|].
      intros x Hx. apply in_map_iff in Hx. destruct Hx as (d & <- & Hd). now apply Hall. }
  split; [|split; [exact Hall|split; [exact Hlen|]]].
  - unfold lists_invariant. rewrite Hmx. auto.
  - unfold connect_cycle.
    match goal with |- evs (bind _ _ ?s1) = _ => set (s' := s1) end.
    rewrite (bind_ok _ _ s' (_hub_cameras s') s' []) by reflexivity.
    rewrite (bind_ok _ _ s' (_devices s') s' []) by reflexivity.
    rewrite (bind_ok _ _ s' (connecting_to_device s') s' []) by reflexivity.
    replace (Datatypes.length (_hub_cameras s') =? Datatypes.length (_devices s'))%nat
      with true by (symmetry; apply Nat.eqb_eq; exact Hlen).
    cbn [orb].
    destruct (stop_event_wait_run w (seconds 5) s') as (s1 & Hw & _).
    rewrite (bind_ok _ _ _ _ _ _ Hw). reflexivity.
Qed.

Lemma connect_cycle_connects_the_missing_witness :
  Datatypes.length (_hub_cameras (st (connect_cycle calm_world A_evicted))) = 2
  /\ In "A"%string (map device_mxid (_hub_cameras (st (connect_cycle calm_world A_evicted)))).
Proof.
  destruct (connect_cycle_connects_the_missing calm_world A_evicted) as [H1 H2].
  - vm_compute. discriminate.
  - reflexivity.
  - intros d h _. split; reflexivity.
  - split.
    + apply H2; [reflexivity|]. vm_compute.
      repeat split; try (intros x [H|[]]; subst; auto); try exact I.
      * repeat constructor; simpl; intuition discriminate.
      * repeat constructor; simpl; intuition discriminate.
    + apply (H1 device_A); [now left | reflexivity].
Defined.

Lemma scan_cameras_all_fail w mxids : forall ds n,
  (forall d h, In d ds -> dev_start w d h = Ok false) ->
  scan_cameras w mxids n ds = [].
Proof.
  induction ds as [|x ds IH]; intros n Hs; cbn [scan_cameras]; [reflexivity|].
  assert (Hs' : forall d h, In d ds -> dev_start w d h = Ok false)
    by (intros; apply Hs; now right).
  destruct (missing mxids x); [|now apply IH].
  unfold start_succeeds. rewrite (Hs x _ (or_introl eq_refl)). cbn [app]. now apply IH.
Qed.

(** X15.  When the start routine of every registered device returns
    [False], the connection loop never waits: each pass makes a new camera
    for every device whose mxid is not in the pool, calls the start
    routine, stops the camera, and goes straight into the next pass.  However
    many passes it makes, no time passes and the pool stays as it was. *)
Theorem connect_spins_on_failing_start (w : World) (fuel : nat) (s : DeviceManager) :
  running s = true ->
  Datatypes.length (_hub_cameras s) <> Datatypes.length (_devices s) ->
  connecting_to_device s = false ->
  (forall d h, In d (_devices s) -> dev_start w d h = Ok false /\ cam_stop w h = Ok tt) ->
  out (_connect w fuel s) = Hang
  /\ count_events is_wait (evs (_connect w fuel s)) = 0
  /\ count_events is_new_camera (evs (_connect w fuel s))
     = fuel * attempts (map device_mxid (_hub_cameras s)) (_devices s)
  /\ clock (st (_connect w fuel s)) = clock s
  /\ _hub_cameras (st (_connect w fuel s)) = _hub_cameras s.
Proof.
  revert s. unfold _connect. induction fuel as [|fuel IH]; intros s Hr Hl Hf Hs.
  - cbn. auto.
  - assert (Hret : forall d h, In d (_devices s) -> attempt_returns w d h).
    { intros d h Hd. unfold attempt_returns. destruct (Hs d h Hd) as [-> H]. exact H. }
    pose proof (connect_cycle_scans w s Hl Hf Hret) as Hc.
    rewrite (scan_cameras_all_fail w _ (_devices s) _ (fun d h H => proj1 (Hs d h H))),
      app_nil_r, set_hub_cameras_same in Hc.
    rewrite (while_running_next _ fuel s _ _ Hr Hc). cbn [out st evs].
    match type of Hc with _ = mkRun _ ?s1 _ => destruct (IH s1) as (H1 & H2 & H3 & H4 & H5) end;
      try assumption.
    rewrite !count_events_app, H2, H3.
    destruct (scan_trace_counts w (map device_mxid (_hub_cameras s)) (_devices s)
                (next_obj s)) as [-> ->].
    repeat split; auto.
Qed.

Lemma connect_spins_on_failing_start_witness :
  out (_connect every_start_fails 4 one_device_started) = Hang
  /\ count_events is_wait (evs (_connect every_start_fails 4 one_device_started)) = 0
  /\ count_events is_new_camera (evs (_connect every_start_fails 4 one_device_started))
     = 4.
Proof.
  destruct (connect_spins_on_failing_start every_start_fails 4 one_device_started)
    as (H1 & H2 & H3 & _).
  - reflexivity.
  - vm_compute. discriminate.
  - reflexivity.
  - intros d h _. split; reflexivity.
  - split; [exact H1 | split; [exact H2 | exact H3]].
Defined.

(** ** [start]: with a device registered, and a second time *)

(** X16.  With a device in the registry [start] does not wait, whether
    or not the stop event is set: it sets [running], starts the three
    threads, connection thread first, logs each start, and returns. *)
Theorem start_with_registered_device (w : World) (fuel : nat) (s : DeviceManager) :
  _devices s <> [] -> (forall n, thread_status n s = Created) ->
  start w (S fuel) s = mkRun (Ok tt) (launched (set_running true s)) launch_events.
Proof.
  intros Hd Hth.
  assert (Hg : start_gate w (S fuel) (set_running true s)
               = mkRun (Ok tt) (set_running true s) [])
    by (apply start_gate_goes; [reflexivity | exact Hd]).
  rewrite start_launches_after_gate; rewrite Hg; cbn [out st evs]; auto.
Qed.

Lemma start_with_registered_device_witness :
  start calm_world 1 (st (add_device device_A DEVICE_MANAGER))
  = mkRun (Ok tt) one_device_started launch_events.
Proof.
  apply (start_with_registered_device calm_world 0
           (st (add_device device_A DEVICE_MANAGER))).
  - discriminate.
  - intros []; reflexivity.
Defined.

(** X17.  [__init__] makes the three threads once and [start] starts those
    very threads, so a [start] on a manager whose connection thread was
    started before ends at [connection_thread.start()] with the
    RuntimeError of [Thread.start]: it has set [running] and got through
    its wait, it starts no thread and logs nothing.  That is how a second
    [start] after a first ends. *)
Theorem second_start_raises (w : World) (fuel : nat) (s : DeviceManager) :
  _devices s <> [] -> connection_thread s <> Created ->
  start w (S fuel) s = mkRun (Raise RuntimeError_started_twice) (set_running true s) []
  /\ connection_thread (launched s) <> Created.
Proof.
  intros Hd Hth. split; [|destruct s; discriminate].
  unfold start.
  rewrite (bind_ok _ _ s tt (set_running true s) []) by reflexivity.
  rewrite (bind_ok _ _ _ tt (set_running true s) [])
    by (apply start_gate_goes; [reflexivity | exact Hd]).
  rewrite (bind_raise _ _ _ RuntimeError_started_twice (set_running true s) []);
    [reflexivity|].
  unfold thread_start.
  rewrite (bind_ok _ _ _ (connection_thread s) (set_running true s) []) by reflexivity.
  destruct (connection_thread s); [congruence | reflexivity | reflexivity].
Qed.

Lemma second_start_raises_witness :
  start calm_world 1 (st (start calm_world 1 (st (add_device device_A DEVICE_MANAGER))))
  = mkRun (Raise RuntimeError_started_twice) one_device_started [].
Proof.
  apply (proj1 (second_start_raises calm_world 0
                  (st (start calm_world 1 (st (add_device device_A DEVICE_MANAGER))))
                  ltac:(discriminate) ltac:(discriminate))).
Defined.

(** ** [stop] when no thread is in the way *)

Lemma foreach_exit_clean w : forall l s,
  (forall c, In c l -> cam_state w c = DISCONNECTED \/ cam_exit w c = Ok tt) ->
  foreach (exit_camera w) l s = mkRun (Ok tt) s (map CallExit (open_cameras w l)).
Proof.
  induction l as [|c l IH]; intros s Hl; [reflexivity|].
  cbn [foreach]. unfold open_cameras. cbn [filter]. fold (open_cameras w l).
  assert (IH' := IH s (fun c' Hin => Hl c' (or_intror Hin))).
  destruct (exit_camera_cases w c s) as [[Hd Hc]|[Hnc Hc]].
  - rewrite (bind_ok _ _ _ _ _ _ Hc), IH'. rewrite Hd. reflexivity.
  - destruct (Hl c (or_introl eq_refl)) as [Hd|Hok]; [contradiction|].
    rewrite Hok in Hc. rewrite (bind_ok _ _ _ _ _ _ Hc), IH'.
    destruct (DeviceState_eqb (cam_state w c) DISCONNECTED) eqn:E;
      [apply DeviceState_eqb_eq in E; contradiction | reflexivity].
Qed.

Lemma foreach_exit_stops w l1 h l2 s e :
  (forall c, In c l1 -> cam_state w c = DISCONNECTED \/ cam_exit w c = Ok tt) ->
  cam_state w h <> DISCONNECTED -> cam_exit w h = Raise e ->
  foreach (exit_camera w) (l1 ++ h :: l2) s
  = mkRun (Raise (exit_failure h e)) s (map CallExit (open_cameras w l1) ++ [CallExit h]).
Proof.
  intros Hl Hn He. rewrite foreach_app.
  rewrite (bind_ok _ _ _ _ _ _ (foreach_exit_clean w l1 s Hl)).
  cbn [foreach].
  destruct (exit_camera_cases w h s) as [[Hd _]|[_ Hc]]; [contradiction|].
  rewrite He in Hc. rewrite (bind_raise _ _ _ _ _ _ Hc). reflexivity.
Qed.

Lemma teardown_destroyed w s :
  streams_destroy_all_streams w = Ok tt ->
  teardown w s
  = mkRun (out ((foreach (exit_camera w) (_hub_cameras s) ;;
                 emit (Log INFO "App: stopped successfully.")) s))
      (st ((foreach (exit_camera w) (_hub_cameras s) ;;
            emit (Log INFO "App: stopped successfully.")) s))
      (CallDestroyAllStreams
       :: evs ((foreach (exit_camera w) (_hub_cameras s) ;;
                emit (Log INFO "App: stopped successfully.")) s)).
Proof.
  intros Hd. unfold teardown.
  rewrite (bind_ok _ _ s tt s [CallDestroyAllStreams])
    by (unfold try_except, call; cbn [out]; rewrite Hd; reflexivity).
  cbn [app].
  unfold bind.
  rewrite (for_in_foreach _hub_cameras (exit_camera w))
    by (intros; now rewrite exit_camera_frame).
  destruct (foreach (exit_camera w) (_hub_cameras s) s) as [o s1 e1].
  cbn [out st evs]. destruct o; reflexivity.
Qed.

Lemma stop_is_teardown w fuel s o s1 tr :
  no_thread_alive s ->
  teardown w (set_stop_event true s) = mkRun o s1 tr ->
  stop w fuel s
  = mkRun o s1 (Log DEBUG "Threads: gracefully stopping..." :: SetStopEvent :: tr).
Proof.
  intros Hn Ht. destruct (stop_no_thread_alive w fuel s Hn) as (H1 & H2 & H3).
  rewrite Ht in *. now apply run_eq.
Qed.

(** X18.  [stop] with no thread to wait for, when the teardown of the
    streams and the exit of every open camera return: it sets the stop
    event, destroys the streams, exits the cameras whose state is not
    DISCONNECTED, in the order of the pool, logs and returns.  It changes
    nothing but the stop event: the cameras stay in the pool, none is
    stopped, and [running] is not cleared. *)
Theorem stop_clean_run (w : World) (fuel : nat) (s : DeviceManager) :
  no_thread_alive s ->
  streams_destroy_all_streams w = Ok tt ->
  (forall c, In c (_hub_cameras s) -> cam_state w c = DISCONNECTED \/ cam_exit w c = Ok tt) ->
  stop w fuel s
  = mkRun (Ok tt) (set_stop_event true s)
      ([Log DEBUG "Threads: gracefully stopping..."; SetStopEvent; CallDestroyAllStreams]
       ++ map CallExit (open_cameras w (_hub_cameras s))
       ++ [Log INFO "App: stopped successfully."]).
Proof.
  intros Hn Hd Hl. apply stop_is_teardown; [exact Hn|].
  rewrite (teardown_destroyed w _ Hd).
  cbn [_hub_cameras set_stop_event].
  rewrite (bind_ok _ _ _ _ _ _ (foreach_exit_clean w (_hub_cameras s) _ Hl)).
  reflexivity.
Qed.

Lemma stop_clean_run_witness :
  stop calm_world 0 two_cameras_threads_ended
  = mkRun (Ok tt) (set_stop_event true two_cameras_threads_ended)
      [Log DEBUG "Threads: gracefully stopping..."; SetStopEvent; CallDestroyAllStreams;
       CallExit camera_A; CallExit camera_B; Log INFO "App: stopped successfully."].
Proof.
  apply (stop_clean_run calm_world 0 two_cameras_threads_ended).
  - vm_compute. repeat split; discriminate.
  - reflexivity.
  - intros c _. right. reflexivity.
Defined.

(** X19.  Where [stop] gives up.  When the teardown of the streams raises,
    no camera is exited at all.  When the exit of a camera raises, the
    cameras behind it in the pool are not exited and the last line is not
    logged.  In both cases the stop event is all that [stop] has changed. *)
Theorem stop_abandons_the_rest (w : World) (fuel : nat) (s : DeviceManager) :
  no_thread_alive s ->
  (forall e, streams_destroy_all_streams w = Raise e ->
     stop w fuel s
     = mkRun (Raise (destroy_failure e)) (set_stop_event true s)
         [Log DEBUG "Threads: gracefully stopping..."; SetStopEvent;
          CallDestroyAllStreams])
  /\ (forall l1 h l2 e,
        streams_destroy_all_streams w = Ok tt ->
        _hub_cameras s = l1 ++ h :: l2 ->
        (forall c, In c l1 -> cam_state w c = DISCONNECTED \/ cam_exit w c = Ok tt) ->
        cam_state w h <> DISCONNECTED ->
        cam_exit w h = Raise e ->
        stop w fuel s
        = mkRun (Raise (exit_failure h e)) (set_stop_event true s)
            ([Log DEBUG "Threads: gracefully stopping..."; SetStopEvent;
              CallDestroyAllStreams]
             ++ map CallExit (open_cameras w l1) ++ [CallExit h])).
Proof.
  intros Hn. split.
  - intros e Hd. apply stop_is_teardown; [exact Hn|].
    unfold teardown. apply bind_raise.
    unfold try_except, call. cbn [out]. rewrite Hd. reflexivity.
  - intros l1 h l2 e Hd Hp Hl Hs He. apply stop_is_teardown; [exact Hn|].
    rewrite (teardown_destroyed w _ Hd).
    cbn [_hub_cameras set_stop_event]. rewrite Hp.
    rewrite (bind_raise _ _ _ _ _ _ (foreach_exit_stops w l1 h l2 _ e Hl Hs He)).
    reflexivity.
Qed.

Lemma stop_abandons_the_rest_witness :
  evs (stop exit_of_A_fails 0 two_cameras_threads_ended)
  = [Log DEBUG "Threads: gracefully stopping..."; SetStopEvent; CallDestroyAllStreams;
     CallExit camera_A].
Proof.
  pose proof (stop_abandons_the_rest exit_of_A_fails 0 two_cameras_threads_ended) as H.
  destruct H as [_ H].
  - vm_compute. repeat split; discriminate.
  - rewrite (H [] camera_A [camera_B] (mkExn RuntimeError "X_LINK_DEVICE_NOT_FOUND" []));
      try reflexivity.
    + intros c [].
    + discriminate.
Defined.

(** ** [stop] and a loop that is still going *)

Lemma graceful_join_out w t fuel s :
  thread_status t s = Alive -> thread_join_raises w t = None ->
  out (__graceful_thread_join w t fuel s)
  = match out (thread_target w t fuel s) with
    | Hang => Hang
    | _ => Ok tt
    end.
Proof.
  intros Ha Hj. unfold __graceful_thread_join, try_except, bind, gets.
  cbn [out st evs]. rewrite Ha. cbv beta iota. unfold thread_join. rewrite Hj.
  destruct (out (thread_target w t fuel s)); reflexivity.
Qed.

Lemma graceful_join_interrupted w t fuel s e :
  thread_status t s = Alive -> thread_join_raises w t = Some e ->
  __graceful_thread_join w t fuel s
  = mkRun (Ok tt) s
      [ThreadJoin t;
       Log ERROR (thread_getName t ++ ": join excepted with: " ++ str e ++ ".")%string].
Proof.
  intros Ha Hj. unfold __graceful_thread_join, try_except, bind, gets.
  cbn [out st evs]. rewrite Ha. cbv beta iota. unfold thread_join. rewrite Hj.
  reflexivity.
Qed.

(** X20.  Nothing in the manager clears [running], so once it is set no
    loop returns, with or without the stop event; a loop ends only when an
    exception of a collaborator goes through it.  So [join] on a thread
    that is alive comes back in two ways only.  Either the loop was ended
    by an exception; or [join] itself raised in the caller, and then
    [__graceful_thread_join] logs the error and returns with the thread
    still alive and its loop going.  [stop] gets past its first [join] in
    one of these two ways only. *)
Theorem join_needs_a_dead_loop (w : World) (t : ThreadName) (fuel : nat)
    (s : DeviceManager) :
  running s = true ->
  out (thread_target w t fuel s) <> Ok tt
  /\ (thread_status t s = Alive ->
      (forall e, thread_join_raises w t = Some e ->
         __graceful_thread_join w t fuel s
         = mkRun (Ok tt) s
             [ThreadJoin t;
              Log ERROR
                (thread_getName t ++ ": join excepted with: " ++ str e ++ ".")%string]
         /\ thread_status t (st (__graceful_thread_join w t fuel s)) = Alive)
      /\ (thread_join_raises w t = None ->
          (out (__graceful_thread_join w t fuel s) = Ok tt
           <-> exists e, out (thread_target w t fuel s) = Raise e)
          /\ (out (__graceful_thread_join w t fuel s) = Hang
              <-> out (thread_target w t fuel s) = Hang)))
  /\ (connection_thread s = Alive -> out (stop w fuel s) <> Hang ->
      (exists e, thread_join_raises w ConnectionThread = Some e)
      \/ exists e, out (_connect w fuel (set_stop_event true s)) = Raise e).
Proof.
  intros Hr. pose proof (loops_never_return w t fuel s Hr) as Hn.
  split; [exact Hn|]. split.
  - intros Ha. split.
    + intros e Hj. rewrite (graceful_join_interrupted w t fuel s e Ha Hj).
      split; [reflexivity | exact Ha].
    + intros Hj. rewrite (graceful_join_out w t fuel s Ha Hj).
      destruct (out (thread_target w t fuel s)) as [[]|e|]; split; split;
        try discriminate; try congruence; eauto.
      intros [e' H]. discriminate H.
  - intros Ha Hs.
    destruct (thread_join_raises w ConnectionThread) as [e|] eqn:Hj; [left; eauto|].
    right.
    pose proof (loops_never_return w ConnectionThread fuel (set_stop_event true s) Hr)
      as Hn'.
    cbn [thread_target] in Hn'.
    destruct (out (_connect w fuel (set_stop_event true s))) as [[]|e|] eqn:Ho;
      [congruence | eauto |].
    exfalso. apply Hs.
    assert (E : out (__graceful_thread_join w ConnectionThread fuel
                       (set_stop_event true s)) = Hang)
      by (apply graceful_join_hangs; [exact Ha | exact Hj | exact Ho]).
    unfold stop, bind, emit, modify. cbn [out st evs].
    rewrite E. reflexivity.
Qed.

Lemma join_needs_a_dead_loop_witness :
  out (thread_target poll_of_B_raises PollingThread 3 two_cameras_running) <> Ok tt
  /\ out (__graceful_thread_join poll_of_B_raises PollingThread 3 two_cameras_running)
     = Ok tt
  /\ __graceful_thread_join join_of_connection_interrupted ConnectionThread 3
       two_cameras_running
     = mkRun (Ok tt) two_cameras_running
         [ThreadJoin ConnectionThread;
          Log ERROR "ConnectionThread: join excepted with: interrupted."].
Proof.
  destruct (join_needs_a_dead_loop poll_of_B_raises PollingThread 3 two_cameras_running
              eq_refl) as (H1 & H2 & _).
  split; [exact H1|]. split.
  - apply (proj2 (proj1 (proj2 (H2 eq_refl) eq_refl))). eexists. vm_compute. reflexivity.
  - destruct (join_needs_a_dead_loop join_of_connection_interrupted ConnectionThread 3
                two_cameras_running eq_refl) as (_ & H3 & _).
    apply (proj1 (proj1 (H3 eq_refl) (mkExn KeyboardInterrupt "interrupted" []) eq_refl)).
Defined.

(** ** A camera is in the pool once *)

Lemma poll_camera_removes w c s l1 l2 :
  cam_poll w c = Ok false -> cam_stop w c = Ok tt ->
  _hub_cameras s = l1 ++ c :: l2 -> ~ In c l1 ->
  _hub_cameras (st (poll_camera w c s)) = l1 ++ l2.
Proof.
  intros Hp Hs Hl Hn. unfold poll_camera.
  rewrite (bind_ok _ _ s false s [CallPoll c]) by (unfold call; now rewrite Hp).
  cbn [st negb]. unfold _disconnect_camera.
  rewrite (bind_ok _ _ s tt s [Log INFO (disconnected_text c)]) by reflexivity.
  cbn [st].
  rewrite (bind_ok _ _ s tt s [CallCameraStop c]) by (unfold call; now rewrite Hs).
  cbn [st].
  assert (Hpr : pool_remove c s
                = mkRun (Ok tt) (set_hub_cameras (l1 ++ l2) s) [PoolRemove c]).
  { unfold pool_remove.
    rewrite (bind_ok _ _ s (_hub_cameras s) s []) by reflexivity.
    rewrite Hl, (list_remove_app HubCamera_eq_dec c l1 l2 Hn). reflexivity. }
  rewrite (bind_ok _ _ _ _ _ _ Hpr). cbn [st].
  rewrite (keeps_pool_after_remove w c (set_hub_cameras (l1 ++ l2) s)).
  reflexivity.
Qed.

(** X21.  However [add_device], [remove_device], [start] and the turns of
    the connection and polling threads are interleaved, and whatever the
    collaborators do, the cameras in the pool are distinct objects, each
    made by [HubCamera(...)] before the next one to be made, also when
    several of them have the same mxid.  So when the polling loop evicts a
    camera whose [stop] returns, [list.remove] takes out that very object
    and the camera is not in the pool afterwards, whether or not the
    disconnect callback returns. *)
Theorem pool_holds_each_camera_once (sys : System) :
  reachable any_step sys ->
  objects_invariant (manager sys)
  /\ NoDup (_hub_cameras (manager sys))
  /\ forall w c,
       In c (_hub_cameras (manager sys)) ->
       cam_poll w c = Ok false -> cam_stop w c = Ok tt ->
       ~ In c (_hub_cameras (st (poll_camera w c (manager sys))))
       /\ Datatypes.length (_hub_cameras (st (poll_camera w c (manager sys))))
          = pred (Datatypes.length (_hub_cameras (manager sys))).
Proof.
  intros Hr.
  assert (Hinv : objects_invariant (manager sys)).
  { induction Hr as [|sys a Hr IH _].
    - split; [constructor | intros c []].
    - now apply objects_invariant_exec. }
  assert (Hnd : NoDup (_hub_cameras (manager sys)))
    by (destruct Hinv as [Hnd _]; now apply NoDup_map_inv in Hnd).
  split; [exact Hinv|]. split; [exact Hnd|].
  intros w c Hin Hp Hs.
  destruct (in_split _ _ Hin) as (l1 & l2 & Hl).
  rewrite Hl in Hnd. destruct (NoDup_app_cons_not_in _ _ _ Hnd) as (H1 & H2 & _).
  rewrite (poll_camera_removes w c _ l1 l2 Hp Hs Hl H1). split.
  - intros H. apply in_app_or in H. tauto.
  - rewrite Hl, !length_app. cbn [Datatypes.length]. lia.
Qed.

Lemma pool_holds_each_camera_once_witness :
  map device_mxid (_hub_cameras (manager (run add_twice initial_system)))
  = ["A"%string; "A"%string]
  /\ NoDup (_hub_cameras (manager (run add_twice initial_system))).
Proof.
  split; [vm_compute; reflexivity|].
  apply (pool_holds_each_camera_once (run add_twice initial_system)).
  apply reachable_run; [constructor | intros; exact I].
Defined.

(** ** [stop]: the errors of the teardown, whatever the threads did *)

Lemma stop_split w fuel s : stop w fuel s = (stop_joins w fuel ;; teardown w) s.
Proof.
  unfold stop, stop_joins, bind, emit, modify. cbn [out st evs].
  destruct (__graceful_thread_join w ConnectionThread fuel (set_stop_event true s))
    as [o1 s1 e1]; cbn [out st evs].
  destruct o1; cbn [out st evs]; try reflexivity.
  destruct (__graceful_thread_join w ReportingThread fuel s1) as [o2 s2 e2];
    cbn [out st evs].
  destruct o2; cbn [out st evs]; try reflexivity.
  destruct (__graceful_thread_join w PollingThread fuel s2) as [o3 s3 e3];
    cbn [out st evs].
  destruct o3; cbn [out st evs]; try reflexivity.
  destruct (teardown w s3) as [o4 s4 e4]; cbn [out st evs].
  rewrite <- !app_assoc. reflexivity.
Qed.

Lemma emits_thread_target_before_teardown w t fuel :
  emits before_teardown (thread_target w t fuel).
Proof.
  destruct t; cbn [thread_target].
  - unfold _connect, connect_cycle, connect_if_missing, _connect_device,
      new_HubCamera, pool_append, stop_event_wait. emits_all.
  - unfold _report, report_cycle, report_camera, report_body, stop_event_wait.
    emits_all.
  - unfold _poll, poll_cycle, poll_camera, _disconnect_camera, pool_remove,
      _get_device_by_mxid, stop_event_wait. emits_all.
Qed.

Lemma emits_graceful_join_before_teardown w t fuel :
  emits before_teardown (__graceful_thread_join w t fuel).
Proof.
  unfold __graceful_thread_join. apply emits_try_except.
  - apply emits_bind; [apply emits_gets|]. intros status.
    destruct status; try apply emits_ret.
    intros s. unfold thread_join.
    destruct (thread_join_raises w t); [repeat constructor|].
    pose proof (emits_thread_target_before_teardown w t fuel s) as H.
    destruct (out (thread_target w t fuel s)); cbn [evs]; constructor; auto; exact I.
  - intros e. apply emits_emit. exact I.
Qed.

Lemma emits_stop_joins w fuel : emits before_teardown (stop_joins w fuel).
Proof.
  unfold stop_joins.
  repeat (apply emits_bind; [|intros ?]);
    first [ apply emits_graceful_join_before_teardown
          | apply emits_emit; exact I
          | apply emits_modify ].
Qed.

Lemma teardown_begins w s :
  exists tl, evs (teardown w s) = CallDestroyAllStreams :: tl.
Proof.
  unfold teardown, bind, try_except, call.
  destruct (streams_destroy_all_streams w) as [[]|e|]; cbn [out st evs app];
    eexists; reflexivity.
Qed.

Lemma foreach_exit_raised_last w l s h e :
  In (CallExit h) (evs (foreach (exit_camera w) l s)) ->
  cam_exit w h = Raise e ->
  exists pre, evs (foreach (exit_camera w) l s) = pre ++ [CallExit h].
Proof.
  revert s. induction l as [|c l IH]; intros s Hin Hraise; simpl in *; [tauto|].
  unfold bind in *.
  destruct (exit_camera_cases w c s) as [[Hd Hc]|[Hn Hc]].
  - rewrite Hc in *. simpl in *. exact (IH s Hin Hraise).
  - destruct (cam_exit w c) as [[]|e'|] eqn:Ec; rewrite Hc in *; simpl in *.
    + destruct Hin as [Heq|Hin].
      * inversion Heq; subst. congruence.
      * destruct (IH s Hin Hraise) as [pre Hp]. exists (CallExit c :: pre).
        now rewrite Hp.
    + destruct Hin as [Heq|[]]. inversion Heq; subst. now exists [].
    + destruct Hin as [Heq|[]]. inversion Heq; subst. congruence.
Qed.

(** C7.  [stop] gets to its teardown exactly when its three joins have
    come back, whatever the threads did until then.  An error of the
    teardown of the streams then ends [stop] with a new [Exception] that
    carries the text of the error and has the error as its context, and
    so does an error of the exit of a camera (which is called only for a
    camera whose state is not DISCONNECTED): the caller of [stop] gets the
    exception, and the call that raised is the last thing [stop] did, so
    nothing is logged in its place.  The first camera in the pool whose
    exit raises is such a camera. *)
Theorem stop_surfaces_teardown_errors (w : World) (fuel : nat) (s : DeviceManager) :
  let r := stop w fuel s in
  let joined := stop_joins w fuel s in
  (In CallDestroyAllStreams (evs r) <-> out joined = Ok tt)
  /\ (forall e, In CallDestroyAllStreams (evs r) ->
        streams_destroy_all_streams w = Raise e ->
        out r = Raise (destroy_failure e)
        /\ wraps (destroy_failure e)
             ("Destroy all streams excepted with: " ++ str e ++ ".")%string e
        /\ evs r = evs joined ++ [CallDestroyAllStreams])
  /\ (forall h e, In (CallExit h) (evs r) -> cam_exit w h = Raise e ->
        out r = Raise (exit_failure h e)
        /\ wraps (exit_failure h e)
             ("Device " ++ device_mxid h ++ ": could not exit with exception: "
              ++ str e ++ ".")%string e
        /\ cam_state w h <> DISCONNECTED
        /\ exists pre, evs r = pre ++ [CallExit h])
  /\ (forall l1 h l2 e,
        out joined = Ok tt ->
        streams_destroy_all_streams w = Ok tt ->
        _hub_cameras (st joined) = l1 ++ h :: l2 ->
        (forall c, In c l1 -> cam_state w c = DISCONNECTED \/ cam_exit w c = Ok tt) ->
        cam_state w h <> DISCONNECTED ->
        cam_exit w h = Raise e ->
        out r = Raise (exit_failure h e) /\ In (CallExit h) (evs r)).
Proof.
  intros r joined. subst r joined. rewrite (stop_split w fuel s).
  pose proof (emits_stop_joins w fuel s) as Hbefore. rewrite Forall_forall in Hbefore.
  destruct (stop_joins w fuel s) as [o s1 e1] eqn:Hj. cbn [out st evs] in *.
  destruct o as [[]|e0|].
  2:{ rewrite (bind_raise _ _ _ _ _ _ Hj). cbn [out evs].
      split; [split; [intros H; destruct (Hbefore _ H) | discriminate]|].
      split; [intros e H; destruct (Hbefore _ H)|].
      split; [intros h e H; destruct (Hbefore _ H) | discriminate]. }
  2:{ rewrite (bind_hang _ _ _ _ _ Hj). cbn [out evs].
      split; [split; [intros H; destruct (Hbefore _ H) | discriminate]|].
      split; [intros e H; destruct (Hbefore _ H)|].
      split; [intros h e H; destruct (Hbefore _ H) | discriminate]. }
  rewrite (bind_ok _ _ _ _ _ _ Hj). cbn [out evs].
  pose proof (teardown_cases w s1) as Ht.
  split; [|split; [|split]].
  - split; [reflexivity|]. intros _. destruct (teardown_begins w s1) as [tl ->].
    apply in_or_app. right. now left.
  - intros e _ Hd. rewrite Hd in Ht. destruct Ht as [-> ->].
    split; [reflexivity|]. split; [|reflexivity]. repeat split.
  - intros h e Hin Hraise.
    apply in_app_or in Hin. destruct Hin as [Hin|Hin]; [destruct (Hbefore _ Hin)|].
    destruct (streams_destroy_all_streams w) as [[]|e'|] eqn:Hd.
    + cbv zeta in Ht. destruct Ht as [Hout Hev]. pose proof Hin as Hin'. apply Hev in Hin'.
      destruct (foreach_exit_raised w _ _ h e Hin' Hraise) as (Hr & Hn & _).
      rewrite Hout, Hr. split; [reflexivity|]. split; [repeat split|]. split; [exact Hn|].
      destruct (foreach_exit_raised_last w _ _ h e Hin' Hraise) as [pre Hp].
      rewrite (teardown_destroyed w s1 Hd).
      destruct (foreach (exit_camera w) (_hub_cameras s1) s1) as [o2 s2 e2] eqn:Hf.
      cbn [out evs] in Hr, Hp. subst o2.
      rewrite (bind_raise _ _ _ _ _ _ Hf). cbn [evs]. rewrite Hp.
      exists (e1 ++ CallDestroyAllStreams :: pre).
      rewrite <- app_assoc. reflexivity.
    + destruct Ht as [_ Hev]. rewrite Hev in Hin.
      destruct Hin as [H|[]]. discriminate H.
    + destruct Ht as [_ Hev]. rewrite Hev in Hin.
      destruct Hin as [H|[]]. discriminate H.
  - intros l1 h l2 e _ Hd Hpool Hl1 Hn Hraise. rewrite Hd in Ht. cbv zeta in Ht.
    destruct Ht as [Hout Hev]. rewrite Hpool in Hout, Hev.
    destruct (foreach_exit_first_raise w l1 h l2 s1 e Hl1 Hn Hraise) as [Hr Hin].
    rewrite Hout, Hr. split; [reflexivity|].
    apply in_or_app. right. apply Hev. exact Hin.
Qed.

Lemma stop_surfaces_teardown_errors_witness :
  thread_status PollingThread only_polling_alive = Alive
  /\ out (stop poll_and_exit_of_B_raise 3 only_polling_alive)
     = Raise (mkExn Exception
                "Device B: could not exit with exception: X_LINK_DEVICE_NOT_FOUND."
                [(RuntimeError, "X_LINK_DEVICE_NOT_FOUND"%string)])
  /\ out (stop poll_of_B_and_destroy_raise 3 only_polling_alive)
     = Raise (mkExn Exception "Destroy all streams excepted with: stream in use."
                [(RuntimeError, "stream in use"%string)]).
Proof.
  split; [reflexivity|]. split.
  - apply (proj2 (proj2 (proj2 (stop_surfaces_teardown_errors poll_and_exit_of_B_raise 3
                                  only_polling_alive)))
             [camera_A] camera_B [] (mkExn RuntimeError "X_LINK_DEVICE_NOT_FOUND" [])).
    + vm_compute. reflexivity.
    + reflexivity.
    + vm_compute. reflexivity.
    + intros c [<-|[]]. right. reflexivity.
    + discriminate.
    + reflexivity.
  - apply (proj1 (proj2 (stop_surfaces_teardown_errors poll_of_B_and_destroy_raise 3
                           only_polling_alive))
             (mkExn RuntimeError "stream in use" [])).
    + vm_compute. auto 10.
    + reflexivity.
Defined.
